(** * A shallow embedding of the chat application's persistence layer
      and chat orchestrator

    Sources embedded here:
    - [src/lib/db/queries.ts]            (the persistence layer),
    - [src/app/(chat)/api/chat/route.ts] (the POST and DELETE handlers),
    - [src/app/(chat)/api/vote/route.ts] (the GET handler).

    A table is the list of its rows in storage order.  A drizzle
    [select ... where] is a [filter], [delete ... where] keeps the rows
    that do not match, [update ... set ... where] maps over the rows and
    [insert] appends.  Identifiers are strings, a [Date] is its number
    of milliseconds ([Z]) and a JavaScript [number] is an integer.
    An [async] function that can [throw] returns an [outcome]; storage
    I/O failures come from an oracle of the orchestrator model.  Of the
    schema's integrity constraints the model checks the foreign keys of
    the vote and message relations, where the cascades of the persistence
    layer depend on them, and the primary key of the message relation on
    insert; uniqueness of the stored ids is a hypothesis of the theorems
    that need it. *)

From Stdlib Require Import List String ZArith Bool Lia Sorted Permutation.
Import ListNotations.

Local Open Scope string_scope.
Local Open Scope Z_scope.
Local Open Scope list_scope.

(** ** Rows of the relations ([./schema], declared outside [src/]) *)

Inductive Visibility := private | public.

Module User.
Record t := mk { id : string; email : string; password : option string }.
End User.

Module Chat.
Record t := mk
  { id : string; createdAt : Z; userId : string; title : string;
    visibility : Visibility }.
End Chat.

Module Message.
Record t := mk
  { id : string; chatId : string; role : string; parts : string;
    attachments : string; createdAt : Z }.
End Message.

Module Vote.
Record t := mk { chatId : string; messageId : string; isUpvoted : bool }.
End Vote.

Module Document.
Record t := mk
  { id : string; createdAt : Z; title : string; content : string;
    kind : string; userId : string }.
End Document.

Module Suggestion.
Record t := mk
  { id : string; documentId : string; documentCreatedAt : Z;
    originalText : string; suggestedText : string; description : string;
    isResolved : bool; userId : string; createdAt : Z }.
End Suggestion.

(** The database: one list of rows per table, named as the table objects
    that [queries.ts] imports from the schema. *)
Record DB := mkDB
  { user : list User.t;
    chat : list Chat.t;
    message : list Message.t;
    vote : list Vote.t;
    document : list Document.t;
    suggestion : list Suggestion.t }.

Definition set_chat (db : DB) (rows : list Chat.t) : DB :=
  mkDB (user db) rows (message db) (vote db) (document db) (suggestion db).
Definition set_message (db : DB) (rows : list Message.t) : DB :=
  mkDB (user db) (chat db) rows (vote db) (document db) (suggestion db).
Definition set_vote (db : DB) (rows : list Vote.t) : DB :=
  mkDB (user db) (chat db) (message db) rows (document db) (suggestion db).
Definition set_document (db : DB) (rows : list Document.t) : DB :=
  mkDB (user db) (chat db) (message db) (vote db) rows (suggestion db).
Definition set_suggestion (db : DB) (rows : list Suggestion.t) : DB :=
  mkDB (user db) (chat db) (message db) (vote db) (document db) rows.
Definition set_user (db : DB) (rows : list User.t) : DB :=
  mkDB rows (chat db) (message db) (vote db) (document db) (suggestion db).

(** ** Outcomes of functions that may throw *)

Inductive outcome (A : Type) : Type :=
| Returned (a : A)
| Thrown (msg : string).
Arguments Returned {A} a.
Arguments Thrown {A} msg.

Definition bind {A B} (m : outcome A) (k : A -> outcome B) : outcome B :=
  match m with
  | Returned a => k a
  | Thrown msg => Thrown msg
  end.

Notation "'let!' x ':=' m 'in' k" := (bind m (fun x => k))
  (at level 10, x name, m at level 100, k at level 200).

(** ** The query builder *)

Module Drizzle.

Definition eq (a b : string) : bool := String.eqb a b.
Definition gt (a b : Z) : bool := b <? a.
Definition gte (a b : Z) : bool := b <=? a.
Definition lt (a b : Z) : bool := a <? b.
Definition inArray (a : string) (l : list string) : bool :=
  existsb (String.eqb a) l.

Definition select_where {A} (p : A -> bool) (rows : list A) : list A :=
  filter p rows.

Definition delete_where {A} (p : A -> bool) (rows : list A) : list A :=
  filter (fun r => negb (p r)) rows.

Definition update_where {A} (p : A -> bool) (set : A -> A)
  (rows : list A) : list A :=
  map (fun r => if p r then set r else r) rows.

Definition insert {A} (values : list A) (rows : list A) : list A :=
  rows ++ values.

(** [.limit(n)]: the query builder emits a LIMIT clause only for a count
    that is not negative; with a negative count the query is unlimited. *)
Definition limit {A} (n : Z) (rows : list A) : outcome (list A) :=
  if n <? 0 then Returned rows
  else Returned (firstn (Z.to_nat n) rows).

(** [.orderBy(desc(key))], as an insertion sort; rows with equal keys
    stay in storage order (the database leaves their order open). *)
Fixpoint insert_desc {A} (key : A -> Z) (x : A) (rows : list A) : list A :=
  match rows with
  | [] => [x]
  | y :: rest =>
      if key x <? key y then y :: insert_desc key x rest
      else x :: y :: rest
  end.

Definition orderBy_desc {A} (key : A -> Z) (rows : list A) : list A :=
  fold_right (insert_desc key) [] rows.

(** [.orderBy(asc(key))]. *)
Fixpoint insert_asc {A} (key : A -> Z) (x : A) (rows : list A) : list A :=
  match rows with
  | [] => [x]
  | y :: rest =>
      if key y <? key x then y :: insert_asc key x rest
      else x :: y :: rest
  end.

Definition orderBy_asc {A} (key : A -> Z) (rows : list A) : list A :=
  fold_right (insert_asc key) [] rows.

End Drizzle.

(** [const [x] = rows]: the first row, or [undefined]. *)
Definition first {A} (rows : list A) : option A := hd_error rows.

(** JavaScript truthiness of a [string | null]. *)
Definition truthy (s : option string) : bool :=
  match s with
  | Some v => negb (String.eqb v "")
  | None => false
  end.

(** [rows.slice(0, end)] *)
Definition slice0 {A} (rows : list A) (stop : Z) : list A :=
  if stop <? 0
  then firstn (Z.to_nat (Z.max (Z.of_nat (List.length rows) + stop) 0)) rows
  else firstn (Z.to_nat stop) rows.

(** ** queries.ts: chats *)

Definition getChatById (db : DB) (id userId : string) : option Chat.t :=
  first (firstn 1 (Drizzle.select_where
    (fun c => Drizzle.eq (Chat.id c) id && Drizzle.eq (Chat.userId c) userId)
    (chat db))).

(** Primary key of the chat relation (declared in the schema). *)
Definition chat_pkey (db : DB) : Prop := NoDup (map Chat.id (chat db)).

Definition saveChat (db : DB) (now : Z) (id userId title : string) : DB :=
  set_chat db
    (Drizzle.insert [Chat.mk id now userId title private] (chat db)).

(** ** Keys of the vote and message relations *)

(** Modelled from the spec: the schema ([./schema]) is not under [src/].
    A vote refers to its message by [messageId] and to its chat by
    [chatId], a message to its chat by [chatId]; the database does not
    cascade, so the persistence layer deletes dependent rows first.  A
    delete of a row that another row still refers to, and an insert of a
    row that refers to no row, is rejected and the statement throws.  A
    message is identified by its [id]: an insert of a message whose id is
    taken is rejected as well. *)
Definition foreign_key_violation : string := "violates foreign key constraint".

Definition unique_violation : string :=
  "duplicate key value violates unique constraint".

(** Some vote of [db] refers to message [m]. *)
Definition voted_on (db : DB) (m : Message.t) : bool :=
  existsb (fun v => String.eqb (Vote.messageId v) (Message.id m)) (vote db).

(** Some message or vote of [db] refers to chat [c]. *)
Definition chat_in_use (db : DB) (c : Chat.t) : bool :=
  existsb (fun m => String.eqb (Message.chatId m) (Chat.id c)) (message db)
  || existsb (fun v => String.eqb (Vote.chatId v) (Chat.id c)) (vote db).

(** Some message of [db] has the id [messageId]. *)
Definition message_exists (db : DB) (messageId : string) : bool :=
  existsb (fun m => String.eqb (Message.id m) messageId) (message db).

(** Some chat of [db] has the id [chatId]. *)
Definition chat_exists (db : DB) (chatId : string) : bool :=
  existsb (fun c => String.eqb (Chat.id c) chatId) (chat db).

(** The ids of a batch are pairwise different. *)
Fixpoint distinct (ids : list string) : bool :=
  match ids with
  | [] => true
  | id :: rest => negb (Drizzle.inArray id rest) && distinct rest
  end.

(** [db.delete(table).where(p)] on a table whose rows other rows may
    refer to: rejected when a row to delete is still [referenced]. *)
Definition delete_restrict {A} (p referenced : A -> bool) (rows : list A)
  : outcome (list A) :=
  if existsb (fun r => p r && referenced r) rows
  then Thrown foreign_key_violation
  else Returned (Drizzle.delete_where p rows).

(** The three deletes of [deleteChatById] run one after the other,
    outside any transaction: when one is rejected or fails in storage,
    what the earlier ones deleted stays deleted.  [message_ok] and
    [chat_ok] tell whether storage is up at the second and at the third
    statement. *)
Definition deleteChatById_statements (message_ok chat_ok : bool)
  (db : DB) (id : string) : outcome unit * DB :=
  let db1 :=
    set_vote db
      (Drizzle.delete_where (fun v => Drizzle.eq (Vote.chatId v) id) (vote db)) in
  if negb message_ok then (Thrown "StorageError", db1)
  else
    match delete_restrict (fun m => Drizzle.eq (Message.chatId m) id)
            (voted_on db1) (message db1) with
    | Thrown msg => (Thrown msg, db1)
    | Returned messages =>
        let db2 := set_message db1 messages in
        if negb chat_ok then (Thrown "StorageError", db2)
        else
          match delete_restrict (fun c => Drizzle.eq (Chat.id c) id)
                  (chat_in_use db2) (chat db2) with
          | Thrown msg => (Thrown msg, db2)
          | Returned chats => (Returned tt, set_chat db2 chats)
          end
    end.

(** [deleteChatById] with storage up. *)
Definition deleteChatById (db : DB) (id : string) : outcome unit * DB :=
  deleteChatById_statements true true db id.

Record ChatPage := mkChatPage { chats : list Chat.t; hasMore : bool }.

(** The [query] closure of [getChatsByUserId]. *)
Definition query (db : DB) (id : string) (extendedLimit : Z)
  (whereCondition : option (Chat.t -> bool)) : outcome (list Chat.t) :=
  Drizzle.limit extendedLimit
    (Drizzle.orderBy_desc Chat.createdAt
       (Drizzle.select_where
          (fun c =>
             match whereCondition with
             | Some cond => cond c && Drizzle.eq (Chat.userId c) id
             | None => Drizzle.eq (Chat.userId c) id
             end)
          (chat db))).

(** [if (s)] on a [string | null]: the string when it is truthy. *)
Definition given (s : option string) : option string :=
  if truthy s then s else None.

(** The cursor lookup of [getChatsByUserId]: by chat id alone. *)
Definition selectedChat (db : DB) (cursor : string) : option Chat.t :=
  first (firstn 1
    (Drizzle.select_where (fun c => Drizzle.eq (Chat.id c) cursor) (chat db))).

(** The rows [getChatsByUserId] fetches (its variable [filteredChats]). *)
Definition filteredChats (db : DB) (id : string) (limit : Z)
  (startingAfter endingBefore : option string) : outcome (list Chat.t) :=
  let extendedLimit := limit + 1 in
  match given startingAfter, given endingBefore with
  | Some startingAfter, _ =>
      match selectedChat db startingAfter with
      | None =>
          Thrown ("Chat with id " ++ startingAfter ++ " not found")%string
      | Some sel =>
          query db id extendedLimit
            (Some (fun c => Drizzle.gt (Chat.createdAt c) (Chat.createdAt sel)))
      end
  | None, Some endingBefore =>
      match selectedChat db endingBefore with
      | None =>
          Thrown ("Chat with id " ++ endingBefore ++ " not found")%string
      | Some sel =>
          query db id extendedLimit
            (Some (fun c => Drizzle.lt (Chat.createdAt c) (Chat.createdAt sel)))
      end
  | None, None => query db id extendedLimit None
  end.

Definition getChatsByUserId (db : DB) (id : string) (limit : Z)
  (startingAfter endingBefore : option string) : outcome ChatPage :=
  let! rows := filteredChats db id limit startingAfter endingBefore in
  let hasMore := limit <? Z.of_nat (List.length rows) in
  Returned (mkChatPage (if hasMore then slice0 rows limit else rows) hasMore).

(** ** queries.ts: messages and votes *)

(** One insert statement for the whole batch: when a row is rejected, no
    row is stored. *)
Definition saveMessages (db : DB) (messages : list Message.t)
  : outcome unit * DB :=
  if negb (distinct (map Message.id messages)
           && forallb (fun m => negb (message_exists db (Message.id m)))
                messages)
  then (Thrown unique_violation, db)
  else if negb (forallb (fun m => chat_exists db (Message.chatId m)) messages)
  then (Thrown foreign_key_violation, db)
  else (Returned tt, set_message db (Drizzle.insert messages (message db))).

Definition getMessagesByChatId (db : DB) (id : string) : list Message.t :=
  Drizzle.orderBy_asc Message.createdAt
    (Drizzle.select_where (fun m => Drizzle.eq (Message.chatId m) id)
       (message db)).

Inductive VoteType := up | down.

Definition is_up (type : VoteType) : bool :=
  match type with up => true | down => false end.

Definition voteMessage (db : DB) (chatId messageId : string)
  (type : VoteType) (userId : string) : outcome unit * DB :=
  match getChatById db chatId userId with
  | None => (Thrown ("Chat not found: " ++ chatId)%string, db)
  | Some chatToVerify =>
      if negb (String.eqb (Chat.userId chatToVerify) userId)
      then (Thrown "Unauthorized: User does not own this chat", db)
      else
        match first (Drizzle.select_where
                       (fun v => Drizzle.eq (Vote.messageId v) messageId)
                       (vote db)) with
        | Some existingVote =>
            (Returned tt,
             set_vote db
               (Drizzle.update_where
                  (fun v => Drizzle.eq (Vote.messageId v) messageId
                            && Drizzle.eq (Vote.chatId v) chatId)
                  (fun v => Vote.mk (Vote.chatId v) (Vote.messageId v)
                              (is_up type))
                  (vote db)))
        | None =>
            if message_exists db messageId
            then
              (Returned tt,
               set_vote db
                 (Drizzle.insert [Vote.mk chatId messageId (is_up type)]
                    (vote db)))
            else (Thrown foreign_key_violation, db)
        end
  end.

Definition getVotesByChatId (db : DB) (id : string) : list Vote.t :=
  Drizzle.select_where (fun v => Drizzle.eq (Vote.chatId v) id) (vote db).

(** [from(message).innerJoin(chat, on)] *)
Definition innerJoin {A B} (on : A -> B -> bool) (l : list A) (r : list B)
  : list (A * B) :=
  flat_map (fun a => map (pair a) (filter (on a) r)) l.

Definition getMessageById (db : DB) (id userId : string) : option Message.t :=
  first (map fst (firstn 1
    (Drizzle.select_where
       (fun mc => Drizzle.eq (Message.id (fst mc)) id
                  && Drizzle.eq (Chat.userId (snd mc)) userId)
       (innerJoin (fun m c => Drizzle.eq (Message.chatId m) (Chat.id c))
          (message db) (chat db))))).

Definition deleteMessagesByChatIdAfterTimestamp (db : DB) (chatId : string)
  (timestamp : Z) (userId : string) : outcome unit * DB :=
  match getChatById db chatId userId with
  | None => (Thrown ("Chat not found: " ++ chatId)%string, db)
  | Some chatToVerify =>
      if negb (String.eqb (Chat.userId chatToVerify) userId)
      then (Thrown "Unauthorized: User does not own this chat", db)
      else
        let messagesToDelete :=
          Drizzle.select_where
            (fun m => Drizzle.eq (Message.chatId m) chatId
                      && Drizzle.gte (Message.createdAt m) timestamp)
            (message db) in
        let messageIds := map Message.id messagesToDelete in
        if (0 <? List.length messageIds)%nat then
          let db1 :=
            set_vote db
              (Drizzle.delete_where
                 (fun v => Drizzle.eq (Vote.chatId v) chatId
                           && Drizzle.inArray (Vote.messageId v) messageIds)
                 (vote db)) in
          match delete_restrict
                  (fun m => Drizzle.eq (Message.chatId m) chatId
                            && Drizzle.inArray (Message.id m) messageIds)
                  (voted_on db1) (message db1) with
          | Thrown msg => (Thrown msg, db1)
          | Returned messages => (Returned tt, set_message db1 messages)
          end
        else (Returned tt, db)
  end.

Definition updateChatVisiblityById (db : DB) (id : string)
  (visibility : Visibility) (userId : string) : list Chat.t * DB :=
  let cond := fun c => Drizzle.eq (Chat.id c) id
                       && Drizzle.eq (Chat.userId c) userId in
  let set := fun c => Chat.mk (Chat.id c) (Chat.createdAt c) (Chat.userId c)
                        (Chat.title c) visibility in
  (map set (Drizzle.select_where cond (chat db)),
   set_chat db (Drizzle.update_where cond set (chat db))).

(** ** queries.ts: documents and suggestions *)


Definition getDocumentsById (db : DB) (ids : list string) (userId : string)
  : list Document.t :=
  Drizzle.orderBy_desc Document.createdAt
    (Drizzle.select_where
       (fun d => Drizzle.inArray (Document.id d) ids
                 && Drizzle.eq (Document.userId d) userId)
       (document db)).

Definition getDocumentById (db : DB) (id userId : string) : option Document.t :=
  first (firstn 1
    (Drizzle.select_where
       (fun d => Drizzle.eq (Document.id d) id
                 && Drizzle.eq (Document.userId d) userId)
       (document db))).

Definition deleteDocumentsByIdAfterTimestamp (db : DB) (id : string)
  (timestamp : Z) (userId : string) : list Document.t * DB :=
  let db1 :=
    set_suggestion db
      (Drizzle.delete_where
         (fun s => Drizzle.eq (Suggestion.documentId s) id
                   && Drizzle.gt (Suggestion.documentCreatedAt s) timestamp)
         (suggestion db)) in
  let cond := fun d => Drizzle.eq (Document.id d) id
                       && Drizzle.eq (Document.userId d) userId
                       && Drizzle.gt (Document.createdAt d) timestamp in
  (Drizzle.select_where cond (document db1),
   set_document db1 (Drizzle.delete_where cond (document db1))).

Definition saveSuggestions (db : DB) (suggestions : list Suggestion.t) : DB :=
  set_suggestion db (Drizzle.insert suggestions (suggestion db)).

Definition getSuggestionsByDocumentId (db : DB) (documentId userId : string)
  : list Suggestion.t :=
  match getDocumentById db documentId userId with
  | None => []
  | Some doc =>
      Drizzle.select_where
        (fun s => Drizzle.eq (Suggestion.documentId s) documentId)
        (suggestion db)
  end.

(** ** queries.ts: users *)

Definition getUserById (db : DB) (id : string) : option User.t :=
  first (firstn 1
    (Drizzle.select_where (fun u => Drizzle.eq (User.id u) id) (user db))).

Definition createClerkUser (db : DB) (id email : string) : list User.t * DB :=
  let row := User.mk id email None in
  ([row], set_user db (Drizzle.insert [row] (user db))).

(** ** Integrity constraints of the schema *)

(** Primary key of the message relation. *)
Definition message_pkey (db : DB) : Prop := NoDup (map Message.id (message db)).

(** ** The route handlers

    A handler runs against a [World]: the database, the handle of the
    remote tool client and the log of what has happened so far (newest
    event first).  What the handler cannot decide itself is read from an
    [Env]: the identity provider, the model and its stream, the remote
    tool process, whether a storage call fails, and the helpers imported
    from outside [src/] ([@/lib/utils] and the SDK's
    [appendResponseMessages]). *)

Module UIMessage.
Record t := mk
  { id : string; role : string; parts : string;
    experimental_attachments : option string }.
End UIMessage.

(** A message of the model's [response.messages]. *)
Module ResponseMessage.
Record t := mk { id : string; role : string }.
End ResponseMessage.

(** The call sites of the persistence layer in the handlers;
    [at_deleteChatById_message] and [at_deleteChatById_chat] are the
    second and the third statement inside [deleteChatById]. *)
Inductive Site :=
| at_getUserById
| at_createClerkUser
| at_getChatById
| at_saveChat
| at_saveMessages_inbound
| at_saveMessages_outbound
| at_deleteChatById
| at_deleteChatById_message
| at_deleteChatById_chat
| at_getVotesByChatId.

(** How the model's stream ends. *)
Inductive Ending :=
| finished (responseMessages : list ResponseMessage.t)
| errored
| aborted.

Record Env := mkEnv
  { auth : option string;
    auth_onFinish : option string;
    storage_ok : Site -> bool;
    clerk_primaryEmail : string -> outcome (option string);
    generateTitleFromUserMessage : UIMessage.t -> outcome string;
    now : Site -> Z;
    getMostRecentUserMessage : list UIMessage.t -> option UIMessage.t;
    getTrailingMessageId : list ResponseMessage.t -> option string;
    appendResponseMessages :
      list UIMessage.t -> list ResponseMessage.t -> list UIMessage.t;
    MCP_SERVER_SCRIPT_PATH : option string;
    BRAVE_API_KEY : option string;
    mcp_connects : bool;
    mcp_lists_tools : bool;
    model_chunks : list string;
    model_ending : Ending }.

Inductive Event :=
| called (s : Site)
| resolved (s : Site)
| rejected (s : Site)
| mcp_opened
| mcp_closed
| streamText_begins
| relayed (chunks : list string)
| stream_finished
| stream_errored
| request_aborted
| onFinish_entered.

Inductive Body :=
| text (s : string)
| json (s : string)
| json_votes (votes : list Vote.t)
| no_body
| data_stream.

Record Response := response { body : Body; status : Z }.

Record World := mkWorld { store : DB; mcpClient : bool; log : list Event }.

(** A step of a handler: a value, a thrown error, or a [return] of the
    handler's response from inside the step. *)
Inductive result (A : Type) : Type :=
| Val (a : A)
| Exn (msg : string)
| Return (r : Response).
Arguments Val {A} a.
Arguments Exn {A} msg.
Arguments Return {A} r.

Definition M (A : Type) : Type := World -> result A * World.

Definition ret {A} (a : A) : M A := fun w => (Val a, w).

Definition throw {A} (msg : string) : M A := fun w => (Exn msg, w).

Definition return_ {A} (r : Response) : M A := fun w => (Return r, w).

Definition bindM {A B} (m : M A) (k : A -> M B) : M B :=
  fun w =>
    match m w with
    | (Val a, w') => k a w'
    | (Exn msg, w') => (Exn msg, w')
    | (Return r, w') => (Return r, w')
    end.

Notation "x <- m ;; k" := (bindM m (fun x => k))
  (at level 61, m at next level, right associativity).
Notation "m ;; k" := (bindM m (fun _ => k))
  (at level 61, right associativity).

(** [try { m } catch (e) { handler e }] *)
Definition try_catch {A} (m : M A) (handler : string -> M A) : M A :=
  fun w =>
    match m w with
    | (Exn msg, w') => handler msg w'
    | other => other
    end.

Definition emit (e : Event) : M unit :=
  fun w => (Val tt, mkWorld (store w) (mcpClient w) (e :: log w)).

Definition set_mcpClient (open : bool) : M unit :=
  fun w => (Val tt, mkWorld (store w) open (log w)).

Definition get_mcpClient : M bool := fun w => (Val (mcpClient w), w).

(** [await f(...)] for a persistence function [f]: the call is logged,
    then it either fails in storage before anything is written or runs on
    the database. *)
Definition await {A} (env : Env) (s : Site) (f : DB -> outcome A * DB) : M A :=
  emit (called s) ;;
  fun w =>
    if storage_ok env s then
      match f (store w) with
      | (Returned a, db') =>
          (Val a, mkWorld db' (mcpClient w) (resolved s :: log w))
      | (Thrown msg, db') =>
          (Exn msg, mkWorld db' (mcpClient w) (rejected s :: log w))
      end
    else (Exn "StorageError", mkWorld (store w) (mcpClient w) (rejected s :: log w)).

Definition reading {A} (f : DB -> A) : DB -> outcome A * DB :=
  fun db => (Returned (f db), db).

Definition writing (f : DB -> DB) : DB -> outcome unit * DB :=
  fun db => (Returned tt, f db).

(** The just-in-time user synchronisation at the top of the handlers. *)
Definition jit_sync (env : Env) (userId : string) : M unit :=
  localUser <- await env at_getUserById (reading (fun db => getUserById db userId)) ;;
  match localUser with
  | Some _ => ret tt
  | None =>
      try_catch
        (match clerk_primaryEmail env userId with
         | Thrown msg => throw msg
         | Returned primaryEmail =>
             match given primaryEmail with
             | None => return_ (response (json "User profile incomplete") 500)
             | Some primaryEmail =>
                 await env at_createClerkUser
                   (fun db => let (rows, db') := createClerkUser db userId primaryEmail in
                              (Returned tt, db'))
             end
         end)
        (fun syncError =>
           return_ (response (json "Failed to synchronize user data") 500))
  end.

(** [if (mcpClient) { try { await mcpClient.close() } catch {} }] *)
Definition close_mcpClient : M unit :=
  open <- get_mcpClient ;;
  if open then emit mcp_closed else ret tt.

(** The connection attempt to the remote tool process, in [execute]. *)
Definition connect_mcp (env : Env) : M unit :=
  try_catch
    (match MCP_SERVER_SCRIPT_PATH env with
     | None => ret tt
     | Some mcpServerScriptPath =>
         if negb (truthy (Some mcpServerScriptPath)) then ret tt
         else if negb (truthy (BRAVE_API_KEY env))
         then throw "BRAVE_API_KEY environment variable not set for MCP."
         else if negb (mcp_connects env) then throw "MCP connection failed"
         else
           set_mcpClient true ;; emit mcp_opened ;;
           if mcp_lists_tools env then ret tt
           else throw "MCP tools() failed"
     end)
    (fun mcpError =>
       open <- get_mcpClient ;;
       if open then emit mcp_closed ;; set_mcpClient false else ret tt).

Record Request := mkRequest
  { req_id : string;
    req_messages : list UIMessage.t;
    selectedChatModel : string }.

Definition attachments_of (m : UIMessage.t) : string :=
  match UIMessage.experimental_attachments m with
  | Some a => a
  | None => "[]"
  end.

(** The message that POST saves before the model is invoked. *)
Definition inbound_message (env : Env) (id : string) (userMessage : UIMessage.t)
  : Message.t :=
  Message.mk (UIMessage.id userMessage) id "user" (UIMessage.parts userMessage)
    (attachments_of userMessage) (now env at_saveMessages_inbound).

(** The [onFinish] callback handed to [streamText]. *)
Definition onFinish (env : Env) (id : string) (userMessage : UIMessage.t)
  (responseMessages : list ResponseMessage.t) : M unit :=
  emit onFinish_entered ;;
  (if truthy (auth_onFinish env) then
     try_catch
       (match given (getTrailingMessageId env
                       (filter (fun m => String.eqb (ResponseMessage.role m) "assistant")
                          responseMessages)) with
        | None => throw "No assistant message found!"
        | Some assistantId =>
            match nth_error
                    (appendResponseMessages env [userMessage] responseMessages) 1 with
            | None => throw "TypeError"
            | Some assistantMessage =>
                await env at_saveMessages_outbound
                  (fun db =>
                     saveMessages db
                       [Message.mk assistantId id (UIMessage.role assistantMessage)
                          (UIMessage.parts assistantMessage)
                          (attachments_of assistantMessage)
                          (now env at_saveMessages_outbound)])
            end
        end)
       (fun _ => ret tt)
   else ret tt) ;;
  close_mcpClient.

(** The SDK's [streamText] with the stream it drives: the model is
    invoked at the call, its output is relayed to the client, and when
    the stream has finished the SDK calls [onFinish]; an abort of the
    request runs the listener registered on [request.signal]. *)
Definition streamText (env : Env)
  (onFinish : list ResponseMessage.t -> M unit) (onAbort : M unit) : M unit :=
  emit streamText_begins ;;
  emit (relayed (model_chunks env)) ;;
  match model_ending env with
  | finished responseMessages => emit stream_finished ;; onFinish responseMessages
  | errored => emit stream_errored
  | aborted => emit request_aborted ;; onAbort
  end.

(** The SDK's [createDataStreamResponse]: runs [execute]; an error in it
    goes to [onError] and the streaming response is returned all the same. *)
Definition createDataStreamResponse (execute : M unit) : M Response :=
  try_catch (execute ;; ret (response data_stream 200))
    (fun _ => ret (response data_stream 200)).

Definition POST_body (env : Env) (request : Request) : M Response :=
  let id := req_id request in
  match given (auth env) with
  | None => return_ (response (text "Unauthorized") 401)
  | Some userId =>
      jit_sync env userId ;;
      match getMostRecentUserMessage env (req_messages request) with
      | None => return_ (response (text "No user message found") 400)
      | Some userMessage =>
          chat <- await env at_getChatById
                    (reading (fun db => getChatById db id userId)) ;;
          match chat with
          | None =>
              match generateTitleFromUserMessage env userMessage with
              | Thrown msg => throw msg
              | Returned title =>
                  await env at_saveChat
                    (writing (fun db => saveChat db (now env at_saveChat) id userId title))
              end
          | Some chat =>
              if negb (String.eqb (Chat.userId chat) userId)
              then return_ (response (text "Unauthorized") 401)
              else ret tt
          end ;;
          await env at_saveMessages_inbound
            (fun db => saveMessages db [inbound_message env id userMessage]) ;;
          set_mcpClient false ;;
          createDataStreamResponse
            (connect_mcp env ;;
             streamText env (onFinish env id userMessage) close_mcpClient)
      end
  end.

(** A handler's result: the response it returns, or the error it lets
    escape. *)
Definition handler (m : M Response) (w : World) : outcome Response * World :=
  match m w with
  | (Val r, w') => (Returned r, w')
  | (Return r, w') => (Returned r, w')
  | (Exn msg, w') => (Thrown msg, w')
  end.

Definition POST (env : Env) (request : Request) : World -> outcome Response * World :=
  handler
    (try_catch (POST_body env request)
       (fun error =>
          ret (response (text "An error occurred while processing your request!") 500))).

(** [DELETE /api/chat?id=...] *)
Definition DELETE (env : Env) (id : option string) : World -> outcome Response * World :=
  handler
    (match given id with
     | None => return_ (response (text "Not Found") 404)
     | Some id =>
         match given (auth env) with
         | None => return_ (response (text "Unauthorized") 401)
         | Some userId =>
             jit_sync env userId ;;
             try_catch
               (chatToDelete <- await env at_getChatById
                                  (reading (fun db => getChatById db id userId)) ;;
                match chatToDelete with
                | None => return_ (response (text "Chat not found or unauthorized") 404)
                | Some _ =>
                    await env at_deleteChatById
                      (fun db =>
                         deleteChatById_statements
                           (storage_ok env at_deleteChatById_message)
                           (storage_ok env at_deleteChatById_chat) db id) ;;
                    return_ (response (text "Chat deleted") 200)
                end)
               (fun error =>
                  ret (response
                         (text "An error occurred while processing your request!") 500))
         end
     end).

(** [GET /api/vote?chatId=...] *)
Definition vote_GET (env : Env) (chatId : option string)
  : World -> outcome Response * World :=
  handler
    (match given chatId with
     | None => return_ (response (text "chatId is required") 400)
     | Some chatId =>
         match given (auth env) with
         | None => return_ (response (text "Unauthorized") 401)
         | Some userId =>
             chat <- await env at_getChatById
                       (reading (fun db => getChatById db chatId userId)) ;;
             match chat with
             | None => return_ (response (text "Chat not found") 404)
             | Some chat =>
                 if negb (String.eqb (Chat.userId chat) userId)
                 then return_ (response (text "Unauthorized") 401)
                 else
                   votes <- await env at_getVotesByChatId
                              (reading (fun db => getVotesByChatId db chatId)) ;;
                   return_ (response (json_votes votes) 200)
             end
         end
     end).

(** The events of a run, oldest first. *)
Definition trace (w : World) : list Event := rev (log w).

Definition start (db : DB) : World := mkWorld db false [].

(** ** actions.ts: server actions

    [authUserId] is the [userId] that [auth()] yields for the caller. *)

Definition deleteTrailingMessages (authUserId : option string) (db : DB)
  (id : string) : outcome unit * DB :=
  match given authUserId with
  | None => (Thrown "Unauthorized", db)
  | Some userId =>
      match getMessageById db id userId with
      | None =>
          (Thrown "TypeError: Cannot read properties of undefined (reading 'chatId')",
           db)
      | Some message =>
          deleteMessagesByChatIdAfterTimestamp db (Message.chatId message)
            (Message.createdAt message) userId
      end
  end.

Definition updateChatVisibility (authUserId : option string) (db : DB)
  (chatId : string) (visibility : Visibility) : outcome unit * DB :=
  match given authUserId with
  | None => (Thrown "Unauthorized", db)
  | Some userId =>
      (Returned tt, snd (updateChatVisiblityById db chatId visibility userId))
  end.

Definition getSuggestions (authUserId : option string) (db : DB)
  (documentId : string) : outcome (list Suggestion.t) :=
  match given authUserId with
  | None => Thrown "Unauthorized"
  | Some userId => Returned (getSuggestionsByDocumentId db documentId userId)
  end.

(** ** api/vote/route.ts: PATCH

    The handler yields a response, or [undefined] ([None]) when
    [voteMessage] throws: its [catch] logs and returns nothing. *)

Definition vote_type_of (type : string) : VoteType :=
  if String.eqb type "up" then up else down.

Definition vote_PATCH (authUserId : option string)
  (chatId messageId type : option string) (db : DB)
  : option Response * DB :=
  match given chatId, given messageId, given type with
  | Some chatId, Some messageId, Some type =>
      match given authUserId with
      | None => (Some (response (text "Unauthorized") 401), db)
      | Some userId =>
          match getChatById db chatId userId with
          | None => (Some (response (text "Chat not found") 404), db)
          | Some chat =>
              if negb (String.eqb (Chat.userId chat) userId)
              then (Some (response (text "Unauthorized") 401), db)
              else
                match voteMessage db chatId messageId (vote_type_of type) userId with
                | (Returned _, db') => (Some (response no_body 200), db')
                | (Thrown _, db') => (None, db')
                end
          end
      end
  | _, _, _ => (Some (response (text "messageId and type are required") 400), db)
  end.

(** ** api/suggestions/route.ts: GET *)

Inductive SuggestionsResponse :=
| suggestions_text (body : string) (status : Z)
| suggestions_json (suggestions : list Suggestion.t) (status : Z).

Definition suggestions_GET (authUserId : option string)
  (documentId : option string) (db : DB) : SuggestionsResponse :=
  match given documentId with
  | None => suggestions_text "Not Found" 404
  | Some documentId =>
      match given authUserId with
      | None => suggestions_text "Unauthorized" 401
      | Some userId =>
          let suggestions := getSuggestionsByDocumentId db documentId userId in
          match first suggestions with
          | None => suggestions_json [] 200
          | Some _ => suggestions_json suggestions 200
          end
      end
  end.

(** ** artifacts/text/server.ts: the text document handler

    The model's [fullStream] is the list of its deltas; [streamText] is
    the model, a function of the system prompt and the prompt. *)

Module Delta.
Record t := mk { type : string; textDelta : string }.
End Delta.

(** What [dataStream.writeData] receives. *)
Record DataPart := mkDataPart { part_type : string; part_content : string }.

(** [for await (const delta of fullStream) { ... }]: the draft and the
    parts written so far. *)
Definition drain (fullStream : list Delta.t) : string * list DataPart :=
  fold_left
    (fun (acc : string * list DataPart) (delta : Delta.t) =>
       let (draftContent, written) := acc in
       if String.eqb (Delta.type delta) "text-delta"
       then ((draftContent ++ Delta.textDelta delta)%string,
             written ++ [mkDataPart "text-delta" (Delta.textDelta delta)])
       else (draftContent, written))
    fullStream ("", []).



(** ** The chat page ([Page] with its [convertToUIMessages]) *)

Module PageMessage.
Record t := mk
  { id : string; parts : string; role : string; content : string;
    createdAt : Z; experimental_attachments : string }.
End PageMessage.

Definition convertToUIMessages (messages : list Message.t)
  : list PageMessage.t :=
  map (fun message =>
         PageMessage.mk (Message.id message) (Message.parts message)
           (Message.role message) "" (Message.createdAt message)
           (Message.attachments message))
    messages.

Inductive PageResult :=
| page_redirect (url : string)
| page_notFound
| page_chat (id : string) (initialMessages : list PageMessage.t)
    (selectedChatModel : string) (selectedVisibilityType : Visibility)
    (isReadonly : bool).

Definition Page (DEFAULT_CHAT_MODEL : string) (authUserId : option string)
  (chatModelFromCookie : option string) (db : DB) (chatId : string)
  : PageResult :=
  match given authUserId with
  | None => page_redirect ("/sign-in?redirect_url=/chat/" ++ chatId)%string
  | Some userId =>
      match getChatById db chatId userId with
      | None => page_notFound
      | Some chat =>
          let messagesFromDb := getMessagesByChatId db chatId in
          page_chat chatId (convertToUIMessages messagesFromDb)
            (match chatModelFromCookie with
             | None => DEFAULT_CHAT_MODEL
             | Some value => value
             end)
            (Chat.visibility chat)
            (negb (String.eqb userId (Chat.userId chat)))
      end
  end.

(** * Vocabulary of the statements *)

(** Newest first: keys never increase along the list. *)
Definition desc_by {A} (key : A -> Z) (a b : A) : Prop := key b <= key a.

(** The rows of [id] that the page is cut from: the owner's chats, and
    only those on the requested side of the cursor row when one is given. *)
Definition matching (db : DB) (id : string) (bound : Chat.t -> bool)
  : list Chat.t :=
  filter (fun c => bound c && Drizzle.eq (Chat.userId c) id) (chat db).

(** How the two cursor arguments determine the bound on [createdAt]. *)
Inductive page_bound (db : DB) (startingAfter endingBefore : option string)
  : (Chat.t -> bool) -> Prop :=
| bound_none :
    given startingAfter = None -> given endingBefore = None ->
    page_bound db startingAfter endingBefore (fun _ => true)
| bound_after cursor sel :
    given startingAfter = Some cursor ->
    selectedChat db cursor = Some sel ->
    page_bound db startingAfter endingBefore
      (fun c => Chat.createdAt sel <? Chat.createdAt c)
| bound_before cursor sel :
    given startingAfter = None -> given endingBefore = Some cursor ->
    selectedChat db cursor = Some sel ->
    page_bound db startingAfter endingBefore
      (fun c => Chat.createdAt c <? Chat.createdAt sel).

(** The cursor that [getChatsByUserId] acts on: [startingAfter] when it
    is truthy, else [endingBefore] when that is. *)
Definition effective_cursor (startingAfter endingBefore : option string)
  : option string :=
  match given startingAfter with
  | Some cursor => Some cursor
  | None => given endingBefore
  end.

(** The error messages that count as an Unauthorized failure. *)
Definition is_unauthorized (msg : string) : bool :=
  String.prefix "Unauthorized" msg.

Definition failed_unauthorized {A} (r : outcome A) : bool :=
  match r with
  | Thrown msg => is_unauthorized msg
  | Returned _ => false
  end.

(** The vote rows of one (chatId, messageId) pair. *)
Definition votes_for (db : DB) (chatId messageId : string) : list Vote.t :=
  filter (fun v => String.eqb (Vote.chatId v) chatId
                   && String.eqb (Vote.messageId v) messageId) (vote db).

(** The rows selected for deletion and their ids ([messageIds]). *)
Definition after_timestamp (chatId : string) (timestamp : Z) (m : Message.t)
  : bool :=
  String.eqb (Message.chatId m) chatId && (timestamp <=? Message.createdAt m).

Definition messageIds (db : DB) (chatId : string) (timestamp : Z)
  : list string :=
  map Message.id (filter (after_timestamp chatId timestamp) (message db)).

(** In a trace, every occurrence of [b] comes after an occurrence of [a]. *)
Definition precedes (a b : Event) (tr : list Event) : Prop :=
  forall l1 l2, tr = l1 ++ b :: l2 -> In a l1.

Definition Site_eq_dec (x y : Site) : {x = y} + {x <> y}.
Proof. decide equality. Defined.

Definition Event_eq_dec (x y : Event) : {x = y} + {x <> y}.
Proof.
  decide equality; try apply Site_eq_dec.
  apply (list_eq_dec string_dec).
Defined.

(** [precedes], decided along the trace; [seen] tells whether [a] has
    occurred so far. *)
Fixpoint precedesb (a b : Event) (seen : bool) (tr : list Event) : bool :=
  match tr with
  | [] => true
  | e :: rest =>
      if Event_eq_dec e b then seen && precedesb a b seen rest
      else precedesb a b (if Event_eq_dec e a then true else seen) rest
  end.

Definition occurs (e : Event) (tr : list Event) : bool :=
  existsb (fun x => if Event_eq_dec x e then true else false) tr.

(** The order of one run, as a boolean. *)
Definition ordered (tr : list Event) : bool :=
  precedesb (resolved at_saveMessages_inbound) streamText_begins false tr
  && precedesb streamText_begins stream_finished false tr
  && precedesb stream_finished onFinish_entered false tr
  && precedesb onFinish_entered (called at_saveMessages_outbound) false tr
  && precedesb stream_finished (called at_saveMessages_outbound) false tr
  && precedesb (called at_saveMessages_inbound) (called at_saveMessages_outbound)
       false tr.

(** Oldest first: keys never decrease along the list. *)
Definition asc_by {A} (key : A -> Z) (a b : A) : Prop := key a <= key b.

(** The row that [updateChatVisiblityById] writes for [c]. *)
Definition with_visibility (visibility : Visibility) (c : Chat.t) : Chat.t :=
  Chat.mk (Chat.id c) (Chat.createdAt c) (Chat.userId c) (Chat.title c)
    visibility.

(** Every suggestion refers to a stored revision of its document. *)
Definition suggestion_fkey (db : DB) : Prop :=
  forall s, In s (suggestion db) ->
    exists d, In d (document db) /\
              Document.id d = Suggestion.documentId s /\
              Document.createdAt d = Suggestion.documentCreatedAt s.

(** Referential integrity between chats, messages and votes. *)
Definition message_chat_fkey (db : DB) : Prop :=
  forall m, In m (message db) ->
    exists c, In c (chat db) /\ Chat.id c = Message.chatId m.

Definition vote_chat_fkey (db : DB) : Prop :=
  forall v, In v (vote db) ->
    exists c, In c (chat db) /\ Chat.id c = Vote.chatId v.

Definition vote_message_fkey (db : DB) : Prop :=
  forall v, In v (vote db) ->
    exists m, In m (message db) /\ Message.id m = Vote.messageId v.

(** Every vote is filed under the chat of the message it is on. *)
Definition votes_in_message_chat (db : DB) : Prop :=
  forall v m, In v (vote db) -> In m (message db) ->
    Message.id m = Vote.messageId v -> Message.chatId m = Vote.chatId v.


(** [l'] is [l] with at most [n] rows appended. *)
Definition grows {A} (n : nat) (l l' : list A) : Prop :=
  exists added, l' = l ++ added /\ (List.length added <= n)%nat.

(** The database without chat [id], its messages and its votes. *)
Definition chat_removed (db : DB) (id : string) : DB :=
  mkDB (user db)
    (filter (fun c => negb (String.eqb (Chat.id c) id)) (chat db))
    (filter (fun m => negb (String.eqb (Message.chatId m) id)) (message db))
    (filter (fun v => negb (String.eqb (Vote.chatId v) id)) (vote db))
    (document db) (suggestion db).

(** The database without the votes filed under chat [id]. *)
Definition votes_removed (db : DB) (id : string) : DB :=
  set_vote db (filter (fun v => negb (String.eqb (Vote.chatId v) id)) (vote db)).

(** The database without the messages and the votes of chat [id]. *)
Definition messages_removed (db : DB) (id : string) : DB :=
  set_message (votes_removed db id)
    (filter (fun m => negb (String.eqb (Message.chatId m) id)) (message db)).

(** A vote filed under another chat is on one of the messages of chat
    [id]. *)
Definition cascade_blocked (db : DB) (id : string) : bool :=
  existsb
    (fun m => String.eqb (Message.chatId m) id
              && existsb
                   (fun v => negb (String.eqb (Vote.chatId v) id)
                             && String.eqb (Vote.messageId v) (Message.id m))
                   (vote db))
    (message db).

(** * Sample databases and environments *)

(** Three chats of one user; the oldest serves as cursor below. *)
Definition db_three_chats : DB :=
  mkDB [] [Chat.mk "c1" 10 "alice" "one" private;
           Chat.mk "c2" 20 "alice" "two" private;
           Chat.mk "c3" 30 "alice" "three" private] [] [] [] [].

(** Alice owns chat [a1] (two messages, one vote), Bob owns chat [b1]. *)
Definition chat_a1 : Chat.t := Chat.mk "a1" 100 "alice" "Alice's chat" private.
Definition chat_b1 : Chat.t := Chat.mk "b1" 200 "bob" "Bob's chat" private.
Definition msg_a1_1 : Message.t := Message.mk "m1" "a1" "user" "hi" "" 110.
Definition msg_a1_2 : Message.t :=
  Message.mk "m2" "a1" "assistant" "hello" "" 120.
Definition msg_b1_1 : Message.t := Message.mk "m3" "b1" "user" "hey" "" 210.

Definition db_two_owners : DB :=
  mkDB [User.mk "alice" "alice@example.org" None;
        User.mk "bob" "bob@example.org" None]
       [chat_a1; chat_b1]
       [msg_a1_1; msg_a1_2; msg_b1_1]
       [Vote.mk "a1" "m2" true; Vote.mk "b1" "m3" false]
       [] [].

(** A vote that Alice cast from her own chat [a1] on message [m3] of
    Bob's chat [b1]; the ownership check of [voteMessage] passes for her
    and no vote on [m3] exists yet, so the row (a1, m3) is inserted. *)
Definition db_before_votes : DB :=
  mkDB [] [chat_a1; chat_b1] [msg_b1_1] [] [] [].

Definition db_foreign_vote : DB :=
  mkDB [] [chat_a1; chat_b1] [msg_b1_1] [Vote.mk "a1" "m3" true] [] [].

Definition doc_d1_v1 : Document.t :=
  Document.mk "d1" 10 "Essay" "first draft" "text" "alice".
Definition doc_d1_v2 : Document.t :=
  Document.mk "d1" 20 "Essay" "second draft" "text" "alice".
Definition sugg_d1_v2 : Suggestion.t :=
  Suggestion.mk "s1" "d1" 20 "draft" "version" "wording" false "alice" 25.

Definition db_documents : DB :=
  mkDB [] [] [] [] [doc_d1_v1; doc_d1_v2] [sugg_d1_v2].

(** [userId] is signed in and every external call succeeds: no remote
    tool process is configured and the model finishes with one assistant
    message. *)
Definition env_as (userId : string) : Env :=
  mkEnv (Some userId) (Some userId) (fun _ => true)
    (fun _ => Returned (Some "alice@example.org"))
    (fun _ => Returned "Greeting")
    (fun s => match s with at_saveMessages_outbound => 2000 | _ => 1000 end)
    (fun msgs => last (map Some msgs) None)
    (fun msgs => last (map (fun m => Some (ResponseMessage.id m)) msgs) None)
    (fun msgs resp =>
       msgs ++ map (fun m => UIMessage.mk (ResponseMessage.id m)
                               (ResponseMessage.role m) "text" None) resp)
    None None false false ["Hel"; "lo"]
    (finished [ResponseMessage.mk "r1" "assistant"]).

Definition env_happy : Env := env_as "alice".

Definition request_hello : Request :=
  mkRequest "c9" [UIMessage.mk "u1" "user" "hello" None] "chat-model".


(** Alice is signed in and storage fails at the third statement of
    [deleteChatById] only. *)
Definition env_chat_delete_fails : Env :=
  mkEnv (Some "alice") (Some "alice")
    (fun s => match s with at_deleteChatById_chat => false | _ => true end)
    (fun _ => Returned None) (fun _ => Returned "") (fun _ => 0)
    (fun _ => None) (fun _ => None) (fun msgs _ => msgs)
    None None false false [] errored.

(** * Properties *)

(** ** Generic facts about the query builder *)

Lemma first_firstn_1 {A} (rows : list A) : first (firstn 1 rows) = first rows.
Proof. destruct rows; reflexivity. Qed.

Lemma first_select_none {A} (p : A -> bool) rows :
  first (Drizzle.select_where p rows) = None <->
  forall r, In r rows -> p r = false.
Proof.
  unfold Drizzle.select_where. induction rows as [|x rows IH]; simpl.
  - split; [intros _ r [] | reflexivity].
  - destruct (p x) eqn:Hx; simpl.
    + split; [discriminate|].
      intros H. specialize (H x (or_introl Logic.eq_refl)). congruence.
    + rewrite IH. split.
      * intros H r [<-|Hr]; auto.
      * intros H r Hr. apply H. now right.
Qed.

Lemma first_select_some {A} (p : A -> bool) rows r :
  first (Drizzle.select_where p rows) = Some r -> In r rows /\ p r = true.
Proof.
  unfold Drizzle.select_where, first. intros H.
  assert (Hin : In r (filter p rows)).
  { destruct (filter p rows); simpl in H; [discriminate|].
    injection H as ->. now left. }
  now apply filter_In in Hin.
Qed.

Lemma filter_none {A} (p : A -> bool) rows :
  (forall r, In r rows -> p r = false) -> filter p rows = [].
Proof.
  induction rows as [|x rows IH]; simpl; [reflexivity|].
  intros H. rewrite (H x (or_introl Logic.eq_refl)). apply IH.
  intros r Hr. apply H. now right.
Qed.

Lemma NoDup_map_inj {A B} (f : A -> B) (l : list A) x y :
  NoDup (map f l) -> In x l -> In y l -> f x = f y -> x = y.
Proof.
  induction l as [|a l IH]; simpl; [easy|].
  intros Hnd Hx Hy Hf. inversion Hnd as [|? ? Hnotin Hnd']; subst.
  destruct Hx as [->|Hx], Hy as [->|Hy]; auto.
  - exfalso. apply Hnotin. rewrite Hf. now apply in_map.
  - exfalso. apply Hnotin. rewrite <- Hf. now apply in_map.
Qed.

(** ** Chats: lookup by id and owner *)

Lemma getChatById_some db id userId c :
  getChatById db id userId = Some c ->
  In c (chat db) /\ Chat.id c = id /\ Chat.userId c = userId.
Proof.
  unfold getChatById. rewrite first_firstn_1. intros H.
  apply first_select_some in H. destruct H as [Hin Hp].
  apply andb_true_iff in Hp. destruct Hp as [H1 H2].
  apply String.eqb_eq in H1, H2. auto.
Qed.

Lemma getChatById_none db id userId :
  getChatById db id userId = None <->
  forall c, In c (chat db) -> Chat.id c = id -> Chat.userId c <> userId.
Proof.
  unfold getChatById. rewrite first_firstn_1, first_select_none. split.
  - intros H c Hin Hid Hu. specialize (H c Hin).
    unfold Drizzle.eq in H. rewrite Hid, Hu, !String.eqb_refl in H. discriminate.
  - intros H c Hin. unfold Drizzle.eq.
    destruct (String.eqb_spec (Chat.id c) id) as [Hid|]; [|reflexivity].
    destruct (String.eqb_spec (Chat.userId c) userId) as [Hu|]; [|reflexivity].
    exfalso. exact (H c Hin Hid Hu).
Qed.

Lemma getChatById_owner db c :
  chat_pkey db -> In c (chat db) ->
  getChatById db (Chat.id c) (Chat.userId c) = Some c.
Proof.
  intros Hpk Hin.
  destruct (getChatById db (Chat.id c) (Chat.userId c)) as [c'|] eqn:E.
  - apply getChatById_some in E. destruct E as (Hin' & Hid & _).
    f_equal. exact (NoDup_map_inj Chat.id _ c' c Hpk Hin' Hin Hid).
  - exfalso. rewrite getChatById_none in E. exact (E c Hin Logic.eq_refl Logic.eq_refl).
Qed.

(** C1. For a stored chat [c] (chat ids being the relation's primary key)
    and a [userId] other than its owner, [getChatById] yields no record,
    exactly as it does for an id that no chat has; a record is returned
    only to the stored owner, who does get the chat. *)
Theorem getChatById_owner_only (db : DB) (c : Chat.t) (userId : string)
  (Hpk : chat_pkey db) (Hc : In c (chat db)) :
  (userId <> Chat.userId c ->
     getChatById db (Chat.id c) userId = None /\
     forall absent,
       (forall c', In c' (chat db) -> Chat.id c' <> absent) ->
       getChatById db absent userId = getChatById db (Chat.id c) userId) /\
  (forall r, getChatById db (Chat.id c) userId = Some r ->
     r = c /\ userId = Chat.userId c) /\
  getChatById db (Chat.id c) (Chat.userId c) = Some c.
Proof.
  assert (Hsome : forall r, getChatById db (Chat.id c) userId = Some r ->
                            r = c /\ userId = Chat.userId c).
  { intros r Hr. apply getChatById_some in Hr. destruct Hr as (Hin & Hid & Hu).
    assert (r = c) by exact (NoDup_map_inj Chat.id _ r c Hpk Hin Hc Hid).
    subst r. auto. }
  split; [|split].
  - intros Hneq.
    assert (Hnone : getChatById db (Chat.id c) userId = None).
    { destruct (getChatById db (Chat.id c) userId) as [r|] eqn:E; [|reflexivity].
      destruct (Hsome r Logic.eq_refl) as [_ Hu]. contradiction. }
    split; [exact Hnone|].
    intros absent Habs. rewrite Hnone. apply getChatById_none.
    intros c' Hin Hid. exfalso. exact (Habs c' Hin Hid).
  - exact Hsome.
  - now apply getChatById_owner.
Qed.

(** ** Ordering and limits *)

Section OrderBy.
Context {A : Type} (key : A -> Z).

Lemma insert_desc_perm x rows :
  Permutation (x :: rows) (Drizzle.insert_desc key x rows).
Proof.
  induction rows as [|y rest IH]; simpl; [reflexivity|].
  destruct (key x <? key y); [|reflexivity].
  rewrite perm_swap. now apply perm_skip.
Qed.

Lemma orderBy_desc_perm rows :
  Permutation rows (Drizzle.orderBy_desc key rows).
Proof.
  induction rows as [|x rows IH]; simpl; [reflexivity|].
  rewrite <- insert_desc_perm. now apply perm_skip.
Qed.

Lemma orderBy_desc_length rows :
  List.length (Drizzle.orderBy_desc key rows) = List.length rows.
Proof. symmetry. apply Permutation_length, orderBy_desc_perm. Qed.

Lemma orderBy_desc_In rows r :
  In r (Drizzle.orderBy_desc key rows) <-> In r rows.
Proof.
  split; apply Permutation_in;
    [symmetry|]; apply orderBy_desc_perm.
Qed.

Lemma insert_desc_hd x y rows :
  key y >= key x -> HdRel (desc_by key) y rows ->
  HdRel (desc_by key) y (Drizzle.insert_desc key x rows).
Proof.
  intros Hxy Hhd. destruct rows as [|z rest]; simpl.
  - constructor. unfold desc_by. lia.
  - destruct (key x <? key z).
    + constructor. now inversion Hhd.
    + constructor. unfold desc_by. lia.
Qed.

Lemma insert_desc_sorted x rows :
  Sorted (desc_by key) rows -> Sorted (desc_by key) (Drizzle.insert_desc key x rows).
Proof.
  induction 1 as [|y rest Hs IH Hhd]; simpl.
  - repeat constructor.
  - destruct (Z.ltb_spec (key x) (key y)).
    + constructor; [exact IH|]. apply insert_desc_hd; [lia|exact Hhd].
    + constructor; [now constructor|]. constructor. unfold desc_by. lia.
Qed.

Lemma orderBy_desc_sorted rows :
  Sorted (desc_by key) (Drizzle.orderBy_desc key rows).
Proof.
  induction rows as [|x rows IH]; simpl; [constructor|].
  now apply insert_desc_sorted.
Qed.

Lemma firstn_sorted n rows :
  Sorted (desc_by key) rows -> Sorted (desc_by key) (firstn n rows).
Proof.
  intros Hs. revert n. induction Hs as [|y rest Hs IH Hhd]; intros [|n]; simpl;
    try constructor.
  - apply IH.
  - destruct rest as [|z rest']; destruct n; simpl; constructor.
    now inversion Hhd.
Qed.
End OrderBy.

Lemma slice0_firstn {A} (rows : list A) (n : Z) :
  0 <= n -> slice0 rows n = firstn (Z.to_nat n) rows.
Proof.
  intros Hn. unfold slice0. destruct (Z.ltb_spec n 0); [lia|reflexivity].
Qed.

Lemma limit_returns {A} (rows : list A) (n : Z) :
  0 <= n -> Drizzle.limit n rows = Returned (firstn (Z.to_nat n) rows).
Proof.
  intros Hn. unfold Drizzle.limit. destruct (Z.ltb_spec n 0); [lia|reflexivity].
Qed.

(** ** Cursor pagination *)

Lemma query_bound db id n bound :
  0 <= n ->
  query db id n (Some bound)
  = Returned (firstn (Z.to_nat n)
                (Drizzle.orderBy_desc Chat.createdAt (matching db id bound))).
Proof. intros Hn. unfold query. now rewrite limit_returns. Qed.

Lemma query_unbound db id n :
  0 <= n ->
  query db id n None
  = Returned (firstn (Z.to_nat n)
                (Drizzle.orderBy_desc Chat.createdAt
                   (matching db id (fun _ => true)))).
Proof. intros Hn. unfold query. now rewrite limit_returns. Qed.

Lemma filteredChats_bound db id N sa eb bound :
  0 <= N -> page_bound db sa eb bound ->
  filteredChats db id N sa eb
  = Returned (firstn (Z.to_nat (N + 1))
                (Drizzle.orderBy_desc Chat.createdAt (matching db id bound))).
Proof.
  intros HN Hb. unfold filteredChats.
  destruct Hb as [Hsa Heb | cursor sel Hsa Hsel | cursor sel Hsa Heb Hsel];
    rewrite Hsa; try rewrite Heb; try rewrite Hsel.
  - apply query_unbound. lia.
  - apply query_bound. lia.
  - apply query_bound. lia.
Qed.

(** C3. For a limit [N >= 0] and cursor arguments that resolve to the
    bound [bound], [getChatsByUserId] returns: it fetches the first [N+1]
    of the requester's matching chats in descending [createdAt] order,
    hands back at most [N] of them (the first [N] fetched), and sets
    [hasMore] exactly when more than [N] chats match. *)
Theorem getChatsByUserId_page (db : DB) (id : string) (N : Z)
  (startingAfter endingBefore : option string) (bound : Chat.t -> bool)
  (HN : 0 <= N) (Hb : page_bound db startingAfter endingBefore bound) :
  exists rows page,
    filteredChats db id N startingAfter endingBefore = Returned rows /\
    getChatsByUserId db id N startingAfter endingBefore = Returned page /\
    rows = firstn (Z.to_nat (N + 1))
             (Drizzle.orderBy_desc Chat.createdAt (matching db id bound)) /\
    Z.of_nat (List.length rows) <= N + 1 /\
    Sorted (desc_by Chat.createdAt) rows /\
    chats page = firstn (Z.to_nat N) rows /\
    Z.of_nat (List.length (chats page)) <= N /\
    (hasMore page = true <-> N < Z.of_nat (List.length (matching db id bound))).
Proof.
  pose proof (filteredChats_bound db id N _ _ bound HN Hb) as Hrows.
  set (sorted := Drizzle.orderBy_desc Chat.createdAt (matching db id bound)) in *.
  set (rows := firstn (Z.to_nat (N + 1)) sorted) in *.
  assert (Hlen : List.length rows
                 = Nat.min (Z.to_nat (N + 1)) (List.length (matching db id bound))).
  { unfold rows. rewrite length_firstn. unfold sorted.
    now rewrite orderBy_desc_length. }
  exists rows.
  exists (mkChatPage
            (if N <? Z.of_nat (List.length rows) then slice0 rows N else rows)
            (N <? Z.of_nat (List.length rows))).
  split; [exact Hrows|]. split.
  { unfold getChatsByUserId. rewrite Hrows. reflexivity. }
  split; [reflexivity|]. split; [lia|]. split.
  { apply firstn_sorted, orderBy_desc_sorted. }
  simpl. split; [|split].
  - destruct (Z.ltb_spec N (Z.of_nat (List.length rows))).
    + now apply slice0_firstn.
    + symmetry. apply firstn_all2. lia.
  - destruct (Z.ltb_spec N (Z.of_nat (List.length rows))).
    + rewrite slice0_firstn by exact HN. rewrite length_firstn. lia.
    + lia.
  - rewrite Z.ltb_lt. lia.
Qed.

Lemma getChatsByUserId_page_witness :
  let bound := fun c => 10 <? Chat.createdAt c in
  exists rows page,
    filteredChats db_three_chats "alice" 1 (Some "c1") None = Returned rows /\
    getChatsByUserId db_three_chats "alice" 1 (Some "c1") None = Returned page /\
    rows = firstn (Z.to_nat (1 + 1))
             (Drizzle.orderBy_desc Chat.createdAt
                (matching db_three_chats "alice" bound)) /\
    Z.of_nat (List.length rows) <= 1 + 1 /\
    Sorted (desc_by Chat.createdAt) rows /\
    chats page = firstn (Z.to_nat 1) rows /\
    Z.of_nat (List.length (chats page)) <= 1 /\
    (hasMore page = true <->
     1 < Z.of_nat (List.length (matching db_three_chats "alice" bound))).
Proof.
  apply (getChatsByUserId_page db_three_chats "alice" 1 (Some "c1") None).
  - lia.
  - apply (bound_after db_three_chats (Some "c1") None "c1"
             (Chat.mk "c1" 10 "alice" "one" private)); reflexivity.
Defined.

Example getChatsByUserId_first_page :
  getChatsByUserId db_three_chats "alice" 1 (Some "c1") None
  = Returned (mkChatPage [Chat.mk "c3" 30 "alice" "three" private] true).
Proof. reflexivity. Qed.

Example getChatsByUserId_last_page :
  getChatsByUserId db_three_chats "alice" 2 None (Some "c3")
  = Returned (mkChatPage [Chat.mk "c2" 20 "alice" "two" private;
                          Chat.mk "c1" 10 "alice" "one" private] false).
Proof. reflexivity. Qed.

(** ** The pagination cursor *)

Lemma selectedChat_none db cursor :
  selectedChat db cursor = None <->
  forall c, In c (chat db) -> Chat.id c <> cursor.
Proof.
  unfold selectedChat. rewrite first_firstn_1, first_select_none. split.
  - intros H c Hin Hid. specialize (H c Hin). unfold Drizzle.eq in H.
    rewrite Hid, String.eqb_refl in H. discriminate.
  - intros H c Hin. unfold Drizzle.eq.
    destruct (String.eqb_spec (Chat.id c) cursor) as [Hid|]; [|reflexivity].
    exfalso. exact (H c Hin Hid).
Qed.

Lemma selectedChat_row db c :
  chat_pkey db -> In c (chat db) -> selectedChat db (Chat.id c) = Some c.
Proof.
  intros Hpk Hin. destruct (selectedChat db (Chat.id c)) as [c'|] eqn:E.
  - unfold selectedChat in E. rewrite first_firstn_1 in E.
    apply first_select_some in E. destruct E as [Hin' Hid].
    apply String.eqb_eq in Hid. f_equal.
    exact (NoDup_map_inj Chat.id _ c' c Hpk Hin' Hin Hid).
  - exfalso. rewrite selectedChat_none in E. exact (E c Hin Logic.eq_refl).
Qed.

Lemma query_returns db id n cond :
  0 <= n -> exists rows, query db id n cond = Returned rows.
Proof.
  intros Hn. destruct cond as [bound|].
  - eexists. now apply query_bound.
  - eexists. now apply query_unbound.
Qed.

Lemma effective_cursor_cases sa eb cursor :
  effective_cursor sa eb = Some cursor ->
  (given sa = Some cursor /\ truthy sa = true) \/
  (given sa = None /\ truthy sa = false /\ given eb = Some cursor).
Proof.
  unfold effective_cursor, given. destruct (truthy sa) eqn:E.
  - destruct sa as [v|]; [|discriminate E]. intros [= <-]. now left.
  - intros H. right. auto.
Qed.

(** C10. The cursor of [getChatsByUserId] is looked up by chat id alone:
    any chat row with that id, whoever owns it, resolves the cursor and
    its [createdAt] bounds the page ([createdAt] greater for
    [startingAfter], smaller for [endingBefore]); the call throws
    "Chat with id ... not found" exactly when no chat row has that id. *)
Theorem getChatsByUserId_cursor_by_id_alone (db : DB) (id : string) (N : Z)
  (startingAfter endingBefore : option string) (cursor : string)
  (HN : 0 <= N) (Hpk : chat_pkey db)
  (Hcur : effective_cursor startingAfter endingBefore = Some cursor) :
  (forall c, In c (chat db) -> Chat.id c = cursor ->
     filteredChats db id N startingAfter endingBefore
     = query db id (N + 1)
         (Some (if truthy startingAfter
                then fun r => Drizzle.gt (Chat.createdAt r) (Chat.createdAt c)
                else fun r => Drizzle.lt (Chat.createdAt r) (Chat.createdAt c)))
     /\ exists page,
          getChatsByUserId db id N startingAfter endingBefore = Returned page) /\
  ((exists msg,
      getChatsByUserId db id N startingAfter endingBefore = Thrown msg)
   <-> forall c, In c (chat db) -> Chat.id c <> cursor) /\
  ((forall c, In c (chat db) -> Chat.id c <> cursor) ->
   getChatsByUserId db id N startingAfter endingBefore
   = Thrown ("Chat with id " ++ cursor ++ " not found")%string).
Proof.
  assert (Hresolved : forall c, In c (chat db) -> Chat.id c = cursor ->
     filteredChats db id N startingAfter endingBefore
     = query db id (N + 1)
         (Some (if truthy startingAfter
                then fun r => Drizzle.gt (Chat.createdAt r) (Chat.createdAt c)
                else fun r => Drizzle.lt (Chat.createdAt r) (Chat.createdAt c)))).
  { intros c Hin Hid. subst cursor.
    pose proof (selectedChat_row db c Hpk Hin) as Hsel.
    unfold filteredChats.
    destruct (effective_cursor_cases _ _ _ Hcur) as [[Hsa ->]|(Hsa & -> & Heb)];
      rewrite Hsa; try rewrite Heb; now rewrite Hsel. }
  assert (Hunresolved : (forall c, In c (chat db) -> Chat.id c <> cursor) ->
     getChatsByUserId db id N startingAfter endingBefore
     = Thrown ("Chat with id " ++ cursor ++ " not found")%string).
  { intros Hno. apply selectedChat_none in Hno.
    unfold getChatsByUserId, filteredChats.
    destruct (effective_cursor_cases _ _ _ Hcur) as [[Hsa _]|(Hsa & _ & Heb)];
      rewrite Hsa; try rewrite Heb; now rewrite Hno. }
  assert (Hpage : forall c, In c (chat db) -> Chat.id c = cursor ->
     exists page,
       getChatsByUserId db id N startingAfter endingBefore = Returned page).
  { intros c Hin Hid. unfold getChatsByUserId.
    rewrite (Hresolved c Hin Hid).
    destruct (query_returns db id (N + 1)
                (Some (if truthy startingAfter
                       then fun r => Drizzle.gt (Chat.createdAt r) (Chat.createdAt c)
                       else fun r => Drizzle.lt (Chat.createdAt r) (Chat.createdAt c))))
      as [rows ->]; [lia|].
    simpl. eauto. }
  split; [|split].
  - intros c Hin Hid. split; [now apply Hresolved | now apply (Hpage c)].
  - split.
    + intros [msg Hthrown] c Hin Hid.
      destruct (Hpage c Hin Hid) as [page Hret]. congruence.
    + intros Hno. eexists. now apply Hunresolved.
  - exact Hunresolved.
Qed.

(** ** Concrete databases used by the witnesses and counterexamples *)

Ltac solve_pkey :=
  unfold chat_pkey, message_pkey; simpl;
  repeat (constructor; [simpl; intuition discriminate|]); constructor.

Lemma db_two_owners_chat_pkey : chat_pkey db_two_owners.
Proof. solve_pkey. Qed.

Lemma db_two_owners_message_pkey : message_pkey db_two_owners.
Proof. solve_pkey. Qed.

Lemma getChatById_owner_only_witness :
  getChatById db_two_owners "a1" "bob" = None /\
  getChatById db_two_owners "a1" "alice" = Some chat_a1.
Proof.
  assert (Hpk : chat_pkey db_two_owners) by solve_pkey.
  assert (Hin : In chat_a1 (chat db_two_owners)) by (simpl; auto).
  destruct (getChatById_owner_only db_two_owners chat_a1 "bob" Hpk Hin)
    as (Hother & _ & Howner).
  split; [|exact Howner].
  assert (Hneq : "bob" <> Chat.userId chat_a1) by discriminate.
  exact (proj1 (Hother Hneq)).
Defined.

Lemma getChatsByUserId_cursor_by_id_alone_witness :
  exists page,
    getChatsByUserId db_two_owners "alice" 10 (Some "b1") None = Returned page.
Proof.
  assert (HN : 0 <= 10) by lia.
  assert (Hpk : chat_pkey db_two_owners) by solve_pkey.
  destruct (getChatsByUserId_cursor_by_id_alone
              db_two_owners "alice" 10 (Some "b1") None "b1" HN Hpk Logic.eq_refl)
    as (Hres & _).
  apply (Hres chat_b1); simpl; auto.
Defined.

Example cursor_of_another_owner :
  getChatsByUserId db_two_owners "alice" 10 None (Some "b1")
  = Returned (mkChatPage [chat_a1] false).
Proof. reflexivity. Qed.

Example cursor_unknown :
  getChatsByUserId db_two_owners "alice" 10 (Some "zz") None
  = Thrown "Chat with id zz not found".
Proof. reflexivity. Qed.

Example cursor_empty_string_ignored :
  getChatsByUserId db_two_owners "alice" 10 (Some "") None
  = Returned (mkChatPage [chat_a1] false).
Proof. reflexivity. Qed.

(** ** Voting: the ownership check *)

Lemma getChatById_not_owner db c userId :
  chat_pkey db -> In c (chat db) -> userId <> Chat.userId c ->
  getChatById db (Chat.id c) userId = None.
Proof.
  intros Hpk Hin Hneq. apply getChatById_none. intros c' Hin' Hid Hu.
  assert (c' = c) by exact (NoDup_map_inj Chat.id _ c' c Hpk Hin' Hin Hid).
  subst c'. congruence.
Qed.

Lemma voteMessage_verified db chatId messageId type userId c :
  getChatById db chatId userId = Some c ->
  voteMessage db chatId messageId type userId
  = match first (Drizzle.select_where
                   (fun v => Drizzle.eq (Vote.messageId v) messageId) (vote db)) with
    | Some _ =>
        (Returned tt,
         set_vote db
           (Drizzle.update_where
              (fun v => Drizzle.eq (Vote.messageId v) messageId
                        && Drizzle.eq (Vote.chatId v) chatId)
              (fun v => Vote.mk (Vote.chatId v) (Vote.messageId v) (is_up type))
              (vote db)))
    | None =>
        if message_exists db messageId
        then
          (Returned tt,
           set_vote db
             (Drizzle.insert [Vote.mk chatId messageId (is_up type)] (vote db)))
        else (Thrown foreign_key_violation, db)
    end.
Proof.
  intros Hc. unfold voteMessage. rewrite Hc.
  apply getChatById_some in Hc. destruct Hc as (_ & _ & Hu).
  rewrite Hu, String.eqb_refl. reflexivity.
Qed.

(** C5, as the code has it.  For a chat whose stored owner is not
    [userId], [voteMessage] stops at the ownership lookup: it throws
    "Chat not found: <chatId>", the same error as for a chat that does
    not exist, and the database (votes included) is left as it was.  The
    Unauthorized branch is never taken, on any input. *)
Theorem voteMessage_non_owner (db : DB) (c : Chat.t)
  (messageId : string) (type : VoteType) (userId : string)
  (Hpk : chat_pkey db) (Hc : In c (chat db)) (Hneq : userId <> Chat.userId c) :
  voteMessage db (Chat.id c) messageId type userId
  = (Thrown ("Chat not found: " ++ Chat.id c)%string, db) /\
  (forall db0 chatId0 messageId0 type0 userId0,
     failed_unauthorized
       (fst (voteMessage db0 chatId0 messageId0 type0 userId0)) = false).
Proof.
  split.
  - unfold voteMessage. now rewrite (getChatById_not_owner db c userId).
  - intros db0 chatId0 messageId0 type0 userId0.
    destruct (getChatById db0 chatId0 userId0) as [c0|] eqn:E.
    + rewrite (voteMessage_verified _ _ _ _ _ _ E).
      destruct (first _); [|destruct (message_exists db0 messageId0)];
        reflexivity.
    + unfold voteMessage. rewrite E. reflexivity.
Qed.

Lemma voteMessage_non_owner_witness :
  voteMessage db_two_owners "a1" "m2" down "bob"
  = (Thrown "Chat not found: a1", db_two_owners).
Proof.
  apply (voteMessage_non_owner db_two_owners chat_a1 "m2" down "bob").
  - solve_pkey.
  - simpl. auto.
  - discriminate.
Defined.

(** C5 as stated fails: Bob voting in Alice's chat gets "Chat not found",
    which is not an Unauthorized error. *)
Lemma voteMessage_non_owner_not_unauthorized :
  In chat_a1 (chat db_two_owners) /\ Chat.userId chat_a1 <> "bob" /\
  fst (voteMessage db_two_owners (Chat.id chat_a1) "m2" down "bob")
  = Thrown "Chat not found: a1" /\
  failed_unauthorized
    (fst (voteMessage db_two_owners (Chat.id chat_a1) "m2" down "bob")) = false.
Proof.
  repeat split.
  - simpl. auto.
  - discriminate.
Qed.

(** ** Voting: upsert *)

Lemma votes_for_update db chatId messageId b :
  votes_for
    (set_vote db
       (Drizzle.update_where
          (fun v => Drizzle.eq (Vote.messageId v) messageId
                    && Drizzle.eq (Vote.chatId v) chatId)
          (fun v => Vote.mk (Vote.chatId v) (Vote.messageId v) b)
          (vote db)))
    chatId messageId
  = map (fun _ => Vote.mk chatId messageId b) (votes_for db chatId messageId).
Proof.
  unfold votes_for, Drizzle.update_where, Drizzle.eq. simpl.
  induction (vote db) as [|v rows IH]; simpl; [reflexivity|].
  destruct (String.eqb_spec (Vote.messageId v) messageId) as [Hm|Hm];
    destruct (String.eqb_spec (Vote.chatId v) chatId) as [Hc|Hc]; simpl.
  - rewrite Hc, Hm, !String.eqb_refl. simpl. now rewrite IH.
  - destruct (String.eqb_spec (Vote.chatId v) chatId); [contradiction|].
    simpl. exact IH.
  - destruct (String.eqb_spec (Vote.chatId v) chatId); [|contradiction].
    destruct (String.eqb_spec (Vote.messageId v) messageId); [contradiction|].
    simpl. exact IH.
  - destruct (String.eqb_spec (Vote.chatId v) chatId); [contradiction|].
    simpl. exact IH.
Qed.

(** Where the upsert works: the caller owns the chat, the message is
    stored, the pair has at most one row (the primary key of the vote
    relation) and no row of another chat carries the message id.  Then
    one vote row is left for the pair, holding the direction just cast,
    and the same conditions hold again for the next vote. *)
Lemma voteMessage_upsert db chatId messageId type userId c :
  getChatById db chatId userId = Some c ->
  message_exists db messageId = true ->
  (List.length (votes_for db chatId messageId) <= 1)%nat ->
  (forall v, In v (vote db) -> Vote.messageId v = messageId ->
             Vote.chatId v = chatId) ->
  let db' := snd (voteMessage db chatId messageId type userId) in
  fst (voteMessage db chatId messageId type userId) = Returned tt /\
  votes_for db' chatId messageId = [Vote.mk chatId messageId (is_up type)] /\
  (chat db' = chat db /\ message db' = message db) /\
  (forall v, In v (vote db') -> Vote.messageId v = messageId ->
             Vote.chatId v = chatId).
Proof.
  intros Hc Hmsg Hlen Hforeign. rewrite (voteMessage_verified _ _ _ _ _ _ Hc).
  rewrite Hmsg.
  destruct (first (Drizzle.select_where
              (fun v => Drizzle.eq (Vote.messageId v) messageId) (vote db)))
    as [existing|] eqn:E; cbv zeta; simpl fst; simpl snd.
  - apply first_select_some in E. destruct E as [Hin Hmid].
    apply String.eqb_eq in Hmid.
    assert (Hex : In existing (votes_for db chatId messageId)).
    { unfold votes_for. apply filter_In. split; [exact Hin|].
      rewrite (Hforeign existing Hin Hmid), Hmid, !String.eqb_refl. reflexivity. }
    split; [reflexivity|]. split; [|split].
    + rewrite votes_for_update.
      destruct (votes_for db chatId messageId) as [|v0 [|v1 rest]];
        simpl in *; [contradiction|reflexivity|lia].
    + split; reflexivity.
    + simpl. unfold Drizzle.update_where. intros v Hv Hm.
      apply in_map_iff in Hv. destruct Hv as (v0 & Hv0 & Hin0).
      destruct (Drizzle.eq (Vote.messageId v0) messageId
                && Drizzle.eq (Vote.chatId v0) chatId) eqn:Hcond.
      * subst v. simpl in *. auto.
      * subst v. auto.
  - rewrite first_select_none in E.
    split; [reflexivity|]. split; [|split].
    + unfold votes_for, Drizzle.insert. simpl. rewrite filter_app. simpl.
      rewrite !String.eqb_refl. simpl.
      rewrite filter_none; [reflexivity|].
      intros v Hv. specialize (E v Hv).
      unfold Drizzle.eq in E. rewrite E. now rewrite andb_false_r.
    + split; reflexivity.
    + simpl. unfold Drizzle.insert. intros v Hv Hm.
      apply in_app_or in Hv. destruct Hv as [Hv|[<-|[]]]; [|reflexivity].
      specialize (E v Hv). unfold Drizzle.eq in E.
      rewrite Hm, String.eqb_refl in E. discriminate.
Qed.

(** C4 at the failing input.  Once a row of another chat carries the
    message id, the lookup by [messageId] alone finds it and the update
    keyed by (messageId, chatId) matches nothing: Bob, who owns [b1], votes
    "up" on (b1, m3) twice, both calls return, and no vote row for
    (b1, m3) exists afterwards. *)
Theorem voteMessage_vote_lost :
  voteMessage db_before_votes "a1" "m3" up "alice"
    = (Returned tt, db_foreign_vote) /\
  getChatById db_foreign_vote "b1" "bob" = Some chat_b1 /\
  voteMessage db_foreign_vote "b1" "m3" up "bob"
    = (Returned tt, db_foreign_vote) /\
  (let db1 := snd (voteMessage db_foreign_vote "b1" "m3" up "bob") in
   let db2 := snd (voteMessage db1 "b1" "m3" up "bob") in
   fst (voteMessage db1 "b1" "m3" up "bob") = Returned tt /\
   votes_for db2 "b1" "m3" = [] /\
   votes_for db2 "b1" "m3" <> [Vote.mk "b1" "m3" true]).
Proof.
  repeat split. discriminate.
Qed.

Example voteMessage_twice_up :
  let db1 := snd (voteMessage db_two_owners "a1" "m1" up "alice") in
  let db2 := snd (voteMessage db1 "a1" "m1" up "alice") in
  votes_for db2 "a1" "m1" = [Vote.mk "a1" "m1" true].
Proof. reflexivity. Qed.

Example voteMessage_up_then_down :
  let db1 := snd (voteMessage db_two_owners "a1" "m1" up "alice") in
  let db2 := snd (voteMessage db1 "a1" "m1" down "alice") in
  votes_for db2 "a1" "m1" = [Vote.mk "a1" "m1" false] /\
  List.length (vote db2) = List.length (vote db1).
Proof. split; reflexivity. Qed.

(** ** Documents: range delete *)

(** What the function does to the two tables, for every caller. *)
Lemma deleteDocumentsByIdAfterTimestamp_effect db id timestamp userId :
  let db' := snd (deleteDocumentsByIdAfterTimestamp db id timestamp userId) in
  suggestion db'
  = filter (fun s => negb (String.eqb (Suggestion.documentId s) id
                           && (timestamp <? Suggestion.documentCreatedAt s)))
      (suggestion db) /\
  document db'
  = filter (fun d => negb (String.eqb (Document.id d) id
                           && String.eqb (Document.userId d) userId
                           && (timestamp <? Document.createdAt d)))
      (document db).
Proof. split; reflexivity. Qed.

(** C8 at the failing input.  Bob, who does not own document [d1], calls
    the range delete: no document revision is deleted (none is returned),
    but the suggestion on Alice's revision is gone, since the suggestion
    delete runs first and carries no ownership predicate. *)
Theorem deleteDocumentsByIdAfterTimestamp_non_owner_deletes_suggestions :
  getDocumentById db_documents "d1" "bob" = None /\
  fst (deleteDocumentsByIdAfterTimestamp db_documents "d1" 15 "bob") = [] /\
  document (snd (deleteDocumentsByIdAfterTimestamp db_documents "d1" 15 "bob"))
    = [doc_d1_v1; doc_d1_v2] /\
  suggestion db_documents = [sugg_d1_v2] /\
  suggestion (snd (deleteDocumentsByIdAfterTimestamp db_documents "d1" 15 "bob"))
    = [].
Proof. repeat split. Qed.

Example deleteDocumentsByIdAfterTimestamp_owner :
  deleteDocumentsByIdAfterTimestamp db_documents "d1" 15 "alice"
  = ([doc_d1_v2], mkDB [] [] [] [] [doc_d1_v1] []).
Proof. reflexivity. Qed.

(** ** Messages: truncation after a timestamp *)

Lemma filter_all {A} (p : A -> bool) rows :
  (forall r, In r rows -> p r = true) -> filter p rows = rows.
Proof.
  induction rows as [|x rows IH]; simpl; [reflexivity|].
  intros H. rewrite (H x (or_introl Logic.eq_refl)). f_equal. apply IH.
  intros r Hr. apply H. now right.
Qed.

Lemma inArray_In a l : Drizzle.inArray a l = true <-> In a l.
Proof.
  unfold Drizzle.inArray. rewrite existsb_exists. split.
  - intros (x & Hx & Heq). apply String.eqb_eq in Heq. now subst.
  - intros H. exists a. split; [exact H|apply String.eqb_refl].
Qed.

Lemma messageIds_In db chatId timestamp x :
  In x (messageIds db chatId timestamp) <->
  exists m, In m (message db) /\ Message.id m = x /\
            after_timestamp chatId timestamp m = true.
Proof.
  unfold messageIds. rewrite in_map_iff. split.
  - intros (m & Hid & Hin). apply filter_In in Hin. exists m. tauto.
  - intros (m & Hin & Hid & Hcond). exists m. split; [exact Hid|].
    apply filter_In. tauto.
Qed.

Lemma messageIds_own db chatId timestamp m :
  message_pkey db -> In m (message db) ->
  Drizzle.inArray (Message.id m) (messageIds db chatId timestamp)
  = after_timestamp chatId timestamp m.
Proof.
  intros Hmk Hin. apply Bool.eq_iff_eq_true.
  rewrite inArray_In, messageIds_In. split.
  - intros (m' & Hin' & Hid & Hcond).
    assert (m' = m) by exact (NoDup_map_inj Message.id _ m' m Hmk Hin' Hin Hid).
    now subst.
  - intros Hcond. exists m. auto.
Qed.

Lemma messageIds_existsb db chatId timestamp x :
  Drizzle.inArray x (messageIds db chatId timestamp)
  = existsb (fun m => String.eqb (Message.id m) x
                      && after_timestamp chatId timestamp m) (message db).
Proof.
  apply Bool.eq_iff_eq_true.
  rewrite inArray_In, messageIds_In, existsb_exists. split.
  - intros (m & Hin & Hid & Hcond). exists m. split; [exact Hin|].
    rewrite Hcond, andb_true_r. now apply String.eqb_eq.
  - intros (m & Hin & Hcond). apply andb_true_iff in Hcond.
    destruct Hcond as [Hid Hcond]. apply String.eqb_eq in Hid. exists m. auto.
Qed.

Lemma existsb_none {A} (f : A -> bool) (rows : list A) :
  (forall r, In r rows -> f r = false) -> existsb f rows = false.
Proof.
  induction rows as [|x rows IH]; simpl; [reflexivity|].
  intros H. rewrite (H x (or_introl Logic.eq_refl)). apply IH.
  intros r Hr. apply H. now right.
Qed.

Lemma existsb_filter {A} (f keep : A -> bool) (rows : list A) :
  existsb f (filter keep rows) = existsb (fun r => keep r && f r) rows.
Proof.
  induction rows as [|x rows IH]; simpl; [reflexivity|].
  destruct (keep x); simpl; now rewrite IH.
Qed.

Lemma existsb_same {A} (f g : A -> bool) (rows : list A) :
  (forall r, In r rows -> f r = g r) -> existsb f rows = existsb g rows.
Proof.
  induction rows as [|x rows IH]; simpl; [reflexivity|].
  intros H. rewrite (H x (or_introl Logic.eq_refl)). f_equal. apply IH.
  intros r Hr. apply H. now right.
Qed.

(** The tables after a truncation by the owner, where every vote is
    filed under the chat of its message: no vote that stays refers to a
    message that goes, so the message delete is accepted. *)
Lemma deleteMessagesByChatIdAfterTimestamp_tables db chatId timestamp userId c :
  getChatById db chatId userId = Some c ->
  votes_in_message_chat db ->
  let r := deleteMessagesByChatIdAfterTimestamp db chatId timestamp userId in
  let ids := messageIds db chatId timestamp in
  fst r = Returned tt /\
  message (snd r)
  = Drizzle.delete_where
      (fun m => Drizzle.eq (Message.chatId m) chatId
                && Drizzle.inArray (Message.id m) ids) (message db) /\
  vote (snd r)
  = Drizzle.delete_where
      (fun v => Drizzle.eq (Vote.chatId v) chatId
                && Drizzle.inArray (Vote.messageId v) ids) (vote db) /\
  chat (snd r) = chat db /\ user (snd r) = user db /\
  document (snd r) = document db /\ suggestion (snd r) = suggestion db.
Proof.
  intros Hc Hfiled. unfold deleteMessagesByChatIdAfterTimestamp. rewrite Hc.
  apply getChatById_some in Hc. destruct Hc as (_ & _ & Hu).
  rewrite Hu, String.eqb_refl. cbv zeta. simpl negb. cbv iota.
  change (map Message.id
            (Drizzle.select_where
               (fun m => Drizzle.eq (Message.chatId m) chatId
                         && Drizzle.gte (Message.createdAt m) timestamp)
               (message db)))
    with (messageIds db chatId timestamp).
  destruct (0 <? List.length (messageIds db chatId timestamp))%nat eqn:E.
  - unfold delete_restrict. rewrite existsb_none.
    + repeat split.
    + intros m Hm. simpl in Hm.
      destruct (Drizzle.eq (Message.chatId m) chatId) eqn:Hchat;
        [|reflexivity].
      destruct (Drizzle.inArray (Message.id m)
                  (messageIds db chatId timestamp)) eqn:Hid; [|reflexivity].
      simpl. unfold voted_on. simpl. apply existsb_none. intros v Hv.
      unfold Drizzle.delete_where in Hv. apply filter_In in Hv.
      destruct Hv as [Hv Hkeep].
      destruct (String.eqb_spec (Vote.messageId v) (Message.id m)) as [Heq|];
        [|reflexivity].
      exfalso. apply String.eqb_eq in Hchat.
      pose proof (Hfiled v m Hv Hm (Logic.eq_sym Heq)) as Hsame.
      unfold Drizzle.eq in Hkeep.
      rewrite <- Hsame, Hchat, String.eqb_refl, Heq, Hid in Hkeep.
      discriminate.
  - assert (Hnil : messageIds db chatId timestamp = []).
    { apply length_zero_iff_nil. apply Nat.ltb_ge in E. lia. }
    rewrite Hnil. simpl.
    repeat split; unfold Drizzle.delete_where; symmetry; apply filter_all;
      intros r _; now rewrite andb_false_r.
Qed.

(** C6 at the failing input.  Alice's vote (a1, m3) is on message [m3]
    of Bob's chat [b1] (the state that C4's first step produces).  Bob
    truncates his chat at the timestamp of [m3]: the vote delete, keyed by
    his chat's id, leaves that vote, the message delete is then rejected
    by the vote's foreign key, the call throws and [m3], which is not
    older than the timestamp, is still stored. *)
Theorem deleteMessagesByChatIdAfterTimestamp_blocked :
  voteMessage db_before_votes "a1" "m3" up "alice"
    = (Returned tt, db_foreign_vote) /\
  getChatById db_foreign_vote "b1" "bob" = Some chat_b1 /\
  In msg_b1_1 (message db_foreign_vote) /\
  Message.chatId msg_b1_1 = "b1" /\ 210 <= Message.createdAt msg_b1_1 /\
  deleteMessagesByChatIdAfterTimestamp db_foreign_vote "b1" 210 "bob"
    = (Thrown foreign_key_violation, db_foreign_vote) /\
  In msg_b1_1
    (message
       (snd (deleteMessagesByChatIdAfterTimestamp db_foreign_vote "b1" 210
               "bob"))).
Proof.
  split; [reflexivity|]. split; [reflexivity|]. split; [simpl; auto|].
  split; [reflexivity|]. split; [simpl; lia|]. split; [reflexivity|].
  simpl. auto.
Qed.

(** ** Deleting a chat *)

Lemma innerJoin_In {A B} (on : A -> B -> bool) l r a b :
  In (a, b) (innerJoin on l r) <-> In a l /\ In b r /\ on a b = true.
Proof.
  unfold innerJoin. rewrite in_flat_map. split.
  - intros (a' & Ha & Hab). apply in_map_iff in Hab.
    destruct Hab as (b' & Heq & Hb). injection Heq as -> ->.
    apply filter_In in Hb. tauto.
  - intros (Ha & Hb & Hon). exists a. split; [exact Ha|].
    apply in_map. apply filter_In. tauto.
Qed.

Lemma getMessageById_some db id userId m :
  getMessageById db id userId = Some m ->
  In m (message db) /\ Message.id m = id /\
  exists c, In c (chat db) /\ Chat.id c = Message.chatId m /\
            Chat.userId c = userId.
Proof.
  unfold getMessageById, first. intros H.
  destruct (Drizzle.select_where _ _) as [|[m' c] rest] eqn:E;
    simpl in H; [discriminate|]. injection H as ->.
  assert (Hin : In (m, c) (Drizzle.select_where
     (fun mc => Drizzle.eq (Message.id (fst mc)) id
                && Drizzle.eq (Chat.userId (snd mc)) userId)
     (innerJoin (fun m c => Drizzle.eq (Message.chatId m) (Chat.id c))
        (message db) (chat db)))).
  { rewrite E. now left. }
  apply filter_In in Hin. destruct Hin as [Hjoin Hcond].
  apply innerJoin_In in Hjoin. destruct Hjoin as (Hm & Hc & Hon).
  apply andb_true_iff in Hcond. destruct Hcond as [Hid Hu].
  apply String.eqb_eq in Hid, Hu, Hon. simpl in *.
  split; [exact Hm|]. split; [exact Hid|]. exists c. auto.
Qed.

Lemma getMessageById_none db id userId :
  (forall m, In m (message db) -> Message.id m <> id) ->
  getMessageById db id userId = None.
Proof.
  intros Hno. destruct (getMessageById db id userId) as [m|] eqn:E;
    [|reflexivity].
  apply getMessageById_some in E. destruct E as (Hin & Hid & _).
  exfalso. exact (Hno m Hin Hid).
Qed.

Lemma eqb_negb_neq (a b : string) : negb (String.eqb a b) = true <-> a <> b.
Proof.
  destruct (String.eqb_spec a b); simpl; split; intros; congruence.
Qed.

(** [deleteChatById] in full, statement by statement: the votes of the
    chat go first; the message delete fails when storage is down or a vote
    filed under another chat is on one of the chat's messages; the chat
    delete fails when storage is down; otherwise the chat, its messages
    and its votes are gone. *)
Lemma deleteChatById_statements_outcome message_ok chat_ok db id :
  deleteChatById_statements message_ok chat_ok db id
  = if negb message_ok then (Thrown "StorageError", votes_removed db id)
    else if cascade_blocked db id
    then (Thrown foreign_key_violation, votes_removed db id)
    else if negb chat_ok then (Thrown "StorageError", messages_removed db id)
    else (Returned tt, chat_removed db id).
Proof.
  unfold deleteChatById_statements, delete_restrict. cbv zeta.
  destruct message_ok; simpl negb; cbv iota; [|reflexivity].
  assert (Hblocked :
    existsb
      (fun m => Drizzle.eq (Message.chatId m) id
                && voted_on
                     (set_vote db
                        (Drizzle.delete_where
                           (fun v => Drizzle.eq (Vote.chatId v) id) (vote db)))
                     m)
      (message
         (set_vote db
            (Drizzle.delete_where
               (fun v => Drizzle.eq (Vote.chatId v) id) (vote db))))
    = cascade_blocked db id).
  { unfold cascade_blocked. simpl. apply existsb_same. intros m _.
    unfold voted_on, Drizzle.delete_where, Drizzle.eq. simpl.
    now rewrite existsb_filter. }
  rewrite Hblocked. destruct (cascade_blocked db id); [reflexivity|].
  destruct chat_ok; simpl negb; cbv iota; [|reflexivity].
  rewrite existsb_none; [reflexivity|].
  intros c Hc. unfold Drizzle.eq.
  destruct (String.eqb_spec (Chat.id c) id) as [Hid|]; [|reflexivity].
  simpl. unfold chat_in_use, Drizzle.delete_where. simpl.
  rewrite !existsb_filter, Hid. apply orb_false_iff. split;
    apply existsb_none; intros r _; unfold Drizzle.eq;
    now destruct (String.eqb _ id).
Qed.

(** With storage up, [deleteChatById] is rejected exactly when a vote
    filed under another chat is on one of the chat's messages, and then
    only the chat's own votes are gone. *)
Lemma deleteChatById_outcome db id :
  deleteChatById db id
  = if cascade_blocked db id
    then (Thrown foreign_key_violation, votes_removed db id)
    else (Returned tt, chat_removed db id).
Proof.
  unfold deleteChatById. now rewrite deleteChatById_statements_outcome.
Qed.

Lemma cascade_blocked_false db id :
  votes_in_message_chat db -> cascade_blocked db id = false.
Proof.
  intros Hfiled. unfold cascade_blocked. apply existsb_none. intros m Hm.
  destruct (String.eqb_spec (Message.chatId m) id) as [Hchat|]; [|reflexivity].
  simpl. apply existsb_none. intros v Hv.
  destruct (String.eqb_spec (Vote.messageId v) (Message.id m)) as [Heq|];
    [|apply andb_false_r].
  rewrite <- (Hfiled v m Hv Hm (Logic.eq_sym Heq)), Hchat.
  now rewrite String.eqb_refl.
Qed.

Lemma deleteChatById_returns db id :
  votes_in_message_chat db ->
  deleteChatById db id = (Returned tt, chat_removed db id).
Proof.
  intros Hfiled. now rewrite deleteChatById_outcome, cascade_blocked_false.
Qed.

(** C7 at the failing input.  Alice's vote (a1, m3) is on message [m3]
    of Bob's chat [b1] (the state that C4's first step produces).
    Deleting chat [b1] deletes the votes filed under [b1], which leaves
    that vote; the message delete is then rejected by the vote's foreign
    key, the call throws, the chat row is still stored and looking up the
    chat's message id [m3] still finds the message. *)
Theorem deleteChatById_blocked :
  voteMessage db_before_votes "a1" "m3" up "alice"
    = (Returned tt, db_foreign_vote) /\
  getChatById db_foreign_vote "b1" "bob" = Some chat_b1 /\
  deleteChatById db_foreign_vote "b1"
    = (Thrown foreign_key_violation, db_foreign_vote) /\
  getChatById (snd (deleteChatById db_foreign_vote "b1")) "b1" "bob"
    = Some chat_b1 /\
  getMessageById (snd (deleteChatById db_foreign_vote "b1")) "m3" "bob"
    = Some msg_b1_1.
Proof. repeat split. Qed.

(** ** The chat POST flow: order of events *)

Lemma precedesb_sound a b tr seen :
  precedesb a b seen tr = true ->
  forall l1 l2, tr = l1 ++ b :: l2 -> seen = true \/ In a l1.
Proof.
  revert seen. induction tr as [|e rest IH]; intros seen H l1 l2 Heq.
  - destruct l1; discriminate.
  - destruct l1 as [|e1 l1]; simpl in Heq; injection Heq as He Hrest.
    + subst e. simpl in H. destruct (Event_eq_dec b b); [|contradiction].
      apply andb_true_iff in H. now left.
    + subst e1. simpl in H. destruct (Event_eq_dec e b).
      * apply andb_true_iff in H. now left.
      * destruct (Event_eq_dec e a) as [->|].
        -- right. now left.
        -- destruct (IH seen H l1 l2 Hrest); [now left|right; now right].
Qed.

Lemma precedesb_precedes a b tr :
  precedesb a b false tr = true -> precedes a b tr.
Proof.
  intros H l1 l2 Heq.
  destruct (precedesb_sound a b tr false H l1 l2 Heq); [discriminate|assumption].
Qed.

Lemma occurs_In e tr : In e tr -> occurs e tr = true.
Proof.
  intros H. apply existsb_exists. exists e. split; [exact H|].
  now destruct (Event_eq_dec e e).
Qed.

(** Case analysis on an innermost scrutinee of the goal. *)
Ltac case_split :=
  match goal with
  | |- context [match ?x with _ => _ end] =>
      lazymatch x with
      | context [match _ with _ => _ end] => fail
      | _ => destruct x eqn:?
      end
  end.

(** What [saveMessages] leaves: the batch appended, or nothing changed. *)
Lemma saveMessages_result db messages r db' :
  saveMessages db messages = (r, db') ->
  match r with
  | Returned _ => db' = set_message db (message db ++ messages)
  | Thrown _ => db' = db
  end.
Proof.
  unfold saveMessages. destruct (negb _); [intros [= <- <-]; reflexivity|].
  destruct (negb _); intros [= <- <-]; reflexivity.
Qed.

(** The database after a case analysis on [saveMessages]. *)
Ltac saved_messages :=
  repeat match goal with
         | H : saveMessages ?d ?ms = (?o, ?d') |- _ =>
             apply saveMessages_result in H; try subst o;
             cbv beta iota in H; subst d'
         end.

Section PostFlow.

Local Arguments getChatById : simpl never.
Local Arguments given : simpl never.
Local Arguments truthy : simpl never.
Local Arguments saveChat : simpl never.
Local Arguments saveMessages : simpl never.
Local Arguments getUserById : simpl never.
Local Arguments createClerkUser : simpl never.

Ltac unfold_handlers :=
  unfold POST, DELETE, vote_GET, handler, try_catch, POST_body,
    createDataStreamResponse, streamText, onFinish, connect_mcp,
    close_mcpClient, jit_sync, await, reading, writing, try_catch, bindM,
    emit, ret, throw, return_, set_mcpClient, get_mcpClient, start, trace.

Lemma POST_ordered env request db :
  ordered (trace (snd (POST env request (start db)))) = true.
Proof.
  unfold_handlers. repeat (simpl; case_split); reflexivity.
Qed.

(** Once the model has been invoked, the inbound message is stored. *)
Lemma POST_inbound_durable env request db :
  let run := POST env request (start db) in
  In streamText_begins (trace (snd run)) ->
  exists userMessage,
    getMostRecentUserMessage env (req_messages request) = Some userMessage /\
    In (inbound_message env (req_id request) userMessage)
      (message (store (snd run))).
Proof.
  unfold_handlers. repeat (simpl; case_split); simpl;
    try (intros H; exfalso; intuition discriminate);
    intros _; eexists; (split; [reflexivity|]); saved_messages;
    unfold saveChat, Drizzle.insert; simpl;
    rewrite ?in_app_iff; simpl; auto 10.
Qed.

(** A failed inbound save ends the request before the model is invoked. *)
Lemma POST_save_rejected_or_stream env request db :
  let tr := trace (snd (POST env request (start db))) in
  occurs (rejected at_saveMessages_inbound) tr && occurs streamText_begins tr
  = false.
Proof.
  unfold_handlers. repeat (simpl; case_split); reflexivity.
Qed.

Lemma POST_no_stream_without_save env request db :
  let tr := trace (snd (POST env request (start db))) in
  In (rejected at_saveMessages_inbound) tr -> ~ In streamText_begins tr.
Proof.
  intros tr Hrej Hstream.
  pose proof (POST_save_rejected_or_stream env request db) as H.
  cbv zeta in H. fold tr in H. apply occurs_In in Hrej, Hstream.
  rewrite Hrej, Hstream in H. discriminate.
Qed.

End PostFlow.

Example POST_happy_trace :
  trace (snd (POST env_happy request_hello (start db_two_owners)))
  = [called at_getUserById; resolved at_getUserById;
     called at_getChatById; resolved at_getChatById;
     called at_saveChat; resolved at_saveChat;
     called at_saveMessages_inbound; resolved at_saveMessages_inbound;
     streamText_begins; relayed ["Hel"; "lo"]; stream_finished;
     onFinish_entered;
     called at_saveMessages_outbound; resolved at_saveMessages_outbound].
Proof. reflexivity. Qed.

Example POST_happy_messages :
  getMessagesByChatId (store (snd (POST env_happy request_hello (start db_two_owners))))
    "c9"
  = [Message.mk "u1" "c9" "user" "hello" "[]" 1000;
     Message.mk "r1" "c9" "assistant" "text" "[]" 2000].
Proof. reflexivity. Qed.

(** C9. In every run of the chat POST handler, whatever the identity
    provider, the storage, the tool process and the model do: the model
    is invoked only after the inbound [saveMessages] has resolved (and the
    message is then in the message table); the stream finishes only after
    it began; [onFinish] runs only after the stream has finished; and the
    outbound [saveMessages] is called only inside [onFinish], hence only
    after the stream has finished. *)
Theorem POST_ordering (env : Env) (request : Request) (db : DB) :
  let run := POST env request (start db) in
  let tr := trace (snd run) in
  precedes (resolved at_saveMessages_inbound) streamText_begins tr /\
  precedes streamText_begins stream_finished tr /\
  precedes stream_finished onFinish_entered tr /\
  precedes onFinish_entered (called at_saveMessages_outbound) tr /\
  precedes stream_finished (called at_saveMessages_outbound) tr /\
  (In (rejected at_saveMessages_inbound) tr -> ~ In streamText_begins tr) /\
  (In streamText_begins tr ->
   exists userMessage,
     getMostRecentUserMessage env (req_messages request) = Some userMessage /\
     In (inbound_message env (req_id request) userMessage)
       (message (store (snd run)))).
Proof.
  intros run tr.
  pose proof (POST_ordered env request db) as H. fold run in H. fold tr in H.
  unfold ordered in H. repeat rewrite andb_true_iff in H.
  destruct H as (((((H1 & H2) & H3) & H4) & H5) & _).
  repeat (split; [now apply precedesb_precedes|]).
  split.
  - apply POST_no_stream_without_save.
  - apply POST_inbound_durable.
Qed.

(** ** Ownership scoping across the persistence layer *)

Lemma In_firstn {A} n (l : list A) x : In x (firstn n l) -> In x l.
Proof.
  intros H. rewrite <- (firstn_skipn n l). apply in_or_app. now left.
Qed.

Lemma slice0_In {A} (l : list A) stop x : In x (slice0 l stop) -> In x l.
Proof. unfold slice0. destruct (stop <? 0); apply In_firstn. Qed.

Lemma query_owned db id n cond rows :
  query db id n cond = Returned rows ->
  forall c, In c rows -> In c (chat db) /\ Chat.userId c = id.
Proof.
  unfold query, Drizzle.limit.
  destruct (n <? 0); intros [= <-] c Hin; [|apply In_firstn in Hin];
    apply orderBy_desc_In in Hin; apply filter_In in Hin;
    destruct Hin as [Hin Hc]; (split; [exact Hin|]);
    (destruct cond; [apply andb_true_iff in Hc; destruct Hc as [_ Hc]|]);
    now apply String.eqb_eq in Hc.
Qed.

Lemma getChatsByUserId_owned db id limit sa eb page :
  getChatsByUserId db id limit sa eb = Returned page ->
  forall c, In c (chats page) -> In c (chat db) /\ Chat.userId c = id.
Proof.
  unfold getChatsByUserId.
  destruct (filteredChats db id limit sa eb) as [rows|] eqn:E; simpl;
    [|discriminate].
  intros [= <-] c Hin. simpl in Hin.
  assert (Hrows : In c rows).
  { destruct (limit <? Z.of_nat (List.length rows));
      [now apply slice0_In in Hin|exact Hin]. }
  unfold filteredChats in E.
  destruct (given sa).
  - destruct (selectedChat db s); [|discriminate]. eapply query_owned; eauto.
  - destruct (given eb).
    + destruct (selectedChat db s); [|discriminate]. eapply query_owned; eauto.
    + eapply query_owned; eauto.
Qed.

Lemma getDocumentById_some db id userId d :
  getDocumentById db id userId = Some d ->
  In d (document db) /\ Document.id d = id /\ Document.userId d = userId.
Proof.
  unfold getDocumentById. rewrite first_firstn_1. intros H.
  apply first_select_some in H. destruct H as [Hin Hp].
  apply andb_true_iff in Hp. destruct Hp as [H1 H2].
  apply String.eqb_eq in H1, H2. auto.
Qed.

Lemma getDocumentsById_owned db ids userId d :
  In d (getDocumentsById db ids userId) ->
  In d (document db) /\ Document.userId d = userId.
Proof.
  unfold getDocumentsById. intros Hin. apply orderBy_desc_In in Hin.
  apply filter_In in Hin. destruct Hin as [Hin Hp].
  apply andb_true_iff in Hp. destruct Hp as [_ Hu].
  apply String.eqb_eq in Hu. auto.
Qed.

Lemma map_unchanged {A} (p : A -> bool) (set : A -> A) rows :
  (forall r, In r rows -> p r = false) ->
  Drizzle.update_where p set rows = rows.
Proof.
  unfold Drizzle.update_where. induction rows as [|x rows IH]; simpl;
    [reflexivity|].
  intros H. rewrite (H x (or_introl Logic.eq_refl)). f_equal. apply IH.
  intros r Hr. apply H. now right.
Qed.

Lemma owner_cond_false (id userId : string) (rid ruser : string) :
  (rid = id -> ruser <> userId) ->
  Drizzle.eq rid id && Drizzle.eq ruser userId = false.
Proof.
  intros H. unfold Drizzle.eq.
  destruct (String.eqb_spec rid id) as [Hid|]; [|reflexivity].
  destruct (String.eqb_spec ruser userId) as [Hu|]; [|reflexivity].
  exfalso. exact (H Hid Hu).
Qed.

Lemma updateChatVisiblityById_non_owner db id visibility userId :
  getChatById db id userId = None ->
  updateChatVisiblityById db id visibility userId = ([], db).
Proof.
  intros Hno. rewrite getChatById_none in Hno.
  unfold updateChatVisiblityById. f_equal.
  - unfold Drizzle.select_where. rewrite filter_none; [reflexivity|].
    intros c Hin. apply owner_cond_false. now apply Hno.
  - rewrite map_unchanged.
    + now destruct db.
    + intros c Hin. apply owner_cond_false. now apply Hno.
Qed.

Lemma voteMessage_not_found db chatId messageId type userId :
  getChatById db chatId userId = None ->
  voteMessage db chatId messageId type userId
  = (Thrown ("Chat not found: " ++ chatId)%string, db).
Proof. intros H. unfold voteMessage. now rewrite H. Qed.

Lemma deleteMessagesByChatIdAfterTimestamp_not_found db chatId timestamp userId :
  getChatById db chatId userId = None ->
  deleteMessagesByChatIdAfterTimestamp db chatId timestamp userId
  = (Thrown ("Chat not found: " ++ chatId)%string, db).
Proof.
  intros H. unfold deleteMessagesByChatIdAfterTimestamp. now rewrite H.
Qed.

Lemma deleteDocumentsByIdAfterTimestamp_documents_non_owner
  db id timestamp userId :
  getDocumentById db id userId = None ->
  fst (deleteDocumentsByIdAfterTimestamp db id timestamp userId) = [] /\
  document (snd (deleteDocumentsByIdAfterTimestamp db id timestamp userId))
  = document db.
Proof.
  unfold getDocumentById. rewrite first_firstn_1, first_select_none.
  intros Hno. unfold deleteDocumentsByIdAfterTimestamp. simpl. split.
  - unfold Drizzle.select_where. apply filter_none. intros d Hin.
    now rewrite (Hno d Hin).
  - unfold Drizzle.delete_where. apply filter_all. intros d Hin.
    now rewrite (Hno d Hin).
Qed.

Section RouteGuards.

Local Arguments getChatById : simpl never.
Local Arguments given : simpl never.
Local Arguments truthy : simpl never.
Local Arguments getUserById : simpl never.
Local Arguments deleteChatById : simpl never.
Local Arguments deleteChatById_statements : simpl never.
Local Arguments getVotesByChatId : simpl never.

Ltac unfold_guards :=
  unfold DELETE, vote_GET, handler, try_catch, jit_sync, await, reading,
    writing, try_catch, bindM, emit, ret, throw, return_, start, trace,
    createClerkUser.

(** [DELETE /api/chat] reaches [deleteChatById] only for the owner. *)
Lemma DELETE_non_owner env db id userId :
  given (auth env) = Some userId ->
  getChatById db id userId = None ->
  let run := DELETE env (Some id) (start db) in
  chat (store (snd run)) = chat db /\
  message (store (snd run)) = message db /\
  vote (store (snd run)) = vote db /\
  occurs (called at_deleteChatById) (trace (snd run)) = false.
Proof.
  intros Hauth Hno. unfold_guards. rewrite Hauth.
  assert (Hsync : forall rows, getChatById (set_user db rows) id userId = None)
    by (intros rows; exact Hno).
  destruct (given (Some id)) as [id'|] eqn:Hid; [|repeat split].
  assert (id' = id) as ->.
  { unfold given in Hid. destruct (truthy (Some id)); congruence. }
  repeat (simpl; case_split); simpl; try (repeat split; fail);
    try congruence;
    match goal with
    | H : getChatById (set_user db ?rows) id userId = Some _ |- _ =>
        rewrite (Hsync rows) in H; discriminate
    end.
Qed.

(** [GET /api/vote] reaches [getVotesByChatId] only for the owner. *)
Lemma vote_GET_non_owner env db chatId userId :
  given (auth env) = Some userId ->
  getChatById db chatId userId = None ->
  let run := vote_GET env (Some chatId) (start db) in
  occurs (called at_getVotesByChatId) (trace (snd run)) = false /\
  forall r, fst run = Returned r -> status r <> 200.
Proof.
  intros Hauth Hno. unfold_guards. rewrite Hauth.
  destruct (given (Some chatId)) as [id'|] eqn:Hid.
  - assert (id' = chatId) as ->.
    { unfold given in Hid. destruct (truthy (Some chatId)); congruence. }
    repeat (simpl; case_split); simpl;
      try congruence; (split; [reflexivity|]); intros r [= <-]; discriminate.
  - simpl. split; [reflexivity|]. intros r [= <-]. discriminate.
Qed.

End RouteGuards.

(** C2 as stated fails: [getVotesByChatId] and [deleteChatById] take a
    chat id and no user id.  Bob does not own chat [a1], yet a call with
    that id hands out Alice's vote, and a call of the delete removes her
    chat, her messages and her vote. *)
Lemma persistence_not_all_user_scoped :
  getChatById db_two_owners "a1" "bob" = None /\
  getVotesByChatId db_two_owners "a1" = [Vote.mk "a1" "m2" true] /\
  deleteChatById db_two_owners "a1"
  = (Returned tt,
     mkDB (user db_two_owners) [chat_b1] [msg_b1_1] [Vote.mk "b1" "m3" false]
          [] []) /\
  snd (deleteChatById db_two_owners "a1") <> db_two_owners.
Proof. repeat split. discriminate. Qed.

(** C2, as the code has it.  The persistence functions that take a
    [userId] are scoped by it: [getChatById], [getChatsByUserId],
    [getDocumentById], [getDocumentsById] and [getMessageById] return
    only rows of that user (for a message: of a chat of that user);
    [updateChatVisiblityById], [voteMessage] and
    [deleteMessagesByChatIdAfterTimestamp] leave the database untouched
    when the user does not own the chat; [getSuggestionsByDocumentId]
    returns nothing and the document delete of
    [deleteDocumentsByIdAfterTimestamp] removes nothing when the user does
    not own the document.  [deleteChatById] and [getVotesByChatId] take
    no user id: the handlers that call them, [DELETE /api/chat] and
    [GET /api/vote], look the chat up with [getChatById] first and do not
    reach them for a user who does not own the chat. *)
Theorem persistence_scoping (db : DB) (userId : string) :
  (forall id c, getChatById db id userId = Some c ->
     In c (chat db) /\ Chat.id c = id /\ Chat.userId c = userId) /\
  (forall limit startingAfter endingBefore page,
     getChatsByUserId db userId limit startingAfter endingBefore = Returned page ->
     forall c, In c (chats page) -> In c (chat db) /\ Chat.userId c = userId) /\
  (forall id d, getDocumentById db id userId = Some d ->
     In d (document db) /\ Document.id d = id /\ Document.userId d = userId) /\
  (forall ids d, In d (getDocumentsById db ids userId) ->
     In d (document db) /\ Document.userId d = userId) /\
  (forall id m, getMessageById db id userId = Some m ->
     In m (message db) /\ Message.id m = id /\
     exists c, In c (chat db) /\ Chat.id c = Message.chatId m /\
               Chat.userId c = userId) /\
  (forall id visibility, getChatById db id userId = None ->
     updateChatVisiblityById db id visibility userId = ([], db)) /\
  (forall chatId messageId type, getChatById db chatId userId = None ->
     voteMessage db chatId messageId type userId
     = (Thrown ("Chat not found: " ++ chatId)%string, db)) /\
  (forall chatId timestamp, getChatById db chatId userId = None ->
     deleteMessagesByChatIdAfterTimestamp db chatId timestamp userId
     = (Thrown ("Chat not found: " ++ chatId)%string, db)) /\
  (forall documentId, getDocumentById db documentId userId = None ->
     getSuggestionsByDocumentId db documentId userId = []) /\
  (forall id timestamp, getDocumentById db id userId = None ->
     fst (deleteDocumentsByIdAfterTimestamp db id timestamp userId) = [] /\
     document (snd (deleteDocumentsByIdAfterTimestamp db id timestamp userId))
     = document db) /\
  (forall env id, given (auth env) = Some userId ->
     getChatById db id userId = None ->
     let run := DELETE env (Some id) (start db) in
     chat (store (snd run)) = chat db /\
     message (store (snd run)) = message db /\
     vote (store (snd run)) = vote db /\
     occurs (called at_deleteChatById) (trace (snd run)) = false) /\
  (forall env chatId, given (auth env) = Some userId ->
     getChatById db chatId userId = None ->
     let run := vote_GET env (Some chatId) (start db) in
     occurs (called at_getVotesByChatId) (trace (snd run)) = false /\
     forall r, fst run = Returned r -> status r <> 200).
Proof.
  split; [intros id c; apply getChatById_some|].
  split; [intros limit sa eb page; apply getChatsByUserId_owned|].
  split; [intros id d; apply getDocumentById_some|].
  split; [intros ids d; apply getDocumentsById_owned|].
  split; [intros id m; apply getMessageById_some|].
  split; [intros id v; apply updateChatVisiblityById_non_owner|].
  split; [intros c m t; apply voteMessage_not_found|].
  split; [intros c t; apply deleteMessagesByChatIdAfterTimestamp_not_found|].
  split.
  { intros documentId H. unfold getSuggestionsByDocumentId. now rewrite H. }
  split;
    [intros id t; apply deleteDocumentsByIdAfterTimestamp_documents_non_owner|].
  split.
  - intros env id. apply DELETE_non_owner.
  - intros env chatId. apply vote_GET_non_owner.
Qed.

(** At the database of Alice and Bob: Bob is refused Alice's chat by the
    persistence functions that take his id and by the two handlers. *)
Lemma persistence_scoping_witness :
  voteMessage db_two_owners "a1" "m2" down "bob"
    = (Thrown "Chat not found: a1", db_two_owners) /\
  updateChatVisiblityById db_two_owners "a1" public "bob" = ([], db_two_owners) /\
  chat (store (snd (DELETE (env_as "bob") (Some "a1") (start db_two_owners))))
    = chat db_two_owners.
Proof.
  destruct (persistence_scoping db_two_owners "bob")
    as (_ & _ & _ & _ & _ & Hvis & Hvote & _ & _ & _ & Hdel & _).
  split; [exact (Hvote "a1" "m2" down Logic.eq_refl)|].
  split; [exact (Hvis "a1" public Logic.eq_refl)|].
  exact (proj1 (Hdel (env_as "bob") "a1" Logic.eq_refl Logic.eq_refl)).
Defined.

Example DELETE_by_owner :
  DELETE env_happy (Some "a1") (start db_two_owners)
  = (Returned (response (text "Chat deleted") 200),
     mkWorld (mkDB (user db_two_owners) [chat_b1] [msg_b1_1]
                [Vote.mk "b1" "m3" false] [] [])
       false
       [resolved at_deleteChatById; called at_deleteChatById;
        resolved at_getChatById; called at_getChatById;
        resolved at_getUserById; called at_getUserById]).
Proof. reflexivity. Qed.

Example vote_GET_by_owner :
  fst (vote_GET env_happy (Some "a1") (start db_two_owners))
  = Returned (response (json_votes [Vote.mk "a1" "m2" true]) 200).
Proof. reflexivity. Qed.

(** * Further properties of the persistence layer *)

(** ** Inserting and looking up chats *)





(** ** Messages of a chat, oldest first *)

Section OrderByAsc.
Context {A : Type} (key : A -> Z).

Lemma insert_asc_perm x rows :
  Permutation (x :: rows) (Drizzle.insert_asc key x rows).
Proof.
  induction rows as [|y rest IH]; simpl; [reflexivity|].
  destruct (key y <? key x); [|reflexivity].
  rewrite perm_swap. now apply perm_skip.
Qed.

Lemma orderBy_asc_perm rows :
  Permutation rows (Drizzle.orderBy_asc key rows).
Proof.
  induction rows as [|x rows IH]; simpl; [reflexivity|].
  rewrite <- insert_asc_perm. now apply perm_skip.
Qed.

Lemma orderBy_asc_In rows r :
  In r (Drizzle.orderBy_asc key rows) <-> In r rows.
Proof.
  split; apply Permutation_in; [symmetry|]; apply orderBy_asc_perm.
Qed.

Lemma insert_asc_hd x y rows :
  key y <= key x -> HdRel (asc_by key) y rows ->
  HdRel (asc_by key) y (Drizzle.insert_asc key x rows).
Proof.
  intros Hxy Hhd. destruct rows as [|z rest]; simpl.
  - constructor. exact Hxy.
  - destruct (key z <? key x).
    + constructor. now inversion Hhd.
    + constructor. exact Hxy.
Qed.

Lemma insert_asc_sorted x rows :
  Sorted (asc_by key) rows -> Sorted (asc_by key) (Drizzle.insert_asc key x rows).
Proof.
  induction 1 as [|y rest Hs IH Hhd]; simpl.
  - repeat constructor.
  - destruct (Z.ltb_spec (key y) (key x)).
    + constructor; [exact IH|]. apply insert_asc_hd; [lia|exact Hhd].
    + constructor; [now constructor|]. constructor. unfold asc_by. lia.
Qed.

Lemma orderBy_asc_sorted rows :
  Sorted (asc_by key) (Drizzle.orderBy_asc key rows).
Proof.
  induction rows as [|x rows IH]; simpl; [constructor|].
  now apply insert_asc_sorted.
Qed.
End OrderByAsc.

Lemma getMessagesByChatId_In db id m :
  In m (getMessagesByChatId db id) <->
  In m (message db) /\ Message.chatId m = id.
Proof.
  unfold getMessagesByChatId, Drizzle.select_where, Drizzle.eq.
  rewrite orderBy_asc_In, filter_In. now rewrite String.eqb_eq.
Qed.

(** X2. [getMessagesByChatId] returns the messages of the chat and no
    others, each as often as it is stored, in ascending [createdAt]
    order; it takes no user id, so it does so for any caller. *)
Theorem getMessagesByChatId_sorted (db : DB) (id : string) :
  Sorted (asc_by Message.createdAt) (getMessagesByChatId db id) /\
  Permutation
    (filter (fun m => String.eqb (Message.chatId m) id) (message db))
    (getMessagesByChatId db id) /\
  (forall m, In m (getMessagesByChatId db id) <->
             In m (message db) /\ Message.chatId m = id).
Proof.
  unfold getMessagesByChatId, Drizzle.select_where, Drizzle.eq.
  split; [apply orderBy_asc_sorted|]. split; [apply orderBy_asc_perm|].
  intros m. apply getMessagesByChatId_In.
Qed.

Lemma distinct_NoDup ids : distinct ids = true <-> NoDup ids.
Proof.
  induction ids as [|x ids IH]; simpl.
  - split; [constructor|reflexivity].
  - rewrite andb_true_iff, IH, negb_true_iff. split.
    + intros [Hx Hrest]. constructor; [|exact Hrest].
      intros Hin. apply inArray_In in Hin. congruence.
    + intros H. inversion H as [|? ? Hx Hrest]; subst. split; [|exact Hrest].
      destruct (Drizzle.inArray x ids) eqn:E; [|reflexivity].
      apply inArray_In in E. contradiction.
Qed.

Lemma message_exists_In db messageId :
  message_exists db messageId = true <->
  exists m, In m (message db) /\ Message.id m = messageId.
Proof.
  unfold message_exists. rewrite existsb_exists.
  split; intros (m & Hin & Hid); exists m; (split; [exact Hin|]);
    now apply String.eqb_eq.
Qed.

Lemma chat_exists_In db chatId :
  chat_exists db chatId = true <->
  exists c, In c (chat db) /\ Chat.id c = chatId.
Proof.
  unfold chat_exists. rewrite existsb_exists.
  split; intros (c & Hin & Hid); exists c; (split; [exact Hin|]);
    now apply String.eqb_eq.
Qed.

(** The batches that the message relation accepts. *)
Lemma saveMessages_accepts db messages :
  NoDup (map Message.id messages) ->
  (forall m m', In m messages -> In m' (message db) ->
                Message.id m <> Message.id m') ->
  (forall m, In m messages ->
     exists c, In c (chat db) /\ Chat.id c = Message.chatId m) ->
  saveMessages db messages
  = (Returned tt, set_message db (message db ++ messages)).
Proof.
  intros Hdistinct Hfresh Hchats. unfold saveMessages.
  apply distinct_NoDup in Hdistinct. rewrite Hdistinct.
  assert (Hnew : forallb (fun m => negb (message_exists db (Message.id m)))
                   messages = true).
  { apply forallb_forall. intros m Hm. apply negb_true_iff.
    destruct (message_exists db (Message.id m)) eqn:E; [|reflexivity].
    apply message_exists_In in E. destruct E as (m' & Hm' & Hid).
    exfalso. exact (Hfresh m m' Hm Hm' (Logic.eq_sym Hid)). }
  assert (Hfk : forallb (fun m => chat_exists db (Message.chatId m)) messages
                = true).
  { apply forallb_forall. intros m Hm. apply chat_exists_In.
    now apply Hchats. }
  rewrite Hnew, Hfk. reflexivity.
Qed.

(** X3. A batch of messages is accepted when it is not empty, its ids are
    pairwise different and taken by no stored message, and each message
    names a stored chat (the primary key and the foreign key of the
    message relation).  Then [saveMessages] returns; the messages of a
    chat are those it had together with the saved ones that carry its id;
    a chat that none of the saved messages names reads exactly as before;
    message ids stay unique, every message still names a stored chat, and
    the chats and votes are untouched.  Nothing is stored twice: saving
    the same batch again is rejected and changes nothing. *)
Theorem saveMessages_getMessagesByChatId (db : DB) (messages : list Message.t)
  (id : string)
  (Hsome : messages <> [])
  (Hdistinct : NoDup (map Message.id messages))
  (Hfresh : forall m m', In m messages -> In m' (message db) ->
                         Message.id m <> Message.id m')
  (Hchats : forall m, In m messages ->
              exists c, In c (chat db) /\ Chat.id c = Message.chatId m) :
  let db' := snd (saveMessages db messages) in
  fst (saveMessages db messages) = Returned tt /\
  (forall m, In m (getMessagesByChatId db' id) <->
             In m (getMessagesByChatId db id) \/
             (In m messages /\ Message.chatId m = id)) /\
  ((forall m, In m messages -> Message.chatId m <> id) ->
   getMessagesByChatId db' id = getMessagesByChatId db id) /\
  (message_pkey db -> message_pkey db') /\
  (message_chat_fkey db -> message_chat_fkey db') /\
  chat db' = chat db /\ vote db' = vote db /\
  saveMessages db' messages = (Thrown unique_violation, db').
Proof.
  intros db'. unfold db'.
  rewrite (saveMessages_accepts db messages Hdistinct Hfresh Hchats).
  cbn [fst snd]. split; [reflexivity|].
  split; [|split; [|split; [|split; [|split; [|split]]]]]; try reflexivity.
  - intros m.
    rewrite !getMessagesByChatId_In. simpl. rewrite in_app_iff. tauto.
  - intros Hother. unfold getMessagesByChatId, Drizzle.select_where,
      Drizzle.eq. simpl. rewrite filter_app.
    rewrite (filter_none _ messages), app_nil_r; [reflexivity|].
    intros m Hin. apply String.eqb_neq. now apply Hother.
  - unfold message_pkey. simpl.
    rewrite map_app. intros Hmk. apply NoDup_app; [exact Hmk|exact Hdistinct|].
    intros x Hold Hnew. apply in_map_iff in Hold, Hnew.
    destruct Hold as (m' & Hid' & Hin'). destruct Hnew as (m & Hid & Hin).
    apply (Hfresh m m' Hin Hin'). congruence.
  - unfold message_chat_fkey. simpl.
    intros Hfk m Hin. apply in_app_iff in Hin.
    destruct Hin as [Hin|Hin]; [now apply Hfk|now apply Hchats].
  - unfold saveMessages.
    replace (forallb _ messages) with false; [now rewrite andb_false_r|].
    symmetry. destruct messages as [|m0 rest]; [contradiction|].
    cbn [forallb]. replace (message_exists _ (Message.id m0)) with true;
      [reflexivity|].
    symmetry. apply message_exists_In. exists m0. simpl.
    split; [|reflexivity]. apply in_or_app. right. now left.
Qed.

Lemma saveMessages_getMessagesByChatId_witness :
  let added := Message.mk "m9" "a1" "user" "more" "" 130 in
  fst (saveMessages db_two_owners [added]) = Returned tt /\
  getMessagesByChatId (snd (saveMessages db_two_owners [added])) "b1"
  = getMessagesByChatId db_two_owners "b1".
Proof.
  intros added.
  assert (Hsome : [added] <> []) by discriminate.
  assert (Hdistinct : NoDup (map Message.id [added])).
  { simpl. constructor; [intros []|constructor]. }
  assert (Hfresh : forall m m', In m [added] -> In m' (message db_two_owners) ->
                                Message.id m <> Message.id m').
  { intros m m' [<-|[]] [<-|[<-|[<-|[]]]]; discriminate. }
  assert (Hchats : forall m, In m [added] ->
            exists c, In c (chat db_two_owners) /\ Chat.id c = Message.chatId m).
  { intros m [<-|[]]. exists chat_a1. simpl. auto. }
  assert (Hother : forall m, In m [added] -> Message.chatId m <> "b1").
  { intros m [<-|[]]. discriminate. }
  split.
  - exact (proj1 (saveMessages_getMessagesByChatId db_two_owners [added] "a1"
                    Hsome Hdistinct Hfresh Hchats)).
  - exact (proj1 (proj2 (proj2 (saveMessages_getMessagesByChatId db_two_owners
                    [added] "b1" Hsome Hdistinct Hfresh Hchats))) Hother).
Defined.

(** ** Looking a message up through its chat *)

Lemma first_map_firstn_1 {A B} (f : A -> B) (l : list A) :
  first (map f (firstn 1 l)) = option_map f (first l).
Proof. destruct l; reflexivity. Qed.

Lemma getMessageById_none_iff db id userId :
  getMessageById db id userId = None <->
  forall m c, In m (message db) -> In c (chat db) ->
              Message.chatId m = Chat.id c -> Message.id m = id ->
              Chat.userId c <> userId.
Proof.
  unfold getMessageById. rewrite first_map_firstn_1.
  destruct (first _) as [mc|] eqn:E; simpl.
  - split; [discriminate|]. intros H. exfalso.
    apply first_select_some in E. destruct E as [Hin Hcond].
    destruct mc as [m c]. apply innerJoin_In in Hin.
    destruct Hin as (Hm & Hc & Hon). apply andb_true_iff in Hcond.
    destruct Hcond as [Hid Hu]. apply String.eqb_eq in Hid, Hu, Hon.
    exact (H m c Hm Hc Hon Hid Hu).
  - split; [|reflexivity]. intros _ m c Hm Hc Hon Hid Hu.
    rewrite first_select_none in E.
    assert (Hin : In (m, c)
              (innerJoin (fun m c => Drizzle.eq (Message.chatId m) (Chat.id c))
                 (message db) (chat db))).
    { apply innerJoin_In. unfold Drizzle.eq. rewrite Hon, String.eqb_refl. auto. }
    specialize (E (m, c) Hin). simpl in E. unfold Drizzle.eq in E.
    rewrite Hid, Hu, !String.eqb_refl in E. discriminate.
Qed.

(** X4. With chat ids and message ids unique, a message stored in a
    chat is found by [getMessageById] for the owner of that chat, and for
    no other user; the join with the chat table is what hides it. *)
Theorem getMessageById_owner (db : DB) (m : Message.t) (c : Chat.t)
  (Hpk : chat_pkey db) (Hmk : message_pkey db)
  (Hm : In m (message db)) (Hc : In c (chat db))
  (Hchat : Message.chatId m = Chat.id c) :
  getMessageById db (Message.id m) (Chat.userId c) = Some m /\
  forall other, other <> Chat.userId c ->
    getMessageById db (Message.id m) other = None.
Proof.
  split.
  - destruct (getMessageById db (Message.id m) (Chat.userId c)) as [m'|] eqn:E.
    + apply getMessageById_some in E. destruct E as (Hin & Hid & _).
      f_equal. exact (NoDup_map_inj Message.id _ m' m Hmk Hin Hm Hid).
    + exfalso. rewrite getMessageById_none_iff in E.
      exact (E m c Hm Hc Hchat Logic.eq_refl Logic.eq_refl).
  - intros other Hother. apply getMessageById_none_iff.
    intros m' c' Hm' Hc' Hon Hid Hu.
    assert (m' = m) by exact (NoDup_map_inj Message.id _ m' m Hmk Hm' Hm Hid).
    subst m'.
    assert (c' = c).
    { apply (NoDup_map_inj Chat.id _ c' c Hpk Hc' Hc). congruence. }
    subst c'. congruence.
Qed.

Lemma getMessageById_owner_witness :
  getMessageById db_two_owners "m2" "alice" = Some msg_a1_2 /\
  getMessageById db_two_owners "m2" "bob" = None.
Proof.
  assert (Hpk : chat_pkey db_two_owners) by solve_pkey.
  assert (Hmk : message_pkey db_two_owners) by solve_pkey.
  assert (Hm : In msg_a1_2 (message db_two_owners)) by (simpl; auto).
  assert (Hc : In chat_a1 (chat db_two_owners)) by (simpl; auto).
  destruct (getMessageById_owner db_two_owners msg_a1_2 chat_a1 Hpk Hmk Hm Hc
              Logic.eq_refl) as [Hown Hother].
  split; [exact Hown|]. apply Hother. discriminate.
Defined.

(** ** Changing the visibility of a chat *)

Lemma filter_pkey {A} (f : A -> string) (p : A -> bool) (l : list A) (c : A) :
  NoDup (map f l) -> In c l -> p c = true ->
  (forall x, In x l -> p x = true -> f x = f c) ->
  filter p l = [c].
Proof.
  induction l as [|a l IH]; simpl; [intros _ []|].
  intros Hnd Hin Hpc Hkey. inversion Hnd as [|? ? Hnotin Hnd']; subst.
  destruct Hin as [->|Hin].
  - rewrite Hpc. f_equal. apply filter_none. intros x Hx.
    destruct (p x) eqn:Hpx; [|reflexivity]. exfalso. apply Hnotin.
    rewrite <- (Hkey x (or_intror Hx) Hpx). now apply in_map.
  - destruct (p a) eqn:Hpa.
    + exfalso. apply Hnotin.
      rewrite (Hkey a (or_introl Logic.eq_refl) Hpa). now apply in_map.
    + apply IH; auto.
Qed.

Lemma update_where_ids visibility p (rows : list Chat.t) :
  map Chat.id (Drizzle.update_where p (with_visibility visibility) rows)
  = map Chat.id rows.
Proof.
  unfold Drizzle.update_where. rewrite map_map. apply map_ext.
  intros c. now destruct (p c).
Qed.

Lemma update_where_idem {A} (p : A -> bool) (set : A -> A) (l : list A) :
  (forall x, p (set x) = p x) -> (forall x, set (set x) = set x) ->
  Drizzle.update_where p set (Drizzle.update_where p set l)
  = Drizzle.update_where p set l.
Proof.
  intros Hp Hset. unfold Drizzle.update_where. rewrite map_map.
  apply map_ext. intros x. destruct (p x) eqn:Hx.
  - now rewrite Hp, Hx, Hset.
  - now rewrite Hx.
Qed.

(** X5. For the owner of a stored chat (chat ids unique),
    [updateChatVisiblityById] returns the one updated row, after which the
    chat reads back with the new visibility and otherwise unchanged; every
    chat with another id is left as it was, the chat ids stay the same,
    and setting the same visibility again changes nothing more. *)
Theorem updateChatVisiblityById_owner (db : DB) (c : Chat.t)
  (visibility : Visibility)
  (Hpk : chat_pkey db) (Hc : In c (chat db)) :
  let r := updateChatVisiblityById db (Chat.id c) visibility (Chat.userId c) in
  fst r = [with_visibility visibility c] /\
  getChatById (snd r) (Chat.id c) (Chat.userId c)
  = Some (with_visibility visibility c) /\
  (forall c', In c' (chat db) -> Chat.id c' <> Chat.id c -> In c' (chat (snd r))) /\
  map Chat.id (chat (snd r)) = map Chat.id (chat db) /\
  chat_pkey (snd r) /\
  message (snd r) = message db /\ vote (snd r) = vote db /\
  snd (updateChatVisiblityById (snd r) (Chat.id c) visibility (Chat.userId c))
  = snd r.
Proof.
  intros r.
  set (cond := fun x : Chat.t =>
         Drizzle.eq (Chat.id x) (Chat.id c)
         && Drizzle.eq (Chat.userId x) (Chat.userId c)).
  assert (Hcond : cond c = true).
  { unfold cond, Drizzle.eq. now rewrite !String.eqb_refl. }
  assert (Hkey : forall (l : list Chat.t) x, In x l -> cond x = true ->
                                             Chat.id x = Chat.id c).
  { intros l x _ Hx. unfold cond in Hx. apply andb_true_iff in Hx.
    now apply String.eqb_eq. }
  assert (Hchat : chat (snd r)
            = Drizzle.update_where cond (with_visibility visibility) (chat db))
    by reflexivity.
  assert (Hids : map Chat.id (chat (snd r)) = map Chat.id (chat db)).
  { rewrite Hchat. apply update_where_ids. }
  assert (Hpk' : chat_pkey (snd r)).
  { unfold chat_pkey. now rewrite Hids. }
  assert (Hin' : In (with_visibility visibility c) (chat (snd r))).
  { rewrite Hchat. unfold Drizzle.update_where. apply in_map_iff.
    exists c. now rewrite Hcond. }
  split; [|split; [|split; [|split; [|split; [|split; [|split]]]]]]; auto.
  - unfold r, updateChatVisiblityById. simpl. fold cond.
    unfold Drizzle.select_where.
    now rewrite (filter_pkey Chat.id cond (chat db) c Hpk Hc Hcond (Hkey _)).
  - exact (getChatById_owner (snd r) (with_visibility visibility c) Hpk' Hin').
  - intros c' Hc' Hneq. rewrite Hchat. unfold Drizzle.update_where.
    apply in_map_iff. exists c'. split; [|exact Hc'].
    unfold cond, Drizzle.eq.
    destruct (String.eqb_spec (Chat.id c') (Chat.id c)); [contradiction|].
    reflexivity.
  - unfold r, updateChatVisiblityById, set_chat. simpl. fold cond.
    fold (with_visibility visibility).
    rewrite update_where_idem; [reflexivity| |]; intros x; reflexivity.
Qed.

Lemma updateChatVisiblityById_owner_witness :
  getChatById
    (snd (updateChatVisiblityById db_two_owners "a1" public "alice")) "a1" "alice"
  = Some (Chat.mk "a1" 100 "alice" "Alice's chat" public).
Proof.
  assert (Hpk : chat_pkey db_two_owners) by solve_pkey.
  assert (Hc : In chat_a1 (chat db_two_owners)) by (simpl; auto).
  exact (proj1 (proj2 (updateChatVisiblityById_owner
                         db_two_owners chat_a1 public Hpk Hc))).
Defined.

(** ** Deleting a chat, again *)

Lemma filter_idem {A} (p : A -> bool) (l : list A) :
  filter p (filter p l) = filter p l.
Proof.
  apply filter_all. intros r Hr. now apply filter_In in Hr.
Qed.

Lemma NoDup_map_filter {R K} (key : R -> K) (keep : R -> bool)
  (rows : list R) (Hkeys : NoDup (map key rows)) :
  NoDup (map key (filter keep rows)).
Proof.
  revert Hkeys. induction rows as [|row rows IH]; simpl; [auto|].
  intros Hkeys. inversion Hkeys as [|? ? Hfresh Hrest]; subst.
  destruct (keep row); simpl; [|auto]. constructor; [|auto].
  intros Hin. apply Hfresh. apply in_map_iff in Hin.
  destruct Hin as (x & Hx & Hin). apply filter_In in Hin.
  apply in_map_iff. exists x. tauto.
Qed.

Lemma votes_in_message_chat_incl db db' :
  incl (vote db') (vote db) -> incl (message db') (message db) ->
  votes_in_message_chat db -> votes_in_message_chat db'.
Proof.
  intros Hv Hm Hfiled v m Hinv Hinm. apply Hfiled; auto.
Qed.

Lemma db_two_owners_votes_filed : votes_in_message_chat db_two_owners.
Proof.
  intros v m Hv Hm Hid. simpl in Hv, Hm.
  destruct Hv as [<-|[<-|[]]]; destruct Hm as [<-|[<-|[<-|[]]]];
    simpl in *; congruence.
Qed.

(** X6. Where every vote is filed under the chat of its message,
    [deleteChatById] returns, having removed the chat, its messages and
    its votes and nothing else.  Afterwards the chat is unknown to every
    user, reads of its votes and of its messages are empty, and (message
    ids unique) no id of one of its former messages is found; deleting it
    again returns and changes nothing; unique chat ids and message ids
    stay unique and votes stay filed under the chat of their message. *)
Theorem deleteChatById_then_read (db : DB) (id : string)
  (Hfiled : votes_in_message_chat db) :
  let db' := snd (deleteChatById db id) in
  deleteChatById db id = (Returned tt, chat_removed db id) /\
  (forall userId, getChatById db' id userId = None) /\
  getVotesByChatId db' id = [] /\
  getMessagesByChatId db' id = [] /\
  (message_pkey db ->
   forall m userId, In m (message db) -> Message.chatId m = id ->
     getMessageById db' (Message.id m) userId = None) /\
  deleteChatById db' id = (Returned tt, db') /\
  (chat_pkey db -> chat_pkey db') /\
  (message_pkey db -> message_pkey db') /\
  votes_in_message_chat db'.
Proof.
  intros db'. unfold db'. rewrite (deleteChatById_returns db id Hfiled).
  cbn [snd].
  assert (Hfiled' : votes_in_message_chat (chat_removed db id)).
  { apply (votes_in_message_chat_incl db); [| |exact Hfiled];
      unfold chat_removed; simpl; apply incl_filter. }
  split; [reflexivity|].
  split; [|split; [|split; [|split; [|split; [|split; [|split]]]]]].
  - intros userId. apply getChatById_none. intros c Hin Hid.
    unfold chat_removed in Hin. simpl in Hin. apply filter_In in Hin.
    destruct Hin as [_ Hneq]. apply eqb_negb_neq in Hneq. contradiction.
  - unfold getVotesByChatId, Drizzle.select_where. apply filter_none.
    intros v Hin. unfold chat_removed in Hin. simpl in Hin.
    apply filter_In in Hin. now apply negb_true_iff.
  - unfold getMessagesByChatId, Drizzle.select_where.
    rewrite filter_none; [reflexivity|].
    intros m Hin. unfold chat_removed in Hin. simpl in Hin.
    apply filter_In in Hin. now apply negb_true_iff.
  - intros Hmk m userId Hin Hchat. apply getMessageById_none.
    intros m' Hin' Hid. unfold chat_removed in Hin'. simpl in Hin'.
    apply filter_In in Hin'. destruct Hin' as [Hin' Hneq].
    apply eqb_negb_neq in Hneq.
    assert (m' = m) by exact (NoDup_map_inj Message.id _ m' m Hmk Hin' Hin Hid).
    subst m'. contradiction.
  - rewrite (deleteChatById_returns _ id Hfiled'). f_equal.
    unfold chat_removed. simpl. now rewrite !filter_idem.
  - unfold chat_pkey, chat_removed. simpl. apply NoDup_map_filter.
  - unfold message_pkey, chat_removed. simpl. apply NoDup_map_filter.
  - exact Hfiled'.
Qed.

Lemma deleteChatById_then_read_witness :
  deleteChatById db_two_owners "a1"
  = (Returned tt, chat_removed db_two_owners "a1") /\
  getMessagesByChatId (snd (deleteChatById db_two_owners "a1")) "a1" = [].
Proof.
  assert (Hfiled : votes_in_message_chat db_two_owners)
    by exact db_two_owners_votes_filed.
  split.
  - exact (proj1 (deleteChatById_then_read db_two_owners "a1" Hfiled)).
  - exact (proj1 (proj2 (proj2 (proj2
             (deleteChatById_then_read db_two_owners "a1" Hfiled))))).
Defined.

(** ** Truncation, again *)

Lemma getChatById_same_chats db1 db2 id userId :
  chat db1 = chat db2 -> getChatById db1 id userId = getChatById db2 id userId.
Proof. intros H. unfold getChatById. now rewrite H. Qed.

(** The tables after a truncation by the owner, where every vote is filed
    under the chat of its message. *)
Lemma truncated_tables db chatId timestamp userId c :
  message_pkey db -> votes_in_message_chat db ->
  getChatById db chatId userId = Some c ->
  let r := deleteMessagesByChatIdAfterTimestamp db chatId timestamp userId in
  fst r = Returned tt /\
  message (snd r)
  = filter (fun m => negb (after_timestamp chatId timestamp m)) (message db) /\
  vote (snd r)
  = filter (fun v => negb (String.eqb (Vote.chatId v) chatId
                           && Drizzle.inArray (Vote.messageId v)
                                (messageIds db chatId timestamp)))
      (vote db) /\
  chat (snd r) = chat db.
Proof.
  intros Hmk Hfiled Hc r.
  destruct (deleteMessagesByChatIdAfterTimestamp_tables
              db chatId timestamp userId c Hc Hfiled)
    as (Hret & Hmsg & Hvote & Hchat & _).
  fold r in Hret, Hmsg, Hvote, Hchat.
  split; [exact Hret|]. split; [|split; [exact Hvote|exact Hchat]].
  rewrite Hmsg. unfold Drizzle.delete_where. apply filter_ext_in.
  intros m Hin. rewrite (messageIds_own db chatId timestamp m Hmk Hin).
  unfold after_timestamp, Drizzle.eq.
  now destruct (String.eqb (Message.chatId m) chatId).
Qed.

(** A vote on a message selected for deletion is filed under the chat
    that is truncated. *)
Lemma filed_votes_of_deleted db chatId timestamp v :
  votes_in_message_chat db -> In v (vote db) ->
  String.eqb (Vote.chatId v) chatId
  && Drizzle.inArray (Vote.messageId v) (messageIds db chatId timestamp)
  = Drizzle.inArray (Vote.messageId v) (messageIds db chatId timestamp).
Proof.
  intros Hfiled Hv.
  destruct (Drizzle.inArray (Vote.messageId v) (messageIds db chatId timestamp))
    eqn:E; [|apply andb_false_r].
  apply inArray_In, messageIds_In in E. destruct E as (m & Hm & Hid & Hsel).
  unfold after_timestamp in Hsel. apply andb_true_iff in Hsel.
  destruct Hsel as [Hchat _]. apply String.eqb_eq in Hchat.
  rewrite <- (Hfiled v m Hv Hm Hid), Hchat. now rewrite String.eqb_refl.
Qed.

Lemma filter_filter {A} (p q : A -> bool) (l : list A) :
  filter p (filter q l) = filter (fun x => q x && p x) l.
Proof.
  induction l as [|a l IH]; simpl; [reflexivity|].
  destruct (q a); simpl; [destruct (p a)|]; now rewrite ?IH.
Qed.

(** X7. The owner truncates a chat at [timestamp]; chat and message ids
    are unique and every vote is filed under the chat of its message.
    The call returns.  It removes exactly the chat's messages created at
    or after [timestamp] and exactly the votes on those messages, and
    keeps every other message and vote.  Every message the chat still has
    is older than [timestamp]; ids stay unique and votes stay filed under
    the chat of their message; truncating again at the same timestamp
    returns without changing the database; truncating afterwards at an
    earlier timestamp leaves the messages that a single truncation at the
    earlier timestamp leaves. *)
Theorem deleteMessagesByChatIdAfterTimestamp_again
  (db : DB) (c : Chat.t) (timestamp : Z)
  (Hpk : chat_pkey db) (Hmk : message_pkey db)
  (Hfiled : votes_in_message_chat db) (Hc : In c (chat db)) :
  let truncate := fun d t =>
    deleteMessagesByChatIdAfterTimestamp d (Chat.id c) t (Chat.userId c) in
  let db1 := snd (truncate db timestamp) in
  fst (truncate db timestamp) = Returned tt /\
  message db1
  = filter (fun m => negb (after_timestamp (Chat.id c) timestamp m))
      (message db) /\
  vote db1
  = filter (fun v => negb (Drizzle.inArray (Vote.messageId v)
                             (messageIds db (Chat.id c) timestamp)))
      (vote db) /\
  (forall m, In m (getMessagesByChatId db1 (Chat.id c)) ->
             Message.createdAt m < timestamp) /\
  message_pkey db1 /\ chat_pkey db1 /\ votes_in_message_chat db1 /\
  truncate db1 timestamp = (Returned tt, db1) /\
  (forall earlier, earlier <= timestamp ->
     fst (truncate db1 earlier) = Returned tt /\
     message (snd (truncate db1 earlier)) = message (snd (truncate db earlier))).
Proof.
  intros truncate db1.
  pose proof (getChatById_owner db c Hpk Hc) as Hown.
  destruct (truncated_tables db (Chat.id c) timestamp (Chat.userId c) c
              Hmk Hfiled Hown) as (Hret & Hmsg & Hvote & Hchat).
  fold (truncate db timestamp) in Hret, Hmsg, Hvote, Hchat.
  fold db1 in Hmsg, Hvote, Hchat.
  assert (Hmk1 : message_pkey db1).
  { unfold message_pkey. rewrite Hmsg. now apply NoDup_map_filter. }
  assert (Hown1 : getChatById db1 (Chat.id c) (Chat.userId c) = Some c).
  { now rewrite (getChatById_same_chats db1 db _ _ Hchat). }
  assert (Hfiled1 : votes_in_message_chat db1).
  { apply (votes_in_message_chat_incl db); [| |exact Hfiled].
    - rewrite Hvote. apply incl_filter.
    - rewrite Hmsg. apply incl_filter. }
  split; [exact Hret|]. split; [exact Hmsg|].
  split; [|split; [|split; [exact Hmk1|split; [|split; [exact Hfiled1|split]]]]].
  - rewrite Hvote. apply filter_ext_in. intros v Hv.
    now rewrite (filed_votes_of_deleted db (Chat.id c) timestamp v Hfiled Hv).
  - intros m Hin. apply getMessagesByChatId_In in Hin.
    destruct Hin as [Hin Hid]. rewrite Hmsg in Hin. apply filter_In in Hin.
    destruct Hin as [_ Hold]. unfold after_timestamp in Hold.
    rewrite Hid, String.eqb_refl in Hold. simpl in Hold.
    apply negb_true_iff, Z.leb_gt in Hold. exact Hold.
  - unfold chat_pkey. now rewrite Hchat.
  - unfold truncate, deleteMessagesByChatIdAfterTimestamp. rewrite Hown1.
    rewrite String.eqb_refl. simpl negb. cbv iota.
    replace (Drizzle.select_where _ (message db1)) with (@nil Message.t);
      [reflexivity|].
    symmetry. unfold Drizzle.select_where. apply filter_none.
    intros m Hin. rewrite Hmsg in Hin. apply filter_In in Hin.
    destruct Hin as [_ Hold]. apply negb_true_iff in Hold. exact Hold.
  - intros earlier Hle.
    destruct (truncated_tables db1 (Chat.id c) earlier (Chat.userId c) c
                Hmk1 Hfiled1 Hown1) as (Hret1 & Hmsg1 & _).
    destruct (truncated_tables db (Chat.id c) earlier (Chat.userId c) c
                Hmk Hfiled Hown) as (_ & Hmsg0 & _).
    split; [exact Hret1|]. unfold truncate. rewrite Hmsg1, Hmsg0, Hmsg.
    rewrite filter_filter. apply filter_ext. intros m. unfold after_timestamp.
    destruct (String.eqb (Message.chatId m) (Chat.id c)); simpl; [|reflexivity].
    destruct (Z.leb_spec timestamp (Message.createdAt m));
      destruct (Z.leb_spec earlier (Message.createdAt m)); simpl; try reflexivity.
    lia.
Qed.

Lemma deleteMessagesByChatIdAfterTimestamp_again_witness :
  let db1 :=
    snd (deleteMessagesByChatIdAfterTimestamp db_two_owners "a1" 120 "alice") in
  fst (deleteMessagesByChatIdAfterTimestamp db_two_owners "a1" 120 "alice")
  = Returned tt /\
  deleteMessagesByChatIdAfterTimestamp db1 "a1" 120 "alice" = (Returned tt, db1).
Proof.
  assert (Hpk : chat_pkey db_two_owners) by solve_pkey.
  assert (Hmk : message_pkey db_two_owners) by solve_pkey.
  assert (Hfiled : votes_in_message_chat db_two_owners)
    by exact db_two_owners_votes_filed.
  assert (Hc : In chat_a1 (chat db_two_owners)) by (simpl; auto).
  destruct (deleteMessagesByChatIdAfterTimestamp_again
              db_two_owners chat_a1 120 Hpk Hmk Hfiled Hc)
    as (Hret & _ & _ & _ & _ & _ & _ & Hagain & _).
  split; [exact Hret|exact Hagain].
Defined.

(** ** actions.ts *)

(** X8. [deleteTrailingMessages] for a message id that the caller cannot
    see (no such message, or a message of somebody else's chat) reads
    [message.chatId] of [undefined]: it throws a TypeError and the
    database is unchanged.  An unauthenticated call throws Unauthorized. *)
Theorem deleteTrailingMessages_unknown (authUserId : option string)
  (db : DB) (id userId : string)
  (Hauth : given authUserId = Some userId)
  (Hnone : getMessageById db id userId = None) :
  deleteTrailingMessages authUserId db id
  = (Thrown "TypeError: Cannot read properties of undefined (reading 'chatId')",
     db) /\
  deleteTrailingMessages None db id = (Thrown "Unauthorized", db) /\
  deleteTrailingMessages (Some "") db id = (Thrown "Unauthorized", db).
Proof.
  unfold deleteTrailingMessages. rewrite Hauth, Hnone. repeat split.
Qed.

Lemma deleteTrailingMessages_unknown_witness :
  deleteTrailingMessages (Some "bob") db_two_owners "m2"
  = (Thrown "TypeError: Cannot read properties of undefined (reading 'chatId')",
     db_two_owners).
Proof.
  exact (proj1 (deleteTrailingMessages_unknown (Some "bob") db_two_owners
                  "m2" "bob" Logic.eq_refl Logic.eq_refl)).
Defined.

(** X9. [deleteTrailingMessages] on a message of a chat the caller owns
    (chat and message ids unique, every vote filed under the chat of its
    message) returns; it removes that message and
    every message of the chat created at or after it, keeps the chat's
    earlier messages and the messages of other chats, and afterwards the
    message id is no longer found. *)
Theorem deleteTrailingMessages_owner (authUserId : option string) (db : DB)
  (m : Message.t) (c : Chat.t)
  (Hpk : chat_pkey db) (Hmk : message_pkey db)
  (Hfiled : votes_in_message_chat db)
  (Hm : In m (message db)) (Hc : In c (chat db))
  (Hchat : Message.chatId m = Chat.id c)
  (Hauth : given authUserId = Some (Chat.userId c)) :
  let r := deleteTrailingMessages authUserId db (Message.id m) in
  fst r = Returned tt /\
  message (snd r)
  = filter (fun m' => negb (after_timestamp (Message.chatId m)
                              (Message.createdAt m) m'))
      (message db) /\
  ~ In m (message (snd r)) /\
  (forall m', In m' (message db) ->
     Message.chatId m' <> Message.chatId m \/
     Message.createdAt m' < Message.createdAt m ->
     In m' (message (snd r))) /\
  (forall userId, getMessageById (snd r) (Message.id m) userId = None).
Proof.
  intros r.
  assert (Hfound : getMessageById db (Message.id m) (Chat.userId c) = Some m).
  { destruct (getMessageById db (Message.id m) (Chat.userId c)) as [m'|] eqn:E.
    - apply getMessageById_some in E. destruct E as (Hin & Hid & _).
      f_equal. exact (NoDup_map_inj Message.id _ m' m Hmk Hin Hm Hid).
    - exfalso. rewrite getMessageById_none_iff in E.
      exact (E m c Hm Hc Hchat Logic.eq_refl Logic.eq_refl). }
  pose proof (getChatById_owner db c Hpk Hc) as Hown.
  assert (Hr : r = deleteMessagesByChatIdAfterTimestamp db (Message.chatId m)
                     (Message.createdAt m) (Chat.userId c)).
  { unfold r, deleteTrailingMessages. now rewrite Hauth, Hfound. }
  rewrite <- Hchat in Hown.
  destruct (truncated_tables db (Message.chatId m) (Message.createdAt m)
              (Chat.userId c) c Hmk Hfiled Hown) as (Hret & Hmsg & _).
  rewrite <- Hr in Hret, Hmsg.
  assert (Hgone : ~ In m (message (snd r))).
  { rewrite Hmsg. intros Hin. apply filter_In in Hin. destruct Hin as [_ Hneg].
    unfold after_timestamp in Hneg. rewrite String.eqb_refl in Hneg.
    simpl in Hneg. apply negb_true_iff, Z.leb_gt in Hneg. lia. }
  split; [exact Hret|]. split; [exact Hmsg|]. split; [exact Hgone|]. split.
  - intros m' Hin Hkeep. rewrite Hmsg. apply filter_In. split; [exact Hin|].
    apply negb_true_iff. unfold after_timestamp. apply andb_false_iff.
    destruct Hkeep as [Hother|Hearly].
    + left. now apply String.eqb_neq.
    + right. now apply Z.leb_gt.
  - intros userId. apply getMessageById_none. intros m' Hin Hid.
    assert (Hin0 : In m' (message db)).
    { rewrite Hmsg in Hin. now apply filter_In in Hin. }
    assert (m' = m) by exact (NoDup_map_inj Message.id _ m' m Hmk Hin0 Hm Hid).
    subst m'. contradiction.
Qed.

Lemma deleteTrailingMessages_owner_witness :
  deleteTrailingMessages (Some "alice") db_two_owners "m1"
  = (Returned tt,
     mkDB (user db_two_owners) [chat_a1; chat_b1] [msg_b1_1]
       [Vote.mk "b1" "m3" false] [] []) /\
  ~ In msg_a1_1
      (message (snd (deleteTrailingMessages (Some "alice") db_two_owners "m1"))).
Proof.
  split; [reflexivity|].
  assert (Hpk : chat_pkey db_two_owners) by solve_pkey.
  assert (Hmk : message_pkey db_two_owners) by solve_pkey.
  assert (Hfiled : votes_in_message_chat db_two_owners)
    by exact db_two_owners_votes_filed.
  assert (Hm : In msg_a1_1 (message db_two_owners)) by (simpl; auto).
  assert (Hc : In chat_a1 (chat db_two_owners)) by (simpl; auto).
  exact (proj1 (proj2 (proj2 (deleteTrailingMessages_owner (Some "alice")
    db_two_owners msg_a1_1 chat_a1 Hpk Hmk Hfiled Hm Hc Logic.eq_refl
    Logic.eq_refl)))).
Defined.

(** X10. [updateChatVisibility] reports nothing to a caller who does not
    own the chat (or names a chat that does not exist): it returns
    normally and the database is unchanged.  Only an unauthenticated call
    throws. *)
Theorem updateChatVisibility_non_owner (authUserId : option string) (db : DB)
  (chatId userId : string) (visibility : Visibility)
  (Hauth : given authUserId = Some userId)
  (Hnone : getChatById db chatId userId = None) :
  updateChatVisibility authUserId db chatId visibility = (Returned tt, db) /\
  updateChatVisibility None db chatId visibility = (Thrown "Unauthorized", db).
Proof.
  unfold updateChatVisibility. rewrite Hauth.
  rewrite (updateChatVisiblityById_non_owner db chatId visibility userId Hnone).
  split; reflexivity.
Qed.

Lemma updateChatVisibility_non_owner_witness :
  updateChatVisibility (Some "bob") db_two_owners "a1" public
  = (Returned tt, db_two_owners).
Proof.
  exact (proj1 (updateChatVisibility_non_owner (Some "bob") db_two_owners
                  "a1" "bob" public Logic.eq_refl Logic.eq_refl)).
Defined.

(** ** Voting, again *)

(** X11. Whatever its arguments, [voteMessage] changes no table but the
    vote table, never removes a vote row, adds at most one, leaves every
    vote on another message or of another chat as it is, and changes
    nothing at all when it throws. *)
Theorem voteMessage_frame (db : DB) (chatId messageId : string)
  (type : VoteType) (userId : string) :
  let r := voteMessage db chatId messageId type userId in
  chat (snd r) = chat db /\ message (snd r) = message db /\
  user (snd r) = user db /\ document (snd r) = document db /\
  suggestion (snd r) = suggestion db /\
  (List.length (vote db) <= List.length (vote (snd r))
   <= List.length (vote db) + 1)%nat /\
  (forall v, In v (vote db) ->
     Vote.messageId v <> messageId \/ Vote.chatId v <> chatId ->
     In v (vote (snd r))) /\
  (forall msg, fst r = Thrown msg -> snd r = db).
Proof.
  intros r. unfold r.
  destruct (getChatById db chatId userId) as [c|] eqn:Hc.
  - rewrite (voteMessage_verified _ _ _ _ _ _ Hc).
    destruct (first _) as [existing|]; simpl.
    + repeat (split; [reflexivity|]). split; [|split].
      * unfold Drizzle.update_where. rewrite length_map. lia.
      * intros v Hin Hother. unfold Drizzle.update_where. apply in_map_iff.
        exists v. split; [|exact Hin]. unfold Drizzle.eq.
        destruct Hother as [Hm|Hch].
        -- apply String.eqb_neq in Hm. now rewrite Hm.
        -- apply String.eqb_neq in Hch. now rewrite Hch, andb_false_r.
      * discriminate.
    + destruct (message_exists db messageId); simpl.
      * repeat (split; [reflexivity|]). split; [|split].
        -- unfold Drizzle.insert. rewrite length_app. simpl. lia.
        -- intros v Hin _. unfold Drizzle.insert. apply in_or_app. now left.
        -- discriminate.
      * repeat (split; [reflexivity|]). split; [lia|]. split; auto.
  - rewrite (voteMessage_not_found _ _ _ _ _ Hc). simpl.
    repeat (split; [reflexivity|]). split; [lia|]. split; auto.
Qed.

(** X12. [PATCH /api/vote] with all three fields and an authenticated
    caller.  For a chat the caller does not own (or that does not exist)
    it answers 404 and changes nothing.  For a chat the caller owns and a
    message id that a stored message has it answers 200 and the database
    is what [voteMessage] leaves.  For a chat the caller owns and a
    message id that no message and no vote has, the insert is rejected by
    the vote's foreign key, the handler's [catch] logs, and the handler
    returns no response at all, the database unchanged.  A request lacking
    a field is answered 400 before authentication is looked at. *)
Theorem vote_PATCH_result (authUserId chatId messageId type : option string)
  (db : DB) (chatId' messageId' type' userId : string)
  (Hchat : given chatId = Some chatId')
  (Hmessage : given messageId = Some messageId')
  (Htype : given type = Some type')
  (Hauth : given authUserId = Some userId) :
  (getChatById db chatId' userId = None ->
   vote_PATCH authUserId chatId messageId type db
   = (Some (response (text "Chat not found") 404), db)) /\
  (forall c, getChatById db chatId' userId = Some c ->
     message_exists db messageId' = true ->
     vote_PATCH authUserId chatId messageId type db
     = (Some (response no_body 200),
        snd (voteMessage db chatId' messageId' (vote_type_of type') userId))) /\
  (forall c, getChatById db chatId' userId = Some c ->
     message_exists db messageId' = false ->
     (forall v, In v (vote db) -> Vote.messageId v <> messageId') ->
     vote_PATCH authUserId chatId messageId type db = (None, db)) /\
  (forall anyone, vote_PATCH anyone None messageId type db
     = (Some (response (text "messageId and type are required") 400), db)) /\
  (forall anyone, vote_PATCH anyone chatId None type db
     = (Some (response (text "messageId and type are required") 400), db)) /\
  (forall anyone, vote_PATCH anyone chatId messageId None db
     = (Some (response (text "messageId and type are required") 400), db)).
Proof.
  split; [|split; [|split; [|split; [|split]]]].
  - intros Hc. unfold vote_PATCH. rewrite Hchat, Hmessage, Htype, Hauth.
    now rewrite Hc.
  - intros c Hc Hexists. unfold vote_PATCH.
    rewrite Hchat, Hmessage, Htype, Hauth, Hc.
    rewrite (voteMessage_verified _ _ _ _ _ _ Hc), Hexists.
    apply getChatById_some in Hc. destruct Hc as (_ & _ & Hu).
    rewrite Hu, String.eqb_refl. simpl. now destruct (first _).
  - intros c Hc Hmissing Hnovote. unfold vote_PATCH.
    rewrite Hchat, Hmessage, Htype, Hauth, Hc.
    rewrite (voteMessage_verified _ _ _ _ _ _ Hc), Hmissing.
    apply getChatById_some in Hc. destruct Hc as (_ & _ & Hu).
    rewrite Hu, String.eqb_refl. simpl.
    unfold Drizzle.select_where. rewrite filter_none; [reflexivity|].
    intros v Hv. apply String.eqb_neq. now apply Hnovote.
  - intros anyone. unfold vote_PATCH. reflexivity.
  - intros anyone. unfold vote_PATCH. rewrite Hchat. reflexivity.
  - intros anyone. unfold vote_PATCH. rewrite Hchat, Hmessage. reflexivity.
Qed.

Lemma vote_PATCH_result_witness :
  vote_PATCH (Some "bob") (Some "a1") (Some "m1") (Some "up") db_two_owners
  = (Some (response (text "Chat not found") 404), db_two_owners) /\
  vote_PATCH (Some "alice") (Some "a1") (Some "m1") (Some "up") db_two_owners
  = (Some (response no_body 200),
     snd (voteMessage db_two_owners "a1" "m1" up "alice")) /\
  vote_PATCH (Some "alice") (Some "a1") (Some "zz") (Some "up") db_two_owners
  = (None, db_two_owners).
Proof.
  assert (Hnovote : forall v, In v (vote db_two_owners) ->
                              Vote.messageId v <> "zz").
  { intros v [<-|[<-|[]]]; discriminate. }
  split; [|split].
  - exact (proj1 (vote_PATCH_result (Some "bob") (Some "a1") (Some "m1")
            (Some "up") db_two_owners "a1" "m1" "up" "bob"
            Logic.eq_refl Logic.eq_refl Logic.eq_refl Logic.eq_refl)
            Logic.eq_refl).
  - exact (proj1 (proj2 (vote_PATCH_result (Some "alice") (Some "a1")
            (Some "m1") (Some "up") db_two_owners "a1" "m1" "up" "alice"
            Logic.eq_refl Logic.eq_refl Logic.eq_refl Logic.eq_refl))
            chat_a1 Logic.eq_refl Logic.eq_refl).
  - exact (proj1 (proj2 (proj2 (vote_PATCH_result (Some "alice") (Some "a1")
            (Some "zz") (Some "up") db_two_owners "a1" "zz" "up" "alice"
            Logic.eq_refl Logic.eq_refl Logic.eq_refl Logic.eq_refl)))
            chat_a1 Logic.eq_refl Logic.eq_refl Hnovote).
Defined.

(** ** Suggestions *)

(** X13. [GET /api/suggestions] for an authenticated caller always
    answers 200 with the list that [getSuggestionsByDocumentId] yields
    (its empty-list branch returns the same list): the empty list when
    the caller does not own the document, exactly as for an owned
    document without suggestions, and for the owner every stored
    suggestion of that document id, of whatever revision or author.  The
    server action [getSuggestions] yields the same list. *)
Theorem suggestions_GET_result (authUserId documentId : option string)
  (db : DB) (documentId' userId : string)
  (Hdoc : given documentId = Some documentId')
  (Hauth : given authUserId = Some userId) :
  suggestions_GET authUserId documentId db
  = suggestions_json (getSuggestionsByDocumentId db documentId' userId) 200 /\
  getSuggestions authUserId db documentId'
  = Returned (getSuggestionsByDocumentId db documentId' userId) /\
  (getDocumentById db documentId' userId = None ->
   getSuggestionsByDocumentId db documentId' userId = []) /\
  (getDocumentById db documentId' userId <> None ->
   forall s, In s (getSuggestionsByDocumentId db documentId' userId) <->
             In s (suggestion db) /\ Suggestion.documentId s = documentId').
Proof.
  split; [|split; [|split]].
  - unfold suggestions_GET. rewrite Hdoc, Hauth. cbv zeta.
    destruct (getSuggestionsByDocumentId db documentId' userId); reflexivity.
  - unfold getSuggestions. now rewrite Hauth.
  - intros Hnone. unfold getSuggestionsByDocumentId. now rewrite Hnone.
  - intros Hsome s. unfold getSuggestionsByDocumentId.
    destruct (getDocumentById db documentId' userId); [|contradiction].
    unfold Drizzle.select_where, Drizzle.eq. rewrite filter_In.
    now rewrite String.eqb_eq.
Qed.

Lemma suggestions_GET_result_witness :
  suggestions_GET (Some "bob") (Some "d1") db_documents = suggestions_json [] 200 /\
  suggestions_GET (Some "alice") (Some "d1") db_documents
  = suggestions_json [sugg_d1_v2] 200.
Proof.
  split.
  - exact (proj1 (suggestions_GET_result (Some "bob") (Some "d1") db_documents
                    "d1" "bob" Logic.eq_refl Logic.eq_refl)).
  - exact (proj1 (suggestions_GET_result (Some "alice") (Some "d1") db_documents
                    "d1" "alice" Logic.eq_refl Logic.eq_refl)).
Defined.

(** ** Document revisions *)




Lemma filter_partition_perm {A} (p : A -> bool) (l : list A) :
  Permutation l (filter p l ++ filter (fun x => negb (p x)) l).
Proof.
  induction l as [|a l IH]; simpl; [constructor|].
  destruct (p a); simpl.
  - now constructor.
  - apply Permutation_cons_app. exact IH.
Qed.

(** X15. For every caller, [deleteDocumentsByIdAfterTimestamp] returns
    exactly the revisions it removes: those with the given id, the
    caller's user id and a later [createdAt]; no such revision is left, a
    second call finds nothing more to delete in either table, and if every
    suggestion referred to a stored revision before, it does afterwards. *)
Theorem deleteDocumentsByIdAfterTimestamp_returning (db : DB) (id : string)
  (timestamp : Z) (userId : string) :
  let r := deleteDocumentsByIdAfterTimestamp db id timestamp userId in
  Permutation (document db) (fst r ++ document (snd r)) /\
  (forall d, In d (fst r) <->
     In d (document db) /\ Document.id d = id /\ Document.userId d = userId /\
     timestamp < Document.createdAt d) /\
  (forall d, In d (document (snd r)) ->
     ~ (Document.id d = id /\ Document.userId d = userId /\
        timestamp < Document.createdAt d)) /\
  deleteDocumentsByIdAfterTimestamp (snd r) id timestamp userId = ([], snd r) /\
  (suggestion_fkey db -> suggestion_fkey (snd r)).
Proof.
  intros r.
  set (cond := fun d : Document.t =>
         Drizzle.eq (Document.id d) id && Drizzle.eq (Document.userId d) userId
         && Drizzle.gt (Document.createdAt d) timestamp).
  assert (Hcond : forall d, cond d = true <->
            Document.id d = id /\ Document.userId d = userId /\
            timestamp < Document.createdAt d).
  { intros d. unfold cond, Drizzle.eq, Drizzle.gt.
    rewrite !andb_true_iff, !String.eqb_eq, Z.ltb_lt. tauto. }
  assert (Hfst : fst r = filter cond (document db)) by reflexivity.
  assert (Hdoc : document (snd r) = filter (fun d => negb (cond d)) (document db))
    by reflexivity.
  split; [|split; [|split; [|split]]].
  - rewrite Hfst, Hdoc. apply filter_partition_perm.
  - intros d. rewrite Hfst, filter_In, Hcond. tauto.
  - intros d Hin Hd. rewrite Hdoc in Hin. apply filter_In in Hin.
    destruct Hin as [_ Hneg]. apply Hcond in Hd. rewrite Hd in Hneg.
    discriminate.
  - unfold deleteDocumentsByIdAfterTimestamp at 1. fold cond. f_equal.
    + unfold Drizzle.select_where. apply filter_none. intros d Hin.
      simpl in Hin. unfold Drizzle.delete_where in Hin.
      apply filter_In in Hin. now apply negb_true_iff.
    + unfold r, deleteDocumentsByIdAfterTimestamp, Drizzle.delete_where,
        set_document, set_suggestion. simpl. fold cond.
      now rewrite !filter_idem.
  - intros Hfk s Hs. unfold r, deleteDocumentsByIdAfterTimestamp in Hs.
    simpl in Hs. unfold Drizzle.delete_where in Hs. apply filter_In in Hs.
    destruct Hs as [Hs Hkeep]. destruct (Hfk s Hs) as (d & Hd & Hid & Hat).
    exists d. split; [|split; assumption].
    rewrite Hdoc. apply filter_In. split; [exact Hd|].
    apply negb_true_iff. apply negb_true_iff in Hkeep.
    unfold cond. unfold Drizzle.eq, Drizzle.gt in *.
    rewrite Hid, Hat.
    destruct (String.eqb (Suggestion.documentId s) id); simpl in *;
      [|reflexivity].
    rewrite Hkeep. now rewrite andb_false_r.
Qed.

(** ** Referential integrity under the manual cascades *)

Lemma cascade_blocked_iff db id :
  cascade_blocked db id = true <->
  exists m v, In m (message db) /\ In v (vote db) /\
              Message.chatId m = id /\ Vote.messageId v = Message.id m /\
              Vote.chatId v <> id.
Proof.
  unfold cascade_blocked. rewrite existsb_exists. split.
  - intros (m & Hm & Hcond). apply andb_true_iff in Hcond.
    destruct Hcond as [Hchat Hvotes]. apply existsb_exists in Hvotes.
    destruct Hvotes as (v & Hv & Hcond). apply andb_true_iff in Hcond.
    destruct Hcond as [Hother Hon]. exists m, v.
    apply String.eqb_eq in Hchat, Hon. apply eqb_negb_neq in Hother. auto.
  - intros (m & v & Hm & Hv & Hchat & Hon & Hother). exists m.
    split; [exact Hm|]. apply andb_true_iff. split; [now apply String.eqb_eq|].
    apply existsb_exists. exists v. split; [exact Hv|].
    apply andb_true_iff. split; [now apply eqb_negb_neq|now apply String.eqb_eq].
Qed.

(** X16. [deleteChatById] is rejected exactly when a vote filed under
    another chat is on one of the chat's messages.  Its three deletes are
    not one transaction: when it is rejected the chat's own votes are
    already gone, while the chat and every message are still stored.
    When it returns, the chat, its messages and its votes are gone and
    nothing else.  Either way every message and vote that remains is
    still attached to a stored chat and every vote that remains to a
    stored message. *)
Theorem deleteChatById_integrity (db : DB) (id : string) :
  let r := deleteChatById db id in
  (fst r = Thrown foreign_key_violation <->
   exists m v, In m (message db) /\ In v (vote db) /\
               Message.chatId m = id /\ Vote.messageId v = Message.id m /\
               Vote.chatId v <> id) /\
  (fst r = Thrown foreign_key_violation -> snd r = votes_removed db id) /\
  (fst r <> Thrown foreign_key_violation ->
   r = (Returned tt, chat_removed db id)) /\
  (message_chat_fkey db -> message_chat_fkey (snd r)) /\
  (vote_chat_fkey db -> vote_chat_fkey (snd r)) /\
  (vote_message_fkey db -> vote_message_fkey (snd r)).
Proof.
  intros r. unfold r. rewrite deleteChatById_outcome.
  rewrite <- cascade_blocked_iff.
  destruct (cascade_blocked db id) eqn:Hblocked; cbn [fst snd].
  - split; [tauto|]. split; [reflexivity|]. split; [congruence|].
    split; [intros Hfk; exact Hfk|]. split.
    + intros Hfk v Hv. simpl in Hv. apply filter_In in Hv. now apply Hfk.
    + intros Hfk v Hv. simpl in Hv. apply filter_In in Hv. now apply Hfk.
  - split; [split; discriminate|]. split; [discriminate|].
    split; [reflexivity|].
    assert (Hchat : forall c, In c (chat db) -> Chat.id c <> id ->
                              In c (chat (chat_removed db id))).
    { intros c Hin Hneq. simpl. apply filter_In. now rewrite eqb_negb_neq. }
    assert (Hmsg : forall m, In m (message (chat_removed db id)) <->
                             In m (message db) /\ Message.chatId m <> id).
    { intros m. simpl. now rewrite filter_In, eqb_negb_neq. }
    assert (Hvote : forall v, In v (vote (chat_removed db id)) <->
                              In v (vote db) /\ Vote.chatId v <> id).
    { intros v. simpl. now rewrite filter_In, eqb_negb_neq. }
    split; [|split].
    + intros Hfk m Hm. apply Hmsg in Hm. destruct Hm as [Hm Hneq].
      destruct (Hfk m Hm) as (c & Hc & Hid). exists c. split; [|exact Hid].
      apply Hchat; congruence.
    + intros Hfk v Hv. apply Hvote in Hv. destruct Hv as [Hv Hneq].
      destruct (Hfk v Hv) as (c & Hc & Hid). exists c. split; [|exact Hid].
      apply Hchat; congruence.
    + intros Hfk v Hv. apply Hvote in Hv. destruct Hv as [Hv Hneq].
      destruct (Hfk v Hv) as (m & Hm & Hid). exists m. split; [|exact Hid].
      apply Hmsg. split; [exact Hm|]. intros Hchat'.
      assert (Htrue : cascade_blocked db id = true).
      { apply cascade_blocked_iff. exists m, v. auto. }
      congruence.
Qed.

Lemma deleteChatById_integrity_witness :
  snd (deleteChatById db_foreign_vote "b1") = votes_removed db_foreign_vote "b1" /\
  deleteChatById db_two_owners "a1"
  = (Returned tt, chat_removed db_two_owners "a1").
Proof.
  split.
  - exact (proj1 (proj2 (deleteChatById_integrity db_foreign_vote "b1"))
             Logic.eq_refl).
  - assert (Hreturned : fst (deleteChatById db_two_owners "a1")
                        <> Thrown foreign_key_violation) by discriminate.
    exact (proj1 (proj2 (proj2 (deleteChatById_integrity db_two_owners "a1")))
             Hreturned).
Defined.

(** ** The text document handler *)





Example drain_mixed_stream :
  drain [Delta.mk "step-start" ""; Delta.mk "text-delta" "Hello";
         Delta.mk "tool-call" "x"; Delta.mk "text-delta" ", world"]
  = ("Hello, world",
     [mkDataPart "text-delta" "Hello"; mkDataPart "text-delta" ", world"]).
Proof. reflexivity. Qed.

(** ** The chat page *)

(** X18. The chat page is rendered only for the user who owns the chat:
    any other signed-in user gets [notFound], also when the chat's
    visibility is [public] (chat ids unique), and a visitor who is not
    signed in is redirected to sign-in.  When the page is rendered,
    [isReadonly] is false, the visibility shown is the stored one and the
    initial messages are those of [getMessagesByChatId], in its order. *)
Theorem Page_owner_only (DEFAULT_CHAT_MODEL : string)
  (authUserId chatModelFromCookie : option string) (db : DB) (chatId : string) :
  (forall id initialMessages model visibility isReadonly,
     Page DEFAULT_CHAT_MODEL authUserId chatModelFromCookie db chatId
     = page_chat id initialMessages model visibility isReadonly ->
     isReadonly = false /\ id = chatId /\
     initialMessages = convertToUIMessages (getMessagesByChatId db chatId) /\
     map PageMessage.id initialMessages
     = map Message.id (getMessagesByChatId db chatId) /\
     exists userId c,
       given authUserId = Some userId /\
       getChatById db chatId userId = Some c /\ Chat.userId c = userId /\
       visibility = Chat.visibility c) /\
  (forall userId c,
     given authUserId = Some userId -> chat_pkey db -> In c (chat db) ->
     Chat.id c = chatId -> Chat.visibility c = public ->
     userId <> Chat.userId c ->
     Page DEFAULT_CHAT_MODEL authUserId chatModelFromCookie db chatId
     = page_notFound) /\
  (given authUserId = None ->
   Page DEFAULT_CHAT_MODEL authUserId chatModelFromCookie db chatId
   = page_redirect ("/sign-in?redirect_url=/chat/" ++ chatId)%string).
Proof.
  split; [|split].
  - intros id msgs model vis ro. unfold Page.
    destruct (given authUserId) as [userId|] eqn:Hauth; [|discriminate].
    destruct (getChatById db chatId userId) as [c|] eqn:Hc; [|discriminate].
    intros [= <- <- <- <- <-].
    pose proof (getChatById_some _ _ _ _ Hc) as (_ & _ & Hu).
    rewrite Hu, String.eqb_refl. split; [reflexivity|].
    split; [reflexivity|]. split; [reflexivity|]. split.
    + unfold convertToUIMessages. rewrite map_map. reflexivity.
    + exists userId, c. auto.
  - intros userId c Hauth Hpk Hin Hid _ Hneq. unfold Page. rewrite Hauth.
    subst chatId. now rewrite (getChatById_not_owner db c userId Hpk Hin Hneq).
  - intros Hauth. unfold Page. now rewrite Hauth.
Qed.

Example Page_public_chat_of_another_user :
  let db := snd (updateChatVisiblityById db_two_owners "a1" public "alice") in
  Page "chat-model" (Some "bob") None db "a1" = page_notFound /\
  Page "chat-model" (Some "alice") None db "a1"
  = page_chat "a1"
      [PageMessage.mk "m1" "hi" "user" "" 110 "";
       PageMessage.mk "m2" "hello" "assistant" "" 120 ""]
      "chat-model" public false.
Proof. split; reflexivity. Qed.

(** * Further properties of the route handlers *)

Lemma grows_refl {A} n (l : list A) : grows n l l.
Proof. exists []. rewrite app_nil_r. split; [reflexivity|simpl; lia]. Qed.

Lemma grows_one {A} n (l : list A) x : grows (S n) l (l ++ [x]).
Proof. exists [x]. split; [reflexivity|simpl; lia]. Qed.

Lemma grows_two {A} n (l : list A) x y : grows (S (S n)) l ((l ++ [x]) ++ [y]).
Proof. exists [x; y]. rewrite <- app_assoc. split; [reflexivity|simpl; lia]. Qed.

Section Handlers.

Local Arguments getChatById : simpl never.
Local Arguments given : simpl never.
Local Arguments truthy : simpl never.
Local Arguments getUserById : simpl never.
Local Arguments deleteChatById : simpl never.
Local Arguments deleteChatById_statements : simpl never.
Local Arguments getVotesByChatId : simpl never.

Ltac unfold_routes :=
  unfold POST, DELETE, vote_GET, handler, try_catch, POST_body,
    createDataStreamResponse, streamText, onFinish, connect_mcp,
    close_mcpClient, jit_sync, await, reading, writing, try_catch, bindM,
    emit, ret, throw, return_, set_mcpClient, get_mcpClient, start, trace,
    createClerkUser, saveChat, saveMessages, Drizzle.insert.

(** X19. The chat POST handler never lets an error escape: whatever the
    identity provider, storage, tool process and model do, it returns a
    response, which is the data stream with status 200 or a plain answer
    with status 400, 401 or 500. *)
Theorem POST_always_responds (env : Env) (request : Request) (db : DB) :
  exists r,
    fst (POST env request (start db)) = Returned r /\
    ((status r = 200 /\ body r = data_stream) \/
     ((status r = 400 \/ status r = 401 \/ status r = 500) /\
      body r <> data_stream)).
Proof.
  unfold_routes. repeat (simpl; case_split); simpl; eexists;
    (split; [reflexivity|]); simpl;
    first [ left; split; reflexivity
          | right; split; [auto|discriminate] ].
Qed.

(** X20. What the chat POST handler itself writes: it only ever adds
    rows to the user, chat and message tables, at most one user, one chat
    and two messages, and it leaves the vote table as it is.  (The
    document and suggestion tables are written by the tools that the model
    may call during the stream; the statement does not speak of them.) *)
Theorem POST_only_adds (env : Env) (request : Request) (db : DB) :
  let db' := store (snd (POST env request (start db))) in
  grows 1 (user db) (user db') /\
  grows 1 (chat db) (chat db') /\
  grows 2 (message db) (message db') /\
  vote db' = vote db.
Proof.
  unfold_routes. repeat (simpl; case_split); simpl;
    repeat split; auto using grows_refl, grows_one, grows_two.
Qed.

Lemma getUserById_some_In d userId u :
  getUserById d userId = Some u -> In u (user d) /\ User.id u = userId.
Proof.
  unfold getUserById. rewrite first_firstn_1. intros H.
  apply first_select_some in H. destruct H as [Hin Hid].
  now apply String.eqb_eq in Hid.
Qed.

Lemma getUserById_known d userId u :
  In u (user d) -> User.id u = userId -> getUserById d userId <> None.
Proof.
  intros Hin Hid H. unfold getUserById in H.
  rewrite first_firstn_1, first_select_none in H.
  specialize (H u Hin). unfold Drizzle.eq in H.
  rewrite Hid, String.eqb_refl in H. discriminate.
Qed.

Lemma deleteChatById_user message_ok chat_ok db id :
  user (snd (deleteChatById_statements message_ok chat_ok db id)) = user db.
Proof.
  rewrite deleteChatById_statements_outcome.
  now destruct message_ok, chat_ok, (cascade_blocked db id).
Qed.

Lemma getUserById_same_users d1 d2 userId :
  user d1 = user d2 -> getUserById d1 userId = getUserById d2 userId.
Proof. intros H. unfold getUserById. now rewrite H. Qed.

(** The user table after a case analysis on [deleteChatById]. *)
Ltac deleted_users :=
  repeat match goal with
         | H : deleteChatById_statements ?a ?b ?d ?i = (_, ?d') |- _ =>
             let Hu := fresh "Husers" in
             pose proof (deleteChatById_user a b d i) as Hu;
             rewrite H in Hu; cbn [snd] in Hu; clear H;
             try rewrite (getUserById_same_users d' d _ Hu)
         end.

(** X21. Whenever the chat POST handler answers with the data stream, or
    the DELETE handler answers 200, the caller has a row in the local user
    table afterwards: the just-in-time synchronisation has either found
    it or inserted it under the caller's id. *)
Theorem handlers_sync_user (env : Env) (db : DB) (userId : string)
  (Hauth : given (auth env) = Some userId) :
  (forall request r,
     fst (POST env request (start db)) = Returned r -> status r = 200 ->
     getUserById (store (snd (POST env request (start db)))) userId <> None) /\
  (forall id r,
     fst (DELETE env id (start db)) = Returned r -> status r = 200 ->
     getUserById (store (snd (DELETE env id (start db)))) userId <> None).
Proof.
  split.
  - intros request r. unfold_routes. rewrite Hauth.
    repeat (simpl; case_split); simpl; intros [= <-]; try discriminate;
      intros _;
      first
        [ match goal with
          | H : getUserById _ _ = Some ?u |- _ =>
              apply getUserById_some_In in H; destruct H as [Hin Hid];
              apply (getUserById_known _ _ u); [exact Hin|exact Hid]
          end
        | eapply getUserById_known;
          [simpl; apply in_or_app; right; left; reflexivity|reflexivity] ].
  - intros id r. unfold_routes. rewrite Hauth.
    repeat (simpl; case_split); simpl; intros [= <-]; try discriminate;
      intros _; deleted_users;
      first
        [ match goal with
          | H : getUserById _ _ = Some ?u |- _ =>
              apply getUserById_some_In in H; destruct H as [Hin Hid];
              apply (getUserById_known _ _ u); [exact Hin|exact Hid]
          end
        | eapply getUserById_known;
          [simpl; apply in_or_app; right; left; reflexivity|reflexivity] ].
Qed.

Lemma handlers_sync_user_witness :
  getUserById
    (store (snd (POST (env_as "carol") request_hello (start db_two_owners))))
    "carol"
  <> None.
Proof.
  apply (proj1 (handlers_sync_user (env_as "carol") db_two_owners "carol"
                  Logic.eq_refl)
           request_hello (response data_stream 200));
    reflexivity.
Defined.

Lemma occurs_true_In e tr : occurs e tr = true -> In e tr.
Proof.
  unfold occurs. rewrite existsb_exists. intros (x & Hin & Hx).
  destruct (Event_eq_dec x e); [now subst|discriminate].
Qed.

Lemma POST_mcp_checked env request db :
  let tr := trace (snd (POST env request (start db))) in
  precedesb mcp_opened mcp_closed false tr
  && (negb (occurs mcp_opened tr) || occurs mcp_closed tr
      || match model_ending env with errored => true | _ => false end)
  && implb (occurs mcp_opened tr)
       match MCP_SERVER_SCRIPT_PATH env with Some _ => true | None => false end
  = true.
Proof.
  unfold_routes. repeat (simpl; case_split); reflexivity.
Qed.

(** X22. In every run of the chat POST handler the remote tool client is
    closed only after it was opened, and it is opened only when a server
    script path is configured; if it was opened and the stream finishes
    or the request is aborted, it is closed. *)
Theorem POST_mcp_lifecycle (env : Env) (request : Request) (db : DB) :
  let tr := trace (snd (POST env request (start db))) in
  precedes mcp_opened mcp_closed tr /\
  (In mcp_opened tr -> MCP_SERVER_SCRIPT_PATH env <> None) /\
  (model_ending env <> errored -> In mcp_opened tr -> In mcp_closed tr).
Proof.
  intros tr. pose proof (POST_mcp_checked env request db) as H.
  cbv zeta in H. fold tr in H. rewrite !andb_true_iff in H.
  destruct H as [[Hprec Hclosed] Hpath].
  split; [now apply precedesb_precedes|]. split.
  - intros Hopen. apply occurs_In in Hopen. rewrite Hopen in Hpath.
    simpl in Hpath. now destruct (MCP_SERVER_SCRIPT_PATH env).
  - intros Hend Hopen. apply occurs_In in Hopen. rewrite Hopen in Hclosed.
    simpl in Hclosed. apply orb_true_iff in Hclosed.
    destruct Hclosed as [Hc|Hc]; [now apply occurs_true_In|].
    destruct (model_ending env); try discriminate. contradiction.
Qed.

(** X23. [DELETE /api/chat] by the owner of the chat, known locally and
    with storage working, leaves the database as [deleteChatById] leaves
    it.  Where no vote filed under another chat is on one of the chat's
    messages (as when every vote is filed under the chat of its message)
    it answers 200 "Chat deleted" and the chat, its messages and its
    votes are gone.  Where there is such a vote, [deleteChatById] throws,
    the handler answers 500 and only the chat's own votes are gone. *)
Theorem DELETE_owner_deletes (env : Env) (db : DB) (id userId : string)
  (c : Chat.t)
  (Hid : given (Some id) = Some id)
  (Hauth : given (auth env) = Some userId)
  (Hstorage : forall s, storage_ok env s = true)
  (Hknown : getUserById db userId <> None)
  (Hown : getChatById db id userId = Some c) :
  store (snd (DELETE env (Some id) (start db))) = snd (deleteChatById db id) /\
  (cascade_blocked db id = false ->
   fst (DELETE env (Some id) (start db))
   = Returned (response (text "Chat deleted") 200) /\
   store (snd (DELETE env (Some id) (start db))) = chat_removed db id) /\
  (votes_in_message_chat db -> cascade_blocked db id = false) /\
  (cascade_blocked db id = true ->
   fst (DELETE env (Some id) (start db))
   = Returned (response
                 (text "An error occurred while processing your request!") 500) /\
   store (snd (DELETE env (Some id) (start db))) = votes_removed db id).
Proof.
  unfold_routes. rewrite Hid, Hauth. simpl. rewrite !Hstorage. simpl.
  destruct (getUserById db userId) as [u|]; [|contradiction]. simpl.
  rewrite Hown. simpl.
  change (deleteChatById_statements true true db id)
    with (deleteChatById db id).
  rewrite deleteChatById_outcome.
  split; [|split; [|split; [apply cascade_blocked_false|]]];
    destruct (cascade_blocked db id); simpl; try discriminate;
    try reflexivity; intros _; split; reflexivity.
Qed.

Lemma DELETE_owner_deletes_witness :
  store (snd (DELETE env_happy (Some "a1") (start db_two_owners)))
  = snd (deleteChatById db_two_owners "a1") /\
  fst (DELETE env_happy (Some "a1") (start db_two_owners))
  = Returned (response (text "Chat deleted") 200).
Proof.
  assert (Hknown : getUserById db_two_owners "alice" <> None) by discriminate.
  split.
  - exact (proj1 (DELETE_owner_deletes env_happy db_two_owners "a1" "alice"
                    chat_a1 Logic.eq_refl Logic.eq_refl (fun _ => Logic.eq_refl)
                    Hknown Logic.eq_refl)).
  - exact (proj1 (proj1 (proj2 (DELETE_owner_deletes env_happy db_two_owners
                    "a1" "alice" chat_a1 Logic.eq_refl Logic.eq_refl
                    (fun _ => Logic.eq_refl) Hknown Logic.eq_refl))
                    Logic.eq_refl)).
Defined.



Example DELETE_interrupted :
  DELETE env_chat_delete_fails (Some "a1") (start db_two_owners)
  = (Returned (response
                 (text "An error occurred while processing your request!") 500),
     mkWorld (mkDB (user db_two_owners) [chat_a1; chat_b1] [msg_b1_1]
                [Vote.mk "b1" "m3" false] [] [])
       false
       [rejected at_deleteChatById; called at_deleteChatById;
        resolved at_getChatById; called at_getChatById;
        resolved at_getUserById; called at_getUserById]).
Proof. reflexivity. Qed.



End Handlers.

(** * Walking the chat history page by page *)

Lemma page_of_bound db id N sa eb bound :
  0 <= N -> page_bound db sa eb bound ->
  let sorted := Drizzle.orderBy_desc Chat.createdAt (matching db id bound) in
  getChatsByUserId db id N sa eb
  = Returned (mkChatPage (firstn (Z.to_nat N) sorted)
                (N <? Z.of_nat (List.length sorted))).
Proof.
  intros HN Hb sorted. unfold getChatsByUserId.
  rewrite (filteredChats_bound db id N sa eb bound HN Hb). fold sorted. simpl.
  set (rows := firstn (Z.to_nat (N + 1)) sorted).
  assert (Hlen : List.length rows
                 = Nat.min (Z.to_nat (N + 1)) (List.length sorted))
    by apply length_firstn.
  f_equal.
  destruct (Z.ltb_spec N (Z.of_nat (List.length rows))) as [Hlt|Hge].
  - f_equal.
    + rewrite slice0_firstn by exact HN. unfold rows. rewrite firstn_firstn.
      f_equal. lia.
    + symmetry. apply Z.ltb_lt. lia.
  - assert (Hall : (List.length sorted <= Z.to_nat N)%nat) by lia.
    f_equal.
    + unfold rows. rewrite !firstn_all2 by lia. reflexivity.
    + symmetry. apply Z.ltb_ge. lia.
Qed.

Lemma desc_by_head_max {A} (key : A -> Z) (y : A) (l : list A) :
  Sorted (desc_by key) (y :: l) -> forall z, In z l -> key z <= key y.
Proof.
  intros Hs. apply Sorted_StronglySorted in Hs.
  - inversion Hs as [|? ? _ Hall]; subst.
    rewrite Forall_forall in Hall. exact Hall.
  - intros a b c Hab Hbc. unfold desc_by in *. lia.
Qed.

Lemma insert_desc_filter {A} (key : A -> Z) (p : A -> bool) (x : A) (s : list A) :
  Sorted (desc_by key) s ->
  filter p (Drizzle.insert_desc key x s)
  = if p x then Drizzle.insert_desc key x (filter p s) else filter p s.
Proof.
  induction s as [|y s IH]; intros Hs; simpl.
  - now destruct (p x).
  - assert (Hs' : Sorted (desc_by key) s) by now inversion Hs.
    destruct (Z.ltb_spec (key x) (key y)) as [Hlt|Hge]; simpl.
    + rewrite (IH Hs'). destruct (p y), (p x); simpl; try reflexivity.
      destruct (Z.ltb_spec (key x) (key y)); [reflexivity|lia].
    + destruct (p x) eqn:Hpx; [|reflexivity].
      destruct (p y) eqn:Hpy; simpl.
      * destruct (Z.ltb_spec (key x) (key y)); [lia|reflexivity].
      * destruct (filter p s) as [|z rest] eqn:Hf; simpl; [reflexivity|].
        assert (Hz : In z s).
        { assert (In z (filter p s)) by (rewrite Hf; now left).
          now apply filter_In in H. }
        pose proof (desc_by_head_max key y s Hs z Hz).
        destruct (Z.ltb_spec (key x) (key z)); [lia|reflexivity].
Qed.

Lemma orderBy_desc_filter {A} (key : A -> Z) (p : A -> bool) (l : list A) :
  Drizzle.orderBy_desc key (filter p l) = filter p (Drizzle.orderBy_desc key l).
Proof.
  induction l as [|x l IH]; simpl; [reflexivity|].
  rewrite insert_desc_filter by apply orderBy_desc_sorted.
  destruct (p x); simpl; now rewrite IH.
Qed.

Lemma filter_older_than {A} (key : A -> Z) (pre rest : list A) (c : A) :
  Sorted (desc_by key) (pre ++ c :: rest) ->
  NoDup (map key (pre ++ c :: rest)) ->
  filter (fun x => key x <? key c) (pre ++ c :: rest) = rest.
Proof.
  induction pre as [|a pre IH]; simpl; intros Hs Hnd.
  - rewrite Z.ltb_irrefl. apply filter_all. intros z Hz.
    pose proof (desc_by_head_max key c rest Hs z Hz) as Hle.
    inversion Hnd as [|? ? Hnotin _]; subst.
    apply Z.ltb_lt. assert (key z <> key c); [|lia].
    intros Heq. apply Hnotin. rewrite <- Heq. now apply in_map.
  - assert (Hc : key c <= key a).
    { apply (desc_by_head_max key a (pre ++ c :: rest) Hs).
      apply in_or_app. right. now left. }
    destruct (Z.ltb_spec (key a) (key c)); [lia|].
    apply IH; [now inversion Hs|now inversion Hnd].
Qed.

Lemma firstn_add {A} (n m : nat) (l : list A) :
  firstn (n + m) l = firstn n l ++ firstn m (skipn n l).
Proof.
  revert l. induction n as [|n IH]; intros l; simpl; [reflexivity|].
  destruct l as [|a l]; simpl.
  - now rewrite firstn_nil.
  - now rewrite IH.
Qed.

Lemma matching_bound db id bound :
  matching db id bound = filter bound (matching db id (fun _ => true)).
Proof.
  unfold matching. rewrite filter_filter. apply filter_ext. intros c. simpl.
  apply andb_comm.
Qed.

(** X26. Paging backwards with [endingBefore].  Let a user's chats have
    pairwise different [createdAt] (and chat ids be unique).  If the
    first page of [N > 0] chats, fetched without a cursor, ends with chat
    [c], then the page fetched with [endingBefore = c.id] holds the next
    [N] chats of the user's newest-first list: the two pages together are
    its first [2N] chats, nothing skipped and nothing repeated, and
    [hasMore] tells whether the list goes on after them. *)
Theorem getChatsByUserId_next_page (db : DB) (id : string) (N : Z)
  (page1 : ChatPage) (pre : list Chat.t) (c : Chat.t)
  (HN : 0 < N) (Hpk : chat_pkey db)
  (Hcursor : given (Some (Chat.id c)) = Some (Chat.id c))
  (Hdistinct : NoDup (map Chat.createdAt (matching db id (fun _ => true))))
  (Hpage1 : getChatsByUserId db id N None None = Returned page1)
  (Hlast : chats page1 = pre ++ [c]) :
  let sorted :=
    Drizzle.orderBy_desc Chat.createdAt (matching db id (fun _ => true)) in
  exists page2,
    getChatsByUserId db id N None (Some (Chat.id c)) = Returned page2 /\
    chats page2 = firstn (Z.to_nat N) (skipn (Z.to_nat N) sorted) /\
    chats page1 ++ chats page2 = firstn (Z.to_nat N + Z.to_nat N) sorted /\
    (hasMore page2 = true <-> 2 * N < Z.of_nat (List.length sorted)).
Proof.
  intros sorted.
  assert (H1 : getChatsByUserId db id N None None
               = Returned (mkChatPage (firstn (Z.to_nat N) sorted)
                             (N <? Z.of_nat (List.length sorted)))).
  { apply (page_of_bound db id N None None (fun _ => true)); [lia|].
    apply bound_none; reflexivity. }
  rewrite H1 in Hpage1. injection Hpage1 as <-. simpl in Hlast.
  set (rest := skipn (Z.to_nat N) sorted).
  assert (Hsplit : sorted = pre ++ c :: rest).
  { rewrite <- (firstn_skipn (Z.to_nat N) sorted) at 1. fold rest.
    rewrite Hlast, <- app_assoc. reflexivity. }
  assert (Hin : In c (chat db)).
  { assert (Hc : In c sorted) by (rewrite Hsplit; apply in_or_app; right; now left).
    apply orderBy_desc_In in Hc. unfold matching in Hc.
    now apply filter_In in Hc. }
  assert (Hsel : selectedChat db (Chat.id c) = Some c)
    by exact (selectedChat_row db c Hpk Hin).
  set (bound := fun r : Chat.t => Chat.createdAt r <? Chat.createdAt c).
  assert (Hb : page_bound db None (Some (Chat.id c)) bound).
  { exact (bound_before db None (Some (Chat.id c)) (Chat.id c) c
             Logic.eq_refl Hcursor Hsel). }
  assert (Hsorted2 :
    Drizzle.orderBy_desc Chat.createdAt (matching db id bound) = rest).
  { rewrite matching_bound, orderBy_desc_filter. fold sorted.
    rewrite Hsplit. apply filter_older_than.
    - rewrite <- Hsplit. apply orderBy_desc_sorted.
    - rewrite <- Hsplit.
      apply (Permutation_NoDup
               (l := map Chat.createdAt (matching db id (fun _ => true))));
        [|exact Hdistinct].
      apply Permutation_map, orderBy_desc_perm. }
  exists (mkChatPage (firstn (Z.to_nat N) rest)
            (N <? Z.of_nat (List.length rest))).
  split; [|split; [|split]].
  - rewrite (page_of_bound db id N None (Some (Chat.id c)) bound); [|lia|exact Hb].
    cbv zeta. now rewrite Hsorted2.
  - reflexivity.
  - simpl. now rewrite firstn_add.
  - cbn [hasMore]. rewrite Z.ltb_lt. unfold rest. rewrite length_skipn.
    lia.
Qed.

Lemma getChatsByUserId_next_page_witness :
  exists page2,
    getChatsByUserId db_three_chats "alice" 1 None (Some "c3") = Returned page2 /\
    chats page2 = [Chat.mk "c2" 20 "alice" "two" private] /\
    hasMore page2 = true.
Proof.
  assert (HN : 0 < 1) by lia.
  assert (Hpk : chat_pkey db_three_chats) by solve_pkey.
  assert (Hdistinct : NoDup (map Chat.createdAt
                               (matching db_three_chats "alice" (fun _ => true)))).
  { simpl. repeat (constructor; [simpl; intuition discriminate|]). constructor. }
  destruct (getChatsByUserId_next_page db_three_chats "alice" 1
              (mkChatPage [Chat.mk "c3" 30 "alice" "three" private] true)
              [] (Chat.mk "c3" 30 "alice" "three" private)
              HN Hpk Logic.eq_refl Hdistinct Logic.eq_refl Logic.eq_refl)
    as (page2 & Hret & Hchats & _ & Hmore).
  exists page2. split; [exact Hret|]. split; [exact Hchats|].
  apply Hmore. simpl. lia.
Defined.

Lemma filter_newer_than {A} (key : A -> Z) (pre rest : list A) (c : A) :
  Sorted (desc_by key) (pre ++ c :: rest) ->
  NoDup (map key (pre ++ c :: rest)) ->
  filter (fun x => key c <? key x) (pre ++ c :: rest) = pre.
Proof.
  induction pre as [|a pre IH]; simpl; intros Hs Hnd.
  - rewrite Z.ltb_irrefl. apply filter_none. intros z Hz.
    pose proof (desc_by_head_max key c rest Hs z Hz) as Hle.
    apply Z.ltb_ge. exact Hle.
  - assert (Hc : key c <= key a).
    { apply (desc_by_head_max key a (pre ++ c :: rest) Hs).
      apply in_or_app. right. now left. }
    assert (Hneq : key a <> key c).
    { inversion Hnd as [|? ? Hnotin _]; subst. intros Heq. apply Hnotin.
      rewrite Heq. apply in_map. apply in_or_app. right. now left. }
    destruct (Z.ltb_spec (key c) (key a)); [|lia].
    f_equal. apply IH; [now inversion Hs|now inversion Hnd].
Qed.

(** X27. [startingAfter] does not continue from the cursor.  With
    pairwise different [createdAt] among a user's chats (chat ids
    unique) and the cursor [c] one of them, the page holds the [N] newest
    of the chats that are newer than [c], and [hasMore] tells whether
    more than [N] are newer; so whenever at least [N] chats are newer
    than the cursor, the page equals the first page fetched without a
    cursor. *)
Theorem getChatsByUserId_startingAfter (db : DB) (id : string) (N : Z)
  (endingBefore : option string) (pre rest : list Chat.t) (c : Chat.t)
  (HN : 0 <= N) (Hpk : chat_pkey db)
  (Hcursor : given (Some (Chat.id c)) = Some (Chat.id c))
  (Hdistinct : NoDup (map Chat.createdAt (matching db id (fun _ => true))))
  (Hsplit : Drizzle.orderBy_desc Chat.createdAt (matching db id (fun _ => true))
            = pre ++ c :: rest) :
  getChatsByUserId db id N (Some (Chat.id c)) endingBefore
  = Returned (mkChatPage (firstn (Z.to_nat N) pre)
                (N <? Z.of_nat (List.length pre))) /\
  ((Z.to_nat N <= List.length pre)%nat ->
   forall page page1,
     getChatsByUserId db id N (Some (Chat.id c)) endingBefore = Returned page ->
     getChatsByUserId db id N None None = Returned page1 ->
     chats page = chats page1).
Proof.
  set (sorted := Drizzle.orderBy_desc Chat.createdAt
                   (matching db id (fun _ => true))) in *.
  assert (Hin : In c (chat db)).
  { assert (Hc : In c sorted) by (rewrite Hsplit; apply in_or_app; right; now left).
    apply orderBy_desc_In in Hc. unfold matching in Hc.
    now apply filter_In in Hc. }
  assert (Hsel : selectedChat db (Chat.id c) = Some c)
    by exact (selectedChat_row db c Hpk Hin).
  set (bound := fun r : Chat.t => Chat.createdAt c <? Chat.createdAt r).
  assert (Hb : page_bound db (Some (Chat.id c)) endingBefore bound).
  { exact (bound_after db (Some (Chat.id c)) endingBefore (Chat.id c) c
             Hcursor Hsel). }
  assert (Hnewer :
    Drizzle.orderBy_desc Chat.createdAt (matching db id bound) = pre).
  { rewrite matching_bound, orderBy_desc_filter. fold sorted.
    rewrite Hsplit. apply filter_newer_than.
    - rewrite <- Hsplit. apply orderBy_desc_sorted.
    - rewrite <- Hsplit.
      apply (Permutation_NoDup
               (l := map Chat.createdAt (matching db id (fun _ => true))));
        [|exact Hdistinct].
      apply Permutation_map, orderBy_desc_perm. }
  assert (Hpage : getChatsByUserId db id N (Some (Chat.id c)) endingBefore
            = Returned (mkChatPage (firstn (Z.to_nat N) pre)
                          (N <? Z.of_nat (List.length pre)))).
  { rewrite (page_of_bound db id N (Some (Chat.id c)) endingBefore bound HN Hb).
    cbv zeta. now rewrite Hnewer. }
  split; [exact Hpage|].
  intros Hmany page page1 Hp Hp1. rewrite Hpage in Hp. injection Hp as <-.
  rewrite (page_of_bound db id N None None (fun _ => true) HN) in Hp1
    by (apply bound_none; reflexivity).
  injection Hp1 as <-. cbn [chats]. fold sorted. rewrite Hsplit.
  rewrite firstn_app.
  replace (Z.to_nat N - List.length pre)%nat with 0%nat by lia.
  simpl. now rewrite app_nil_r.
Qed.

Lemma getChatsByUserId_startingAfter_witness :
  getChatsByUserId db_three_chats "alice" 1 (Some "c1") None
  = Returned (mkChatPage [Chat.mk "c3" 30 "alice" "three" private] true).
Proof.
  assert (HN : 0 <= 1) by lia.
  assert (Hpk : chat_pkey db_three_chats) by solve_pkey.
  assert (Hdistinct : NoDup (map Chat.createdAt
                               (matching db_three_chats "alice" (fun _ => true)))).
  { simpl. repeat (constructor; [simpl; intuition discriminate|]). constructor. }
  exact (proj1 (getChatsByUserId_startingAfter db_three_chats "alice" 1 None
    [Chat.mk "c3" 30 "alice" "three" private; Chat.mk "c2" 20 "alice" "two" private]
    [] (Chat.mk "c1" 10 "alice" "one" private)
    HN Hpk Logic.eq_refl Hdistinct Logic.eq_refl)).
Defined.

(** * Further properties: integrity under truncation, repeated votes,
      the chat after a POST *)

(** X28. A truncation by the chat's owner (chat and message ids unique)
    keeps every remaining message and vote attached to a stored chat,
    and keeps every remaining vote attached to a stored message provided
    each vote is filed under the chat of its message. *)
Theorem deleteMessagesByChatIdAfterTimestamp_integrity
  (db : DB) (c : Chat.t) (timestamp : Z)
  (Hpk : chat_pkey db) (Hmk : message_pkey db) (Hc : In c (chat db))
  (Hfiled : votes_in_message_chat db) :
  let db1 :=
    snd (deleteMessagesByChatIdAfterTimestamp db (Chat.id c) timestamp
           (Chat.userId c)) in
  (message_chat_fkey db -> message_chat_fkey db1) /\
  (vote_chat_fkey db -> vote_chat_fkey db1) /\
  (vote_message_fkey db -> vote_message_fkey db1) /\
  votes_in_message_chat db1.
Proof.
  intros db1.
  pose proof (getChatById_owner db c Hpk Hc) as Hown.
  destruct (truncated_tables db (Chat.id c) timestamp (Chat.userId c) c Hmk
              Hfiled Hown)
    as (_ & Hmsg & Hvote & Hchat).
  fold db1 in Hmsg, Hvote, Hchat.
  assert (Hm_sub : forall m, In m (message db1) -> In m (message db)).
  { intros m Hin. rewrite Hmsg in Hin. now apply filter_In in Hin. }
  assert (Hv_sub : forall v, In v (vote db1) -> In v (vote db)).
  { intros v Hin. rewrite Hvote in Hin. now apply filter_In in Hin. }
  split; [|split; [|split]].
  - intros Hfk m Hin. rewrite Hchat. apply Hfk. now apply Hm_sub.
  - intros Hfk v Hin. rewrite Hchat. apply Hfk. now apply Hv_sub.
  - intros Hfk v Hin. destruct (Hfk v (Hv_sub v Hin)) as (m & Hm & Hid).
    exists m. split; [|exact Hid]. rewrite Hmsg. apply filter_In.
    split; [exact Hm|]. apply negb_true_iff.
    destruct (after_timestamp (Chat.id c) timestamp m) eqn:Hafter;
      [|reflexivity].
    exfalso. rewrite Hvote in Hin. apply filter_In in Hin.
    destruct Hin as [Hv Hkeep]. apply negb_true_iff in Hkeep.
    assert (Hchat_v : Vote.chatId v = Chat.id c).
    { rewrite <- (Hfiled v m Hv Hm Hid). unfold after_timestamp in Hafter.
      apply andb_true_iff in Hafter. destruct Hafter as [Hcid _].
      now apply String.eqb_eq. }
    assert (Hids : Drizzle.inArray (Vote.messageId v)
                     (messageIds db (Chat.id c) timestamp) = true).
    { apply inArray_In, messageIds_In. exists m. auto. }
    rewrite Hchat_v, String.eqb_refl, Hids in Hkeep. discriminate.
  - intros v m Hv Hm. apply Hfiled; [now apply Hv_sub|now apply Hm_sub].
Qed.

Lemma deleteMessagesByChatIdAfterTimestamp_integrity_witness :
  vote_message_fkey
    (snd (deleteMessagesByChatIdAfterTimestamp db_two_owners "a1" 120 "alice")).
Proof.
  assert (Hpk : chat_pkey db_two_owners) by solve_pkey.
  assert (Hmk : message_pkey db_two_owners) by solve_pkey.
  assert (Hc : In chat_a1 (chat db_two_owners)) by (simpl; auto).
  assert (Hfiled : votes_in_message_chat db_two_owners).
  { intros v m. simpl.
    intros [<-|[<-|[]]] [<-|[<-|[<-|[]]]]; simpl; congruence. }
  assert (Hfk : vote_message_fkey db_two_owners).
  { intros v. simpl. intros [<-|[<-|[]]].
    - exists msg_a1_2. simpl. auto.
    - exists msg_b1_1. simpl. auto. }
  exact (proj1 (proj2 (proj2 (deleteMessagesByChatIdAfterTimestamp_integrity
    db_two_owners chat_a1 120 Hpk Hmk Hc Hfiled))) Hfk).
Defined.

(** X29. Where a stored message has the message id, no other chat
    holds a vote on the message and the pair has at most one vote row,
    two votes in a row by the chat's owner both return and leave exactly one row for the pair, carrying the
    second direction; the vote table has grown by at most one row. *)
Theorem voteMessage_twice (db : DB) (chatId messageId userId : string)
  (first_type second_type : VoteType) (c : Chat.t)
  (Hown : getChatById db chatId userId = Some c)
  (Hstored : message_exists db messageId = true)
  (Hone : (List.length (votes_for db chatId messageId) <= 1)%nat)
  (Hforeign : forall v, In v (vote db) -> Vote.messageId v = messageId ->
                        Vote.chatId v = chatId) :
  let r1 := voteMessage db chatId messageId first_type userId in
  let r2 := voteMessage (snd r1) chatId messageId second_type userId in
  fst r1 = Returned tt /\ fst r2 = Returned tt /\
  votes_for (snd r2) chatId messageId
  = [Vote.mk chatId messageId (is_up second_type)] /\
  List.length (vote (snd r2)) = List.length (vote (snd r1)) /\
  (List.length (vote (snd r1)) <= List.length (vote db) + 1)%nat.
Proof.
  intros r1 r2.
  destruct (voteMessage_upsert db chatId messageId first_type userId c
              Hown Hstored Hone Hforeign)
    as (Hret1 & Hrow1 & (Hchat1 & Hmsg1) & Hforeign1).
  fold r1 in Hret1, Hrow1, Hchat1, Hmsg1, Hforeign1.
  assert (Hown1 : getChatById (snd r1) chatId userId = Some c).
  { now rewrite (getChatById_same_chats (snd r1) db _ _ Hchat1). }
  assert (Hstored1 : message_exists (snd r1) messageId = true).
  { unfold message_exists. now rewrite Hmsg1. }
  assert (Hone1 : (List.length (votes_for (snd r1) chatId messageId) <= 1)%nat).
  { rewrite Hrow1. simpl. lia. }
  destruct (voteMessage_upsert (snd r1) chatId messageId second_type userId c
              Hown1 Hstored1 Hone1 Hforeign1) as (Hret2 & Hrow2 & _).
  fold r2 in Hret2, Hrow2.
  split; [exact Hret1|]. split; [exact Hret2|]. split; [exact Hrow2|]. split.
  - unfold r2. rewrite (voteMessage_verified _ _ _ _ _ _ Hown1).
    destruct (first _) as [existing|] eqn:E.
    + simpl. unfold Drizzle.update_where. now rewrite length_map.
    + exfalso. rewrite first_select_none in E.
      assert (Hin : In (Vote.mk chatId messageId (is_up first_type))
                      (vote (snd r1))).
      { assert (H : In (Vote.mk chatId messageId (is_up first_type))
                      (votes_for (snd r1) chatId messageId))
          by (rewrite Hrow1; now left).
        unfold votes_for in H. now apply filter_In in H. }
      specialize (E _ Hin). unfold Drizzle.eq in E. simpl in E.
      rewrite String.eqb_refl in E. discriminate.
  - unfold r1. rewrite (voteMessage_verified _ _ _ _ _ _ Hown), Hstored.
    destruct (first _); simpl.
    + unfold Drizzle.update_where. rewrite length_map. lia.
    + unfold Drizzle.insert. rewrite length_app. simpl. lia.
Qed.

Lemma voteMessage_twice_witness :
  votes_for
    (snd (voteMessage (snd (voteMessage db_two_owners "a1" "m1" up "alice"))
            "a1" "m1" down "alice"))
    "a1" "m1"
  = [Vote.mk "a1" "m1" false].
Proof.
  assert (Hone : (List.length (votes_for db_two_owners "a1" "m1") <= 1)%nat)
    by (simpl; lia).
  assert (Hforeign : forall v, In v (vote db_two_owners) ->
            Vote.messageId v = "m1" -> Vote.chatId v = "a1").
  { simpl. intros v [<-|[<-|[]]]; simpl; congruence. }
  exact (proj1 (proj2 (proj2 (voteMessage_twice db_two_owners "a1" "m1" "alice"
    up down chat_a1 Logic.eq_refl Logic.eq_refl Hone Hforeign)))).
Defined.

Section AfterPost.

Local Arguments getChatById : simpl never.
Local Arguments given : simpl never.
Local Arguments truthy : simpl never.
Local Arguments getUserById : simpl never.

Lemma getChatById_known d id userId c :
  In c (chat d) -> Chat.id c = id -> Chat.userId c = userId ->
  getChatById d id userId <> None.
Proof.
  intros Hin Hid Hu H. rewrite getChatById_none in H. exact (H c Hin Hid Hu).
Qed.

(** X30. Whenever the chat POST handler answers with the data stream,
    the chat of the request exists afterwards and belongs to the caller:
    it was found as the caller's own or has just been created for them. *)
Theorem POST_chat_exists (env : Env) (request : Request) (db : DB)
  (userId : string) (Hauth : given (auth env) = Some userId) :
  forall r,
    fst (POST env request (start db)) = Returned r -> status r = 200 ->
    getChatById (store (snd (POST env request (start db)))) (req_id request)
      userId <> None.
Proof.
  intros r.
  unfold POST, handler, try_catch, POST_body, createDataStreamResponse,
    streamText, onFinish, connect_mcp, close_mcpClient, jit_sync, await,
    reading, writing, try_catch, bindM, emit, ret, throw, return_,
    set_mcpClient, get_mcpClient, start, trace, createClerkUser, saveChat,
    saveMessages, Drizzle.insert.
  rewrite Hauth.
  repeat (simpl; case_split); simpl; intros [= <-]; try discriminate;
    intros _;
    first
      [ match goal with
        | H : getChatById _ _ _ = Some ?c |- _ =>
            apply getChatById_some in H; destruct H as (Hin & Hid & Hu);
            apply (getChatById_known _ _ _ c); [exact Hin|exact Hid|exact Hu]
        end
      | eapply getChatById_known;
        [simpl; apply in_or_app; right; left; reflexivity
        |reflexivity|reflexivity] ].
Qed.

End AfterPost.

Lemma POST_chat_exists_witness :
  getChatById
    (store (snd (POST env_happy request_hello (start db_two_owners)))) "c9" "alice"
  <> None.
Proof.
  apply (POST_chat_exists env_happy request_hello db_two_owners "alice"
           Logic.eq_refl (response data_stream 200)); reflexivity.
Defined.
